(** * Atlantic Heat Pump Explorer: the data coordinator

    A shallow embedding of
    [custom_components/atlantic_heat_pump_explorer/coordinator.py]
    and the properties of its snapshot that the specification states.

    Python exceptions are explicit outcomes, the coordinator object is an
    explicit state threaded through a state-and-exception monad, and
    [datetime.now()] reads a clock oracle whose readings are counted in the
    state. *)

From Stdlib Require Import ZArith Lia Ascii String.
From stdpp Require Import gmap strings list fin_maps pretty sorting.

Open Scope Z_scope.
Open Scope nat_scope.

(** ** Exceptions and outcomes *)

(** An instance of [Exception]. [Error] stands for any exception raised by the
    vendor client or by the interpreter, [UpdateFailed] for Home Assistant's
    [UpdateFailed], raised [from] its cause. *)
Inductive exn : Type :=
| Error (message : string)
| UpdateFailed (message : string) (cause : exn).

(** [str(e)], as an f-string interpolates it. *)
Definition exn_str (e : exn) : string :=
  match e with
  | Error m => m
  | UpdateFailed m _ => m
  end.

Inductive outcome (A : Type) : Type :=
| Returns (a : A)
| Raises (e : exn).
Arguments Returns {A} a.
Arguments Raises {A} e.

#[global] Instance outcome_ret : MRet outcome := fun A a => Returns a.
#[global] Instance outcome_bind : MBind outcome := fun A B f m =>
  match m with
  | Returns a => f a
  | Raises e => Raises e
  end.
#[global] Instance outcome_fmap : FMap outcome := fun A B f m =>
  match m with
  | Returns a => Returns (f a)
  | Raises e => Raises e
  end.

(** [try: body / except Exception as e: handler]. *)
Definition try_except {A} (body : outcome A) (handler : exn -> outcome A) : outcome A :=
  match body with
  | Returns a => Returns a
  | Raises e => handler e
  end.


(** ** Python values *)

(** The values the coordinator stores by reference, with the built-in
    operations the code applies to them. *)
Class PyValue (V : Type) := {
  py_none : V;                  (* None *)
  py_str : string -> V;         (* a str object *)
  py_eq : V -> V -> bool;       (* a == b *)
  py_truthy : V -> bool;        (* bool(a) *)
  py_to_str : V -> string;      (* str(a) *)
  type_name : V -> string;      (* type(a).__name__ *)
}.

(** ** Ordered dictionaries with string keys

    The mappings produced by reflection keep [dir] order, which
    [json.dumps] walks. *)
Fixpoint dict_set {A} (k : string) (v : A) (d : list (string * A)) : list (string * A) :=
  match d with
  | [] => [(k, v)]
  | (k', v') :: d' =>
      if decide (k = k') then (k, v) :: d' else (k', v') :: dict_set k v d'
  end.

Fixpoint dict_get {A} (k : string) (d : list (string * A)) : option A :=
  match d with
  | [] => None
  | (k', v') :: d' => if decide (k = k') then Some v' else dict_get k d'
  end.

Section Reflection.
Context {V : Type} {value_ops : PyValue V}.

(** An element of a list, tuple or dict value, as [_safe_serialize] sees it. *)
Inductive item : Type :=
| Plain (v : V)                    (* str, int, float, bool or None *)
| Opaque (str_result : outcome string). (* anything else, with what str(v) does *)

(** A dict key. *)
Inductive dkey : Type :=
| KPlain (v : V)                   (* str, int, float, bool or None *)
| KOther (cls : string).           (* another hashable, of class cls *)

(** The value of an attribute, by the branch of the [isinstance] cascade it
    takes. *)
Inductive attr_value : Type :=
| Scalar (v : V)
| Sequence (items : list item)
| Mapping (entries : list (dkey * item))
| Callable
| Object (str_result : outcome string).

(** An object as reflection sees it: the names [dir(obj)] lists, each with
    what [getattr(obj, name)] does. *)
Definition PyObject : Type := list (string * outcome attr_value).

(** A reflected attribute. *)
Inductive ser : Type :=
| SVal (v : V)
| SList (l : list V)
| SDict (l : list (dkey * V)).

(** [_safe_serialize], lines 180-184. *)
Definition _safe_serialize (value : item) : outcome V :=
  match value with
  | Plain v => Returns v
  | Opaque s => py_str <$> s
  end.

Definition startswith_underscore (s : string) : bool :=
  match s with
  | String c _ => bool_decide (c = "_"%char)
  | EmptyString => false
  end.

(** The body of the [try] block for one attribute: [None] is [continue]. *)
Definition read_attribute (getattr : outcome attr_value) : outcome (option ser) :=
  value ← getattr;
  match value with
  | Callable => mret None
  | Scalar v => mret (Some (SVal v))
  | Sequence l => l' ← mapM _safe_serialize l; mret (Some (SList l'))
  | Mapping l =>
      l' ← mapM (fun kv => v ← _safe_serialize kv.2; mret (kv.1, v)) l;
      mret (Some (SDict l'))
  | Object s => s' ← s; mret (Some (SVal (py_str s')))
  end.

(** The value stored by the [except] clause. *)
Definition error_marker (e : exn) : ser :=
  SVal (py_str ("<error: " +:+ exn_str e +:+ ">")).

(** The loop of [_extract_all_attributes] over the names left, with the
    [result] dict built so far. *)
Fixpoint extract_loop (attrs : PyObject) (result : list (string * ser))
  : outcome (list (string * ser)) :=
  match attrs with
  | [] => mret result
  | (attr_name, getattr) :: rest =>
      if startswith_underscore attr_name then extract_loop rest result
      else
        result' ← try_except
          (r ← read_attribute getattr;
           match r with
           | None => mret result
           | Some s => mret (dict_set attr_name s result)
           end)
          (fun e => mret (dict_set attr_name (error_marker e) result));
        extract_loop rest result'
  end.

(** [_extract_all_attributes], lines 156-178. *)
Definition _extract_all_attributes (obj : PyObject) : outcome (list (string * ser)) :=
  extract_loop obj [].

(** What the sweep records for one attribute: nothing for a callable, the
    error marker when reading or serialising raised. *)
Definition recorded (getattr : outcome attr_value) : option ser :=
  match read_attribute getattr with
  | Returns r => r
  | Raises e => Some (error_marker e)
  end.

(** The mapping the sweep returns. *)
Definition reflected (obj : PyObject) : list (string * ser) :=
  match _extract_all_attributes obj with
  | Returns r => r
  | Raises _ => []
  end.

(** The public attributes that are not callable, in [dir] order, each with
    what the sweep records for it. *)
Definition swept (obj : PyObject) : list (string * ser) :=
  omap (fun kg : string * outcome attr_value =>
          if startswith_underscore kg.1 then None
          else (fun s => (kg.1, s)) <$> recorded kg.2) obj.

End Reflection.

Arguments item V : clear implicits.
Arguments dkey V : clear implicits.
Arguments attr_value V : clear implicits.
Arguments PyObject V : clear implicits.
Arguments ser V : clear implicits.

(** ** The vendor library's model, as the coordinator reads it *)

Inductive EventName : Type :=
| DEVICE_STATE_CHANGED
| DEVICE_AVAILABLE
| DEVICE_UNAVAILABLE
| DEVICE_CREATED
| DEVICE_UPDATED
| OTHER_EVENT (member : string).

(** What the interpreter and the host supply: the successive readings of
    [datetime.now()] (microseconds, naive local time) and [str] of an event
    name. *)
Class Runtime := {
  wall_clock : nat -> Z;
  event_name_str : EventName -> string;
}.

Section Model.
Context {V : Type} {value_ops : PyValue V} {host : Runtime}.

(** A [State] of a device or of an event, with [str(state)]. *)
Record State : Type := {
  st_name : string;
  st_value : V;
  st_str : string;
}.

(** A parameter of a command definition; a field is [None] when the
    attribute is missing. *)
Record CommandParameter : Type := {
  par_name : option V;
  par_type : option V;
}.

Record Command : Type := {
  cmd_command_name : option V;
  cmd_str : string;
  cmd_parameters : list CommandParameter;   (* empty when missing, [None] or empty *)
}.

Record StateDefinition : Type := {
  sd_qualified_name : option V;
  sd_str : string;
  sd_type : option V;
}.

Record DeviceDefinition : Type := {
  def_commands : list Command;       (* empty when [None] or empty *)
  def_states : list StateDefinition;
}.

(** A device of the vendor library, a data object: every attribute
    [_process_device] reads has a value. Devices on which a read raises are
    treated in [Objects] below. *)
Record Device : Type := {
  dev_device_url : string;
  dev_label : string;
  dev_widget : V;
  dev_ui_class : V;
  dev_controllable_name : option string;
  dev_protocol : V;
  dev_type : V;
  dev_available : bool;
  dev_states : list State;           (* empty when [None] or empty *)
  dev_attributes : list State;
  dev_definition : option DeviceDefinition;
  dev_reflect : PyObject V;
}.

Record Setup : Type := {
  setup_gateways : list (PyObject V);
  setup_devices : list Device;
}.

(** [AttributeError], raised by reading an attribute the object lacks. *)
Definition AttributeError (class attribute : string) : exn :=
  Error ("'" +:+ class +:+ "' object has no attribute '" +:+ attribute +:+ "'").

(** An element of [event.device_states], by what reading the two attributes
    [_handle_state_change] asks of it does. *)
Record DeviceStateChange : Type := {
  dsc_device_url : outcome string;        (* device_state.device_url *)
  dsc_states : outcome (list State);      (* device_state.states *)
}.

(** The element the vendor library delivers: [Event.device_states] is a list
    of [EventState] objects, which carry the [name], [type] and [value] of
    one state and have neither a [device_url] nor a [states] attribute. *)
Definition EventState (state : State) : DeviceStateChange :=
  {| dsc_device_url := Raises (AttributeError "EventState" "device_url");
     dsc_states := Raises (AttributeError "EventState" "states") |}.

Record Event : Type := {
  ev_name : EventName;
  ev_device_url : option string;     (* [None] when missing or [None] *)
  ev_device_states : option (list DeviceStateChange);   (* likewise *)
  ev_reflect : PyObject V;
}.

(** ** The snapshot *)

(** The dict stored for a state name. *)
Record StateEntry : Type := {
  value : V;
  type : string;
  raw : string;
}.

(** The dict stored for an attribute name. *)
Record AttributeEntry : Type := {
  attribute_value : V;
  attribute_type : string;
}.

Record CommandInfo : Type := {
  command_name : V;
  command_parameters : list (V * V);   (* name, type *)
}.

Record StateDefinitionInfo : Type := {
  definition_name : V;
  definition_type : V;
}.

Record DeviceData : Type := {
  device_url : string;
  label : string;
  widget : string;
  ui_class : string;
  controllable_name : string;
  protocol : string;
  device_type : string;
  available : bool;
  states : gmap string StateEntry;
  attributes : gmap string AttributeEntry;
  commands : list CommandInfo;
  state_definitions : list StateDefinitionInfo;
  raw_data : list (string * ser V);
  last_updated : Z;
}.

(** The [event_data] dict appended to the log. *)
Record LogEntry : Type := {
  timestamp : Z;
  event_number : nat;
  name : string;
  event_raw : list (string * ser V);
}.

Record ExplorerData : Type := {
  devices : gmap string DeviceData;
  gateways : list (list (string * ser V));
  events_log : list LogEntry;
  raw_api_responses : list (list (string * ser V));
  last_full_refresh : option Z;
}.

(** What the coordinator hands to [LOGGER]. *)
Inductive LogLine : Type :=
| ProcessedGateway (gateway_data : list (string * ser V))
| EventLine (number : nat) (event_name : EventName)
| EventDetails (event_data : LogEntry)
| StateChangeLine (device_label state_name : string) (old_value new_value : V)
| AvailabilityLine (device_label : string) (now_available : bool)
| DeviceCreatedLine (url : option string)
| DeviceUpdatedLine (url : option string)
| FullRefreshLine
| FetchErrorLine (e : exn).

(** The coordinator object, with the number of clock readings taken so far and
    the lines logged so far. *)
Record Coordinator : Type := {
  _data : ExplorerData;
  _event_count : nat;
  clock_reads : nat;
  journal : list LogLine;
}.

(** *** Field updates *)

Definition set_states (f : gmap string StateEntry -> gmap string StateEntry)
    (d : DeviceData) : DeviceData :=
  {| device_url := device_url d; label := label d; widget := widget d;
     ui_class := ui_class d; controllable_name := controllable_name d;
     protocol := protocol d; device_type := device_type d;
     available := available d; states := f (states d);
     attributes := attributes d; commands := commands d;
     state_definitions := state_definitions d; raw_data := raw_data d;
     last_updated := last_updated d |}.

Definition set_available (b : bool) (d : DeviceData) : DeviceData :=
  {| device_url := device_url d; label := label d; widget := widget d;
     ui_class := ui_class d; controllable_name := controllable_name d;
     protocol := protocol d; device_type := device_type d;
     available := b; states := states d;
     attributes := attributes d; commands := commands d;
     state_definitions := state_definitions d; raw_data := raw_data d;
     last_updated := last_updated d |}.

Definition set_last_updated (t : Z) (d : DeviceData) : DeviceData :=
  {| device_url := device_url d; label := label d; widget := widget d;
     ui_class := ui_class d; controllable_name := controllable_name d;
     protocol := protocol d; device_type := device_type d;
     available := available d; states := states d;
     attributes := attributes d; commands := commands d;
     state_definitions := state_definitions d; raw_data := raw_data d;
     last_updated := t |}.

Definition set_devices (f : gmap string DeviceData -> gmap string DeviceData)
    (x : ExplorerData) : ExplorerData :=
  {| devices := f (devices x); gateways := gateways x;
     events_log := events_log x; raw_api_responses := raw_api_responses x;
     last_full_refresh := last_full_refresh x |}.

Definition set_gateways
    (f : list (list (string * ser V)) -> list (list (string * ser V)))
    (x : ExplorerData) : ExplorerData :=
  {| devices := devices x; gateways := f (gateways x);
     events_log := events_log x; raw_api_responses := raw_api_responses x;
     last_full_refresh := last_full_refresh x |}.

Definition set_events_log (f : list LogEntry -> list LogEntry)
    (x : ExplorerData) : ExplorerData :=
  {| devices := devices x; gateways := gateways x;
     events_log := f (events_log x); raw_api_responses := raw_api_responses x;
     last_full_refresh := last_full_refresh x |}.

Definition set_last_full_refresh (t : option Z) (x : ExplorerData) : ExplorerData :=
  {| devices := devices x; gateways := gateways x;
     events_log := events_log x; raw_api_responses := raw_api_responses x;
     last_full_refresh := t |}.

Definition set_data (f : ExplorerData -> ExplorerData) (c : Coordinator) : Coordinator :=
  {| _data := f (_data c); _event_count := _event_count c;
     clock_reads := clock_reads c; journal := journal c |}.

Definition set_event_count (f : nat -> nat) (c : Coordinator) : Coordinator :=
  {| _data := _data c; _event_count := f (_event_count c);
     clock_reads := clock_reads c; journal := journal c |}.

Definition set_clock_reads (f : nat -> nat) (c : Coordinator) : Coordinator :=
  {| _data := _data c; _event_count := _event_count c;
     clock_reads := f (clock_reads c); journal := journal c |}.

Definition set_journal (f : list LogLine -> list LogLine) (c : Coordinator) : Coordinator :=
  {| _data := _data c; _event_count := _event_count c;
     clock_reads := clock_reads c; journal := f (journal c) |}.

(** ** The coordinator monad: state and exceptions *)

Definition M (A : Type) : Type := Coordinator -> outcome A * Coordinator.

#[global] Instance M_ret : MRet M := fun A a c => (Returns a, c).
#[global] Instance M_bind : MBind M := fun A B f m c =>
  match m c with
  | (Returns a, c') => f a c'
  | (Raises e, c') => (Raises e, c')
  end.

Definition lift {A} (o : outcome A) : M A := fun c => (o, c).
Definition raise {A} (e : exn) : M A := fun c => (Raises e, c).
Definition read {A} (f : Coordinator -> A) : M A := fun c => (Returns (f c), c).
Definition update (f : Coordinator -> Coordinator) : M unit := fun c => (Returns tt, f c).

(** [try: body / except Exception as exc: handler]; the state is not rolled
    back. *)
Definition try_catch {A} (body : M A) (handler : exn -> M A) : M A := fun c =>
  match body c with
  | (Returns a, c') => (Returns a, c')
  | (Raises e, c') => handler e c'
  end.

(** [for x in l: body]. *)
Fixpoint for_each {A} (l : list A) (body : A -> M unit) : M unit :=
  match l with
  | [] => mret tt
  | x :: l' => body x;; for_each l' body
  end.

(** [datetime.now()]. *)
Definition now : M Z := fun c =>
  (Returns (wall_clock (clock_reads c)), set_clock_reads S c).

Definition log (line : LogLine) : M unit :=
  update (set_journal (fun j => j ++ [line])).

(** The state a computation leaves, returned or raised, and its outcome. *)
Definition exec {A} (m : M A) (c : Coordinator) : Coordinator := (m c).2.
Definition result {A} (m : M A) (c : Coordinator) : outcome A := (m c).1.

(** [self._data.devices[device_url]]. *)
Definition device_at (url : string) : M DeviceData := fun c =>
  match devices (_data c) !! url with
  | Some d => (Returns d, c)
  | None => (Raises (Error "KeyError"), c)
  end.

(** [device_url in self._data.devices]. *)
Definition device_known (url : string) : M bool :=
  read (fun c => bool_decide (is_Some (devices (_data c) !! url))).

(** ** Setup normalisation *)

Definition state_entry (state : State) : StateEntry :=
  {| value := st_value state;
     type := type_name (st_value state);
     raw := st_str state |}.

Definition attribute_entry (attr : State) : AttributeEntry :=
  {| attribute_value := st_value attr;
     attribute_type := type_name (st_value attr) |}.

Definition command_info (cmd : Command) : CommandInfo :=
  {| command_name := default (py_str (cmd_str cmd)) (cmd_command_name cmd);
     command_parameters :=
       map (fun param => (default (py_str "N/A") (par_name param),
                          default (py_str "N/A") (par_type param)))
           (cmd_parameters cmd) |}.

Definition state_definition_info (state_def : StateDefinition) : StateDefinitionInfo :=
  {| definition_name :=
       default (py_str (sd_str state_def)) (sd_qualified_name state_def);
     definition_type := default (py_str "N/A") (sd_type state_def) |}.

(** [_process_device], lines 89-154. *)
Definition _process_device (device : Device) : M DeviceData :=
  let states :=
    foldl (fun m state => <[st_name state := state_entry state]> m) ∅
          (dev_states device) in
  let attributes :=
    foldl (fun m attr => <[st_name attr := attribute_entry attr]> m) ∅
          (dev_attributes device) in
  let commands :=
    match dev_definition device with
    | Some definition => map command_info (def_commands definition)
    | None => []
    end in
  let state_definitions :=
    match dev_definition device with
    | Some definition => map state_definition_info (def_states definition)
    | None => []
    end in
  raw_data ← lift (_extract_all_attributes (dev_reflect device));
  t ← now;
  mret {| device_url := dev_device_url device;
          label := dev_label device;
          widget := py_to_str (dev_widget device);
          ui_class := py_to_str (dev_ui_class device);
          controllable_name := default "" (dev_controllable_name device);
          protocol := if py_truthy (dev_protocol device)
                      then py_to_str (dev_protocol device) else "";
          device_type := if py_truthy (dev_type device)
                         then py_to_str (dev_type device) else "";
          available := dev_available device;
          states := states;
          attributes := attributes;
          commands := commands;
          state_definitions := state_definitions;
          raw_data := raw_data;
          last_updated := t |}.

(** [_process_setup], lines 74-87. *)
Definition _process_setup (setup : Setup) : M unit :=
  for_each (setup_gateways setup) (fun gateway =>
    gateway_data ← lift (_extract_all_attributes gateway);
    update (set_data (set_gateways (fun g => g ++ [gateway_data])));;
    log (ProcessedGateway gateway_data));;
  for_each (setup_devices setup) (fun device =>
    device_data ← _process_device device;
    update (set_data (set_devices <[dev_device_url device := device_data]>)));;
  t ← now;
  update (set_data (set_last_full_refresh (Some t))).

(** ** Event processing *)

(** [self._data.devices[device_url].x = ...]: the record is mutated in place. *)
Definition mutate_device (url : string) (f : DeviceData -> DeviceData) : M unit :=
  d ← device_at url;
  update (set_data (set_devices <[url := f d]>)).

(** The body of the inner loop of [_handle_state_change]. *)
Definition store_state (device_url : string) (state : State) : M unit :=
  d ← device_at device_url;
  let old_value := default py_none (value <$> states d !! st_name state) in
  let new_value := st_value state in
  mutate_device device_url (set_states <[st_name state := state_entry state]>);;
  t ← now;
  mutate_device device_url (set_last_updated t);;
  if py_eq old_value new_value then mret tt
  else
    d' ← device_at device_url;
    log (StateChangeLine (label d') (st_name state) old_value new_value).

(** The body of the outer loop of [_handle_state_change]. *)
Definition apply_device_state (device_state : DeviceStateChange) : M unit :=
  device_url ← lift (dsc_device_url device_state);
  known ← device_known device_url;
  if known : bool
  then
    states ← lift (dsc_states device_state);
    for_each states (store_state device_url)
  else mret tt.

(** [_handle_state_change], lines 242-268. *)
Definition _handle_state_change (event : Event) : M unit :=
  match ev_device_states event with
  | None | Some [] => mret tt
  | Some device_states => for_each device_states apply_device_state
  end.

(** [_handle_availability_change], lines 270-279; the empty string is
    falsy. *)
Definition _handle_availability_change (event : Event) (available : bool) : M unit :=
  match ev_device_url event with
  | None => mret tt
  | Some device_url =>
      known ← device_known device_url;
      if negb (String.eqb device_url "") && known
      then
        mutate_device device_url (set_available available);;
        d ← device_at device_url;
        log (AvailabilityLine (label d) available)
      else mret tt
  end.

(** [l[-n:]] for a positive [n]. *)
Definition slice_last {A} (n : nat) (l : list A) : list A :=
  drop (length l - n) l.

(** [json.dumps(event_data, default=str)]: every value of the entry is
    encodable, a dict key that is not a str, int, float, bool or None is not. *)
Definition check_keys (entries : list (dkey V * V)) : outcome unit :=
  mapM (fun kv : dkey V * V =>
    match kv.1 with
    | KPlain _ => Returns tt
    | KOther cls =>
        Raises (Error ("keys must be str, int, float, bool or None, not " +:+ cls))
    end) entries;;
  mret tt.

Definition json_dumps (event_data : LogEntry) : outcome unit :=
  mapM (fun kv : string * ser V =>
    match kv.2 with
    | SDict entries => check_keys entries
    | _ => Returns tt
    end) (event_raw event_data);;
  mret tt.

(** The dispatch on the event name that ends [_process_event]. *)
Definition handle_specific (event : Event) : M unit :=
  match ev_name event with
  | DEVICE_STATE_CHANGED => _handle_state_change event
  | DEVICE_AVAILABLE => _handle_availability_change event true
  | DEVICE_UNAVAILABLE => _handle_availability_change event false
  | DEVICE_CREATED => log (DeviceCreatedLine (ev_device_url event))
  | DEVICE_UPDATED => log (DeviceUpdatedLine (ev_device_url event))
  | OTHER_EVENT _ => mret tt
  end.

(** [_process_event], lines 210-240. The argument of [LOGGER.debug] is
    evaluated whatever the log level. *)
Definition _process_event (event : Event) : M unit :=
  update (set_event_count S);;
  t ← now;
  n ← read _event_count;
  raw ← lift (_extract_all_attributes (ev_reflect event));
  let event_data :=
    {| timestamp := t; event_number := n;
       name := event_name_str (ev_name event); event_raw := raw |} in
  update (set_data (set_events_log (fun l => l ++ [event_data])));;
  len ← read (fun c => length (events_log (_data c)));
  (if 1000 <? len
   then update (set_data (set_events_log (slice_last 1000)))
   else mret tt);;
  n' ← read _event_count;
  log (EventLine n' (ev_name event));;
  lift (json_dumps event_data);;
  log (EventDetails event_data);;
  handle_specific event.

(** ** The refresh cycle *)

(** [delta.seconds] of the [timedelta] of [delta] microseconds: the seconds
    field of its normalised days, seconds, microseconds form. *)
Definition timedelta_seconds (delta : Z) : Z :=
  ((delta `mod` 86400000000) `div` 1000000)%Z.

(** The condition of the [if] that guards the full refresh. *)
Definition full_refresh_due : M bool :=
  last ← read (fun c => last_full_refresh (_data c));
  match last with
  | None => mret true
  | Some l => t ← now; mret (300 <? timedelta_seconds (t - l))%Z
  end.

(** [_async_update_data], lines 186-208. [fetch_events] and [get_setup] are
    what awaiting the client's calls does. *)
Definition _async_update_data (fetch_events : outcome (list Event))
    (get_setup : outcome Setup) : M ExplorerData :=
  try_catch
    (events ← lift fetch_events;
     for_each events _process_event;;
     due ← full_refresh_due;
     (if due : bool
      then
        log FullRefreshLine;;
        new_setup ← lift get_setup;
        _process_setup new_setup
      else mret tt);;
     read _data)
    (fun exc =>
       log (FetchErrorLine exc);;
       raise (UpdateFailed ("Error communicating with API: " +:+ exn_str exc) exc)).

(** ** Construction and accessors *)

(** The coordinator as [__init__] sets it up before the initial setup is
    processed. *)
Definition blank : Coordinator :=
  {| _data := {| devices := ∅; gateways := []; events_log := [];
                 raw_api_responses := []; last_full_refresh := None |};
     _event_count := 0; clock_reads := 0; journal := [] |}.

Definition __init__ (setup : Setup) : Coordinator :=
  exec (_process_setup setup) blank.

Definition get_device_data (c : Coordinator) (url : string) : option DeviceData :=
  devices (_data c) !! url.

Definition get_all_devices (c : Coordinator) : gmap string DeviceData :=
  devices (_data c).

Definition get_events_log (c : Coordinator) : list LogEntry :=
  events_log (_data c).

(** ** Vocabulary of the properties *)

(** Calling [_process_event] on each event in turn; a call that raises leaves
    its state to the next one. *)
Definition process_events (events : list Event) (c : Coordinator) : Coordinator :=
  foldl (fun c event => exec (_process_event event) c) c events.

(** The entry [_process_event] appends for an event met in state [c]. *)
Definition log_entry_for (event : Event) (c : Coordinator) : LogEntry :=
  {| timestamp := wall_clock (clock_reads c);
     event_number := S (_event_count c);
     name := event_name_str (ev_name event);
     event_raw := reflected (ev_reflect event) |}.

Fixpoint log_entries (events : list Event) (c : Coordinator) : list LogEntry :=
  match events with
  | [] => []
  | event :: rest =>
      log_entry_for event c :: log_entries rest (exec (_process_event event) c)
  end.

(** The last state of a list that carries a given name. *)
Definition last_named (n : string) (writes : list State) : option State :=
  last (filter (fun st => st_name st = n) writes).

(** The stored states after a list of states has been written over them. *)
Definition overwrite (stored : gmap string StateEntry) (writes : list State)
  : gmap string StateEntry :=
  foldl (fun m st => <[st_name st := state_entry st]> m) stored writes.

(** The payload of an event is not empty and reading [device_url] of its
    first element raises [e]: so it is for every payload of the vendor
    library that holds a state. *)
Definition first_element_raises (event : Event) (e : exn) : Prop :=
  exists device_state rest,
    ev_device_states event = Some (device_state :: rest) /\
    dsc_device_url device_state = Raises e.

(** The payload of an event is a list of the vendor's [EventState]
    objects. *)
Definition from_vendor (event : Event) : Prop :=
  exists states, ev_device_states event = Some (EventState <$> states).

(** What event handling can make of a device record: the availability flag
    set, states written over the stored ones, [last_updated] set. *)
Definition evolved (d d' : DeviceData) : Prop :=
  exists b writes t,
    d' = set_available b (set_last_updated t
           (set_states (fun m => overwrite m writes) d)).

(** The same, for every record of a device mapping; no identifier is added
    and none removed. *)
Definition all_evolved (m m' : gmap string DeviceData) : Prop :=
  forall url, option_Forall2 evolved (m !! url) (m' !! url).

(** The states of the coordinator: built by [__init__], then driven by refresh
    cycles, or by its methods called one at a time. *)
Inductive reachable : Coordinator -> Prop :=
| reach_init setup : reachable (__init__ setup)
| reach_refresh c fetch_events get_setup :
    reachable c -> reachable (exec (_async_update_data fetch_events get_setup) c)
| reach_event c event :
    reachable c -> reachable (exec (_process_event event) c)
| reach_setup c setup :
    reachable c -> reachable (exec (_process_setup setup) c).

(** Every entry of the device mapping sits under its own identifier. *)
Definition keyed (m : gmap string DeviceData) : Prop :=
  forall url d, m !! url = Some d -> device_url d = url.

(** Two device records that differ at most in [last_updated]. *)
Definition same_but_time (d1 d2 : DeviceData) : Prop :=
  set_last_updated 0 d1 = set_last_updated 0 d2.

(** The log is in strictly increasing event number, below the counter. *)
Definition log_ordered (c : Coordinator) : Prop :=
  StronglySorted lt (event_number <$> events_log (_data c)) /\
  Forall (fun e => event_number e <= _event_count c) (events_log (_data c)).

(** A computation relates every state to the state it leaves. *)
Definition preserves {A} (R : relation Coordinator) (m : M A) : Prop :=
  forall c, R c (exec m c).

(** A relation on a component of the coordinator. *)
Definition on {A} (R : relation A) (f : Coordinator -> A) : relation Coordinator :=
  fun c c' => R (f c) (f c').

(** A property of the coordinator that holds afterwards if it held before. *)
Definition invariant (P : Coordinator -> Prop) : relation Coordinator :=
  fun c c' => P c -> P c'.

(** The event log and the event counter. *)
Definition log_and_count (c : Coordinator) : list LogEntry * nat :=
  (events_log (_data c), _event_count c).

(** The parts of the coordinator that no event handler writes. *)
Definition untouched_by_handlers (c : Coordinator) :=
  (events_log (_data c), _event_count c, gateways (_data c),
   last_full_refresh (_data c), raw_api_responses (_data c)).

(** The fields of a device record that only setup normalisation writes. *)
Definition description (d : DeviceData) :=
  (device_url d, label d, widget d, ui_class d, controllable_name d,
   protocol d, device_type d, attributes d, commands d, state_definitions d,
   raw_data d).

(** The stored type tags are those of the stored values. *)
Definition well_tagged (d : DeviceData) : Prop :=
  map_Forall (fun _ e => type e = type_name (value e)) (states d) /\
  map_Forall (fun _ a => attribute_type a = type_name (attribute_value a))
    (attributes d).

(** The time of the last full refresh is a reading the clock has given. *)
Definition refreshed_in_the_past (c : Coordinator) : Prop :=
  exists k, k < clock_reads c /\ last_full_refresh (_data c) = Some (wall_clock k).

(** Every dict among the reflected attributes has primitive keys only. *)
Definition dumpable (raw : list (string * ser V)) : Prop :=
  Forall (fun kv : string * ser V =>
            match kv.2 with
            | SDict entries =>
                Forall (fun e : dkey V * V =>
                          match e.1 with KPlain _ => True | KOther _ => False end)
                       entries
            | _ => True
            end) raw.

End Model.

Arguments State V : clear implicits.
Arguments CommandParameter V : clear implicits.
Arguments Command V : clear implicits.
Arguments StateDefinition V : clear implicits.
Arguments DeviceDefinition V : clear implicits.
Arguments Device V : clear implicits.
Arguments Setup V : clear implicits.
Arguments DeviceStateChange V : clear implicits.
Arguments Event V : clear implicits.
Arguments StateEntry V : clear implicits.
Arguments AttributeEntry V : clear implicits.
Arguments CommandInfo V : clear implicits.
Arguments StateDefinitionInfo V : clear implicits.
Arguments DeviceData V : clear implicits.
Arguments LogEntry V : clear implicits.
Arguments ExplorerData V : clear implicits.
Arguments LogLine V : clear implicits.
Arguments Coordinator V : clear implicits.
Arguments M V A : clear implicits.

(** * Devices whose attributes can fail to read

    A [Device] above has an attribute value whatever is read of it, as the
    data classes of the vendor library have. [_process_device] reads eleven
    attributes of the device outside any [try]; here it is embedded, and
    [_process_setup] with it, for a device on which reading an attribute can
    raise, the same attribute raising the same way in the sweep and in the
    direct read. *)

Module Objects.
Section Objects.
Context {V : Type} {value_ops : PyValue V} {host : Runtime}.

(** A device object: the values its attributes hold and, for each attribute
    whose read raises, the exception. *)
Record DeviceObject : Type := {
  attribute_values : Device V;
  raising : string -> option exn;
}.

Record SetupObject : Type := {
  gateway_objects : list (PyObject V);
  device_objects : list DeviceObject;
}.

(** [device.name], for an attribute the code reads directly. *)
Definition getattr {A} (device : DeviceObject) (name : string)
    (field : Device V -> A) : outcome A :=
  match raising device name with
  | Some e => Raises e
  | None => Returns (field (attribute_values device))
  end.

(** The device as the sweep sees it: the names of [dir], each with what
    [getattr] does. *)
Definition reflect (device : DeviceObject) : PyObject V :=
  (fun entry : string * outcome (attr_value V) =>
     (entry.1,
      match raising device entry.1 with
      | Some e => Raises e
      | None => entry.2
      end)) <$> dev_reflect (attribute_values device).

(** [_process_device], lines 89-154, with the attribute reads in the order
    the code makes them; a read that returned returns the same when
    repeated. *)
Definition _process_device (device : DeviceObject) : M V (DeviceData V) :=
  device_states ← lift (getattr device "states" dev_states);
  let states :=
    foldl (fun m state => <[st_name state := state_entry state]> m) ∅
          device_states in
  device_attributes ← lift (getattr device "attributes" dev_attributes);
  let attributes :=
    foldl (fun m attr => <[st_name attr := attribute_entry attr]> m) ∅
          device_attributes in
  device_definition ← lift (getattr device "definition" dev_definition);
  let commands :=
    match device_definition with
    | Some definition => map command_info (def_commands definition)
    | None => []
    end in
  let state_definitions :=
    match device_definition with
    | Some definition => map state_definition_info (def_states definition)
    | None => []
    end in
  raw_data ← lift (_extract_all_attributes (reflect device));
  device_url ← lift (getattr device "device_url" dev_device_url);
  device_label ← lift (getattr device "label" dev_label);
  device_widget ← lift (getattr device "widget" dev_widget);
  device_ui_class ← lift (getattr device "ui_class" dev_ui_class);
  device_controllable_name ←
    lift (getattr device "controllable_name" dev_controllable_name);
  device_protocol ← lift (getattr device "protocol" dev_protocol);
  device_type ← lift (getattr device "type" dev_type);
  device_available ← lift (getattr device "available" dev_available);
  t ← now;
  mret {| device_url := device_url;
          label := device_label;
          widget := py_to_str device_widget;
          ui_class := py_to_str device_ui_class;
          controllable_name := default "" device_controllable_name;
          protocol := if py_truthy device_protocol
                      then py_to_str device_protocol else "";
          device_type := if py_truthy device_type
                         then py_to_str device_type else "";
          available := device_available;
          states := states;
          attributes := attributes;
          commands := commands;
          state_definitions := state_definitions;
          raw_data := raw_data;
          last_updated := t |}.

(** [_process_setup], lines 74-87. *)
Definition _process_setup (setup : SetupObject) : M V unit :=
  for_each (gateway_objects setup) (fun gateway =>
    gateway_data ← lift (_extract_all_attributes gateway);
    update (set_data (set_gateways (fun g => g ++ [gateway_data])));;
    log (ProcessedGateway gateway_data));;
  for_each (device_objects setup) (fun device =>
    device_data ← _process_device device;
    device_url ← lift (getattr device "device_url" dev_device_url);
    update (set_data (set_devices <[device_url := device_data]>)));;
  t ← now;
  update (set_data (set_last_full_refresh (Some t))).






End Objects.

Arguments DeviceObject V : clear implicits.
Arguments SetupObject V : clear implicits.

End Objects.

(** * The read surface: dump, sensors and diagnostics *)

Section Surface.
Context {V : Type} {value_ops : PyValue V} {host : Runtime}.

(** [datetime.isoformat()]. *)
Variable isoformat : Z -> string.

(** ** [get_full_data_dump], coordinator.py lines 293-319 *)

(** The dict the dump holds for a device. *)
Record DumpedDevice : Type := {
  dumped_device_url : string;
  dumped_label : string;
  dumped_widget : string;
  dumped_ui_class : string;
  dumped_controllable_name : string;
  dumped_protocol : string;
  dumped_device_type : string;
  dumped_available : bool;
  dumped_states : gmap string (StateEntry V);
  dumped_attributes : gmap string (AttributeEntry V);
  dumped_commands : list (CommandInfo V);
  dumped_state_definitions : list (StateDefinitionInfo V);
  dumped_raw_data : list (string * ser V);
  dumped_last_updated : string;
}.

Record FullDump : Type := {
  dump_devices : gmap string DumpedDevice;
  dump_gateways : list (list (string * ser V));
  events_log_count : nat;
  last_events : list (LogEntry V);
  dump_last_full_refresh : option string;
}.

Definition dump_device (d : DeviceData V) : DumpedDevice :=
  {| dumped_device_url := device_url d;
     dumped_label := label d;
     dumped_widget := widget d;
     dumped_ui_class := ui_class d;
     dumped_controllable_name := controllable_name d;
     dumped_protocol := protocol d;
     dumped_device_type := device_type d;
     dumped_available := available d;
     dumped_states := states d;
     dumped_attributes := attributes d;
     dumped_commands := commands d;
     dumped_state_definitions := state_definitions d;
     dumped_raw_data := raw_data d;
     dumped_last_updated := isoformat (last_updated d) |}.

Definition get_full_data_dump (c : Coordinator V) : FullDump :=
  {| dump_devices := dump_device <$> devices (_data c);
     dump_gateways := gateways (_data c);
     events_log_count := length (events_log (_data c));
     last_events :=
       match events_log (_data c) with
       | [] => []
       | _ :: _ => slice_last 10 (events_log (_data c))
       end;
     dump_last_full_refresh := isoformat <$> last_full_refresh (_data c) |}.

(** ** Sensor entities, sensor.py and binary_sensor.py *)

(** [s.replace(old, new)] for one-character [old] and [new]. *)
Fixpoint replace_char (old new : ascii) (s : string) : string :=
  match s with
  | EmptyString => EmptyString
  | String a s' =>
      String (if decide (a = old) then new else a) (replace_char old new s')
  end.

(** [safe_url], as every entity constructor computes it. *)
Definition safe_url (device_url : string) : string :=
  replace_char "#" "_" (replace_char ":" "_" (replace_char "/" "_" device_url)).

(** [_attr_unique_id] of an [AtlanticStateSensor], sensor.py lines 180-182. *)
Definition state_sensor_unique_id (device_url state_name : string) : string :=
  safe_url device_url +:+ "_" +:+ replace_char ":" "_" state_name.

(** The entities a platform creates, by their class and constructor
    arguments. *)
Inductive SensorEntity : Type :=
| AtlanticStateSensor (device_url state_name : string)
| AtlanticRawDataSensor (device_url : string)
| AtlanticEventsSensor
| AtlanticFullDumpSensor.

(** [async_setup_entry] of sensor.py, lines 111-161: the list passed to
    [async_add_entities]. The dicts are walked in the order [map_to_list]
    gives, which need not be Python's insertion order. *)
Definition sensor_async_setup_entry (c : Coordinator V) : list SensorEntity :=
  (map_to_list (get_all_devices c) ≫= fun '(device_url, device_data) =>
     (AtlanticStateSensor device_url <$> (map_to_list (states device_data)).*1)
     ++ [AtlanticRawDataSensor device_url])
  ++ [AtlanticEventsSensor; AtlanticFullDumpSensor].

(** [AtlanticStateSensor.native_value], sensor.py lines 223-229; [py_none]
    stands for the [None] returned. *)
Definition state_sensor_native_value (c : Coordinator V)
    (device_url state_name : string) : V :=
  match get_device_data c device_url with
  | Some device_data =>
      match states device_data !! state_name with
      | Some state_info => value state_info
      | None => py_none
      end
  | None => py_none
  end.

(** [AtlanticRawDataSensor.native_value], sensor.py lines 282-288. *)
Definition raw_data_sensor_native_value (c : Coordinator V) (device_url : string)
  : string :=
  match get_device_data c device_url with
  | Some device_data =>
      pretty (size (states device_data)) +:+ " states, " +:+
      pretty (length (commands device_data)) +:+ " commands"
  | None => "No data"
  end.

(** [AtlanticEventsSensor.native_value] and the [recent_events] attribute,
    sensor.py lines 325-337. *)
Definition events_sensor_native_value (c : Coordinator V) : nat :=
  length (get_events_log c).

Definition events_sensor_recent_events (c : Coordinator V) : list (LogEntry V) :=
  match get_events_log c with
  | [] => []
  | _ :: _ => slice_last 20 (get_events_log c)
  end.

(** [AtlanticFullDumpSensor.native_value], sensor.py lines 350-354. *)
Definition full_dump_sensor_native_value (c : Coordinator V) : string :=
  let data := get_full_data_dump c in
  pretty (size (dump_devices data)) +:+ " devices, " +:+
  pretty (length (dump_gateways data)) +:+ " gateways".

(** [AtlanticAvailabilitySensor.is_on], binary_sensor.py lines 150-154. *)
Definition availability_sensor_is_on (c : Coordinator V) (device_url : string) : bool :=
  match get_device_data c device_url with
  | Some device_data => available device_data
  | None => false
  end.

(** ** [async_get_config_entry_diagnostics], diagnostics.py lines 24-81 *)

(** The dict the diagnostics hold for a device. *)
Record DiagnosticsDevice : Type := {
  diag_label : string;
  diag_widget : string;
  diag_ui_class : string;
  diag_controllable_name : string;
  diag_protocol : string;
  diag_device_type : string;
  diag_available : bool;
  diag_states : gmap string (StateEntry V);
  diag_attributes : gmap string (AttributeEntry V);
  diag_commands : list (CommandInfo V);
  diag_state_definitions : list (StateDefinitionInfo V);
  diag_raw_data : list (string * ser V);
  diag_last_updated : string;
}.

Record DataSummary : Type := {
  device_count : nat;
  gateway_count : nat;
  total_events : nat;
}.

(** The diagnostics document; [E] is the redacted entry block, which Home
    Assistant builds. *)
Record Diagnostics (E : Type) : Type := {
  diag_entry : E;
  data_summary : DataSummary;
  diag_gateways : list (list (string * ser V));
  diag_devices : gmap string DiagnosticsDevice;
  diag_events : list (LogEntry V);
}.

Definition diagnostics_device (d : DumpedDevice) : DiagnosticsDevice :=
  {| diag_label := dumped_label d;
     diag_widget := dumped_widget d;
     diag_ui_class := dumped_ui_class d;
     diag_controllable_name := dumped_controllable_name d;
     diag_protocol := dumped_protocol d;
     diag_device_type := dumped_device_type d;
     diag_available := dumped_available d;
     diag_states := dumped_states d;
     diag_attributes := dumped_attributes d;
     diag_commands := dumped_commands d;
     diag_state_definitions := dumped_state_definitions d;
     diag_raw_data := dumped_raw_data d;
     diag_last_updated := dumped_last_updated d |}.

Definition async_get_config_entry_diagnostics {E} (entry : E) (c : Coordinator V)
  : Diagnostics E :=
  let full_dump := get_full_data_dump c in
  let events := get_events_log c in
  {| diag_entry := entry;
     data_summary :=
       {| device_count := size (dump_devices full_dump);
          gateway_count := length (dump_gateways full_dump);
          total_events := length events |};
     diag_gateways := dump_gateways full_dump;
     diag_devices := diagnostics_device <$> dump_devices full_dump;
     diag_events := if 100 <? length events then slice_last 100 events else events |}.

End Surface.

Arguments DumpedDevice V : clear implicits.
Arguments FullDump V : clear implicits.
Arguments DiagnosticsDevice V : clear implicits.
Arguments Diagnostics V E : clear implicits.
Arguments diag_entry {V E} _.
Arguments data_summary {V E} _.
Arguments diag_gateways {V E} _.
Arguments diag_devices {V E} _.
Arguments diag_events {V E} _.

(** * The place hierarchy, __init__.py *)

(** A place of the setup, with what [%s] prints of its label, OID and type. *)
#[warnings="-register-all"]
Inductive Place : Type :=
| MkPlace (place_label place_oid place_type : string) (sub_places : list Place).

(** The arguments of the line [_log_place] logs for a place. *)
Record PlaceLine : Type := {
  line_prefix : string;
  line_label : string;
  line_oid : string;
  line_type : string;
}.

(** [s * n]. *)
Fixpoint str_repeat (s : string) (n : nat) : string :=
  match n with
  | 0 => ""
  | S n' => s +:+ str_repeat s n'
  end.

(** [_log_place], __init__.py lines 222-228: the lines logged, in order. *)
Fixpoint _log_place (place : Place) (indent : nat) : list PlaceLine :=
  match place with
  | MkPlace place_label place_oid place_type sub_places =>
      {| line_prefix := str_repeat "  " indent; line_label := place_label;
         line_oid := place_oid; line_type := place_type |}
      :: (fix for_sub_places (l : list Place) : list PlaceLine :=
            match l with
            | [] => []
            | sub_place :: l' => _log_place sub_place (S indent) ++ for_sub_places l'
            end) sub_places
  end.

(** The number of places of a hierarchy, and its number of levels. *)
Fixpoint place_count (place : Place) : nat :=
  match place with
  | MkPlace _ _ _ sub_places =>
      S ((fix sum (l : list Place) : nat :=
            match l with
            | [] => 0
            | sub_place :: l' => place_count sub_place + sum l'
            end) sub_places)
  end.

Fixpoint place_levels (place : Place) : nat :=
  match place with
  | MkPlace _ _ _ sub_places =>
      S ((fix deepest (l : list Place) : nat :=
            match l with
            | [] => 0
            | sub_place :: l' => place_levels sub_place `max` deepest l'
            end) sub_places)
  end.

(** The line [_log_place] logs for a place at an indent. *)
Definition place_line (indent : nat) (place : Place) : PlaceLine :=
  match place with
  | MkPlace place_label place_oid place_type _ =>
      {| line_prefix := str_repeat "  " indent; line_label := place_label;
         line_oid := place_oid; line_type := place_type |}
  end.

(** The places of a hierarchy in depth-first order, each place before its
    sub-places and these in their order, each with its level below the
    root. *)
Fixpoint preorder (place : Place) : list (nat * Place) :=
  match place with
  | MkPlace _ _ _ sub_places =>
      (0, place)
      :: (fix below (l : list Place) : list (nat * Place) :=
            match l with
            | [] => []
            | sub_place :: l' =>
                ((fun entry : nat * Place => (S entry.1, entry.2))
                   <$> preorder sub_place) ++ below l'
            end) sub_places
  end.

(** * The reflection of the standalone script, scripts/explore_api.py *)

Section Script.
Context {V : Type} {value_ops : PyValue V}.

(** A Python object as the script walks it: a primitive, a list or tuple, a
    dict, or any other object with the names [dir] lists and what [getattr]
    does for each; every object but a primitive carries what [str] does for
    it. *)
#[warnings="-register-all"]
Inductive pyobj : Type :=
| OPrim (v : V)
| OSeq (str_result : outcome string) (items : list pyobj)
| ODict (str_result : outcome string) (entries : list (dkey V * pyobj))
| OObject (str_result : outcome string) (attrs : list (string * getattr_result))
with getattr_result : Type :=
| GRaises (e : exn)
| GCallable
| GValue (value : pyobj).

(** What the script puts in its report. *)
#[warnings="-register-all"]
Inductive report : Type :=
| RVal (v : V)
| RList (items : list report)
| RDict (entries : list (dkey V * report))
| RObject (attrs : list (string * report)).

(** [str(obj)]. *)
Definition str_of (obj : pyobj) : outcome string :=
  match obj with
  | OPrim v => Returns (py_to_str v)
  | OSeq s _ | ODict s _ | OObject s _ => s
  end.

(** [extract_all_attributes], explore_api.py lines 35-62. *)
Fixpoint extract_all_attributes (obj : pyobj) (depth max_depth : nat)
  : outcome report :=
  if max_depth <? depth then (fun s => RVal (py_str s)) <$> str_of obj
  else
    match obj with
    | OPrim v => Returns (RVal v)
    | OSeq _ items =>
        RList <$>
          (fix comprehension (l : list pyobj) : outcome (list report) :=
             match l with
             | [] => Returns []
             | item :: l' =>
                 r ← extract_all_attributes item (S depth) max_depth;
                 rs ← comprehension l';
                 mret (r :: rs)
             end) items
    | ODict _ entries =>
        RDict <$>
          (fix comprehension (l : list (dkey V * pyobj))
             : outcome (list (dkey V * report)) :=
             match l with
             | [] => Returns []
             | (k, v) :: l' =>
                 r ← extract_all_attributes v (S depth) max_depth;
                 rs ← comprehension l';
                 mret ((k, r) :: rs)
             end) entries
    | OObject str_result attrs =>
        result ←
          (fix loop (l : list (string * getattr_result))
               (result : list (string * report))
             : outcome (list (string * report)) :=
             match l with
             | [] => Returns result
             | (attr_name, getattr) :: l' =>
                 if startswith_underscore attr_name then loop l' result
                 else
                   result' ← try_except
                     (match getattr with
                      | GRaises e => Raises e
                      | GCallable => Returns result
                      | GValue value =>
                          r ← extract_all_attributes value (S depth) max_depth;
                          mret (dict_set attr_name r result)
                      end)
                     (fun e =>
                        mret (dict_set attr_name
                                (RVal (py_str ("<error: " +:+ exn_str e +:+ ">")))
                                result));
                   loop l' result'
             end) attrs [];
        match result with
        | [] => (fun s => RVal (py_str s)) <$> str_result
        | _ :: _ => Returns (RObject result)
        end
    end.

(** The value stored by the [except] clause. *)
Definition script_marker (e : exn) : report :=
  RVal (py_str ("<error: " +:+ exn_str e +:+ ">")).

(** What the loop over the attributes stores for one of them, met at
    [depth]: nothing for a callable, the report of the value, or the marker
    when [getattr] or the walk of the value raised. *)
Definition script_recorded (depth max_depth : nat) (getattr : getattr_result)
  : option report :=
  match getattr with
  | GRaises e => Some (script_marker e)
  | GCallable => None
  | GValue value =>
      Some match extract_all_attributes value (S depth) max_depth with
           | Returns r => r
           | Raises e => script_marker e
           end
  end.

(** The public attributes that are not callable, in [dir] order, each with
    what the loop stores for it. *)
Definition script_swept (depth max_depth : nat)
    (attrs : list (string * getattr_result)) : list (string * report) :=
  omap (fun kg : string * getattr_result =>
          if startswith_underscore kg.1 then None
          else (fun r => (kg.1, r)) <$> script_recorded depth max_depth kg.2) attrs.

(** The number of containers nested in a report. *)
Fixpoint nesting (r : report) : nat :=
  match r with
  | RVal _ => 0
  | RList items =>
      S ((fix deepest (l : list report) : nat :=
            match l with
            | [] => 0
            | x :: l' => nesting x `max` deepest l'
            end) items)
  | RDict entries =>
      S ((fix deepest (l : list (dkey V * report)) : nat :=
            match l with
            | [] => 0
            | x :: l' => nesting x.2 `max` deepest l'
            end) entries)
  | RObject attrs =>
      S ((fix deepest (l : list (string * report)) : nat :=
            match l with
            | [] => 0
            | x :: l' => nesting x.2 `max` deepest l'
            end) attrs)
  end.

End Script.

Arguments pyobj V : clear implicits.
Arguments getattr_result V : clear implicits.
Arguments report V : clear implicits.

(** ** A concrete value domain and runtime, for evaluating the model *)

Module Sample.

(** None, bools, ints and strs, with Python's equality between them. *)
Inductive pv : Type :=
| PNone
| PBool (b : bool)
| PInt (z : Z)
| PStr (s : string).

Definition as_int (v : pv) : option Z :=
  match v with
  | PBool b => Some (if b then 1 else 0)%Z
  | PInt z => Some z
  | _ => None
  end.

Definition pv_eq (a b : pv) : bool :=
  match a, b with
  | PNone, PNone => true
  | PStr s, PStr s' => String.eqb s s'
  | _, _ =>
      match as_int a, as_int b with
      | Some x, Some y => (x =? y)%Z
      | _, _ => false
      end
  end.

Definition pv_truthy (a : pv) : bool :=
  match a with
  | PNone => false
  | PBool b => b
  | PInt z => negb (z =? 0)%Z
  | PStr s => negb (String.eqb s "")
  end.

Definition pv_to_str (a : pv) : string :=
  match a with
  | PNone => "None"
  | PBool true => "True"
  | PBool false => "False"
  | PInt z => pretty z
  | PStr s => s
  end.

Definition pv_type_name (a : pv) : string :=
  match a with
  | PNone => "NoneType"
  | PBool _ => "bool"
  | PInt _ => "int"
  | PStr _ => "str"
  end.

#[global] Instance pv_value : PyValue pv := {|
  py_none := PNone;
  py_str := PStr;
  py_eq := pv_eq;
  py_truthy := pv_truthy;
  py_to_str := pv_to_str;
  type_name := pv_type_name;
|}.

(** A clock that advances by a quarter of a second between readings, and the
    member names of the event enum. *)
#[global] Instance quarter_seconds : Runtime := {|
  wall_clock := fun k => (250000 * Z.of_nat k)%Z;
  event_name_str := fun n =>
    match n with
    | DEVICE_STATE_CHANGED => "EventName.DEVICE_STATE_CHANGED"
    | DEVICE_AVAILABLE => "EventName.DEVICE_AVAILABLE"
    | DEVICE_UNAVAILABLE => "EventName.DEVICE_UNAVAILABLE"
    | DEVICE_CREATED => "EventName.DEVICE_CREATED"
    | DEVICE_UPDATED => "EventName.DEVICE_UPDATED"
    | OTHER_EVENT m => "EventName." +:+ m
    end;
|}.

(** A host that was suspended: its second reading comes a day and a hundred
    seconds after the first. *)
Definition resumed_next_day : Runtime := {|
  wall_clock := fun k => (86500000000 * Z.of_nat k)%Z;
  event_name_str := event_name_str;
|}.

(** A gateway whose [id] property raises and whose [update] is a method. *)
Definition gateway : PyObject pv :=
  [ ("__doc__", Returns (Scalar PNone));
    ("alive", Returns (Scalar (PBool true)));
    ("connectivity", Returns (Object (Returns "Connectivity(status='OK')")));
    ("gateway_id", Returns (Scalar (PStr "1234-5678-9012")));
    ("id", Raises (Error "gateway has no id"));
    ("partners", Returns (Sequence [Plain (PStr "atlantic"); Opaque (Returns "Partner(2)")]));
    ("sub_type", Returns (Scalar (PInt 1)));
    ("update", Returns Callable) ].

Definition temperature (v : Z) : State pv :=
  {| st_name := "core:TemperatureState"; st_value := PInt v;
     st_str := "State(name='core:TemperatureState')" |}.

(** The boiler of the specification's scenario, at 45 degrees. *)
Definition boiler : Device pv :=
  {| dev_device_url := "dev-1";
     dev_label := "Boiler";
     dev_widget := PStr "AtlanticPassAPCBoiler";
     dev_ui_class := PStr "HeatingSystem";
     dev_controllable_name := Some "io:AtlanticPassAPCBoilerComponent";
     dev_protocol := PStr "io";
     dev_type := PInt 1;
     dev_available := true;
     dev_states := [temperature 45];
     dev_attributes := [];
     dev_definition := None;
     dev_reflect :=
       [ ("available", Returns (Scalar (PBool true)));
         ("device_url", Returns (Scalar (PStr "dev-1")));
         ("label", Returns (Scalar (PStr "Boiler")));
         ("place_oid", Raises (Error "no place")) ] |}.

Definition setup : Setup pv :=
  {| setup_gateways := [gateway]; setup_devices := [boiler] |}.



(** What reflection sees of the events below. *)
Definition event_attrs (url : string) : PyObject pv :=
  [ ("device_url", Returns (Scalar (PStr url)));
    ("timestamp", Returns (Scalar (PInt 1700000000))) ].

(** A state-changed event that reports the temperature of a device, as the
    vendor library delivers it. *)
Definition temperature_event (url : string) (v : Z) : Event pv :=
  {| ev_name := DEVICE_STATE_CHANGED;
     ev_device_url := Some url;
     ev_device_states := Some [EventState (temperature v)];
     ev_reflect := event_attrs url |}.

(** A state-changed event of the boiler with no state. *)
Definition empty_event : Event pv :=
  {| ev_name := DEVICE_STATE_CHANGED;
     ev_device_url := Some "dev-1";
     ev_device_states := Some [];
     ev_reflect := event_attrs "dev-1" |}.

Definition unavailable_event (url : string) : Event pv :=
  {| ev_name := DEVICE_UNAVAILABLE;
     ev_device_url := Some url;
     ev_device_states := None;
     ev_reflect := event_attrs url |}.

(** An event one of whose attributes is a dict keyed by a tuple. *)
Definition tuple_keyed_event : Event pv :=
  {| ev_name := OTHER_EVENT "EXECUTION_REGISTERED";
     ev_device_url := None;
     ev_device_states := None;
     ev_reflect :=
       [ ("owners", Returns (Mapping [(KOther "tuple", Plain (PInt 1))])) ] |}.

(** A device-created event for a device the setup does not list. *)
Definition created_event : Event pv :=
  {| ev_name := DEVICE_CREATED;
     ev_device_url := Some "dev-2";
     ev_device_states := None;
     ev_reflect := event_attrs "dev-2" |}.

(** A setup that lists nothing. *)
Definition empty_setup : Setup pv :=
  {| setup_gateways := []; setup_devices := [] |}.

(** A house with two floors and a bathroom on the first. *)
Definition house : Place :=
  MkPlace "House" "oid-0" "HOUSE"
    [ MkPlace "Ground floor" "oid-1" "FLOOR" [];
      MkPlace "First floor" "oid-2" "FLOOR"
        [ MkPlace "Bathroom" "oid-3" "ROOM" [] ] ].

(** The list that holds 7 under [n] pairs of brackets. *)
Fixpoint nested_list (n : nat) : pyobj pv :=
  match n with
  | 0 => OPrim (PInt 7)
  | S n' =>
      OSeq (Returns (str_repeat "[" n +:+ "7" +:+ str_repeat "]" n)) [nested_list n']
  end.

(** The attributes of a client: a private session, a method, a property
    that raises while the client is not connected, and the server name. *)
Definition client_attrs : list (string * getattr_result pv) :=
  [ ("_session", GValue (OPrim PNone));
    ("close", GCallable);
    ("gateway", GRaises (Error "not connected"));
    ("server", GValue (OPrim (PStr "atlantic_cozytouch"))) ].

(** A handle whose [str] raises and whose only public attribute is a
    method. *)
Definition closed_handle : pyobj pv :=
  OObject (Raises (Error "handle is closed"))
    [ ("_session", GValue (OPrim PNone)); ("close", GCallable) ].

(** The coordinator built from the setup. *)
Definition start : Coordinator pv := __init__ setup.

(** A coordinator whose last full refresh was at time 0 and whose next clock
    reading is the one numbered [reads]. *)
Definition refreshed_at_zero (reads : nat) : Coordinator pv :=
  set_clock_reads (fun _ => reads) (set_data (set_last_full_refresh (Some 0%Z)) start).

(** The coordinator after two events. *)
Definition after_two_events : Coordinator pv :=
  exec (_process_event empty_event)
    (exec (_process_event (temperature_event "dev-1" 46)) start).

End Sample.

(** * Properties *)

Section Properties.
Context {V : Type} {value_ops : PyValue V} {host : Runtime}.

(** ** Ordered dictionaries *)

Lemma dict_get_set_eq {A} (k : string) (v : A) d : dict_get k (dict_set k v d) = Some v.
Proof.
  induction d as [|[k' v'] d IH]; simpl.
  - by rewrite decide_True.
  - destruct (decide (k = k')) as [->|Hne]; simpl.
    + by rewrite decide_True.
    + by rewrite decide_False.
Qed.

Lemma dict_get_set_ne {A} (k k' : string) (v : A) d :
  k ≠ k' -> dict_get k (dict_set k' v d) = dict_get k d.
Proof.
  intros Hne. induction d as [|[k0 v0] d IH]; simpl.
  - by rewrite decide_False.
  - destruct (decide (k' = k0)) as [->|Hne']; simpl.
    + by rewrite !decide_False.
    + destruct (decide (k = k0)); [done|apply IH].
Qed.

(** ** The reflection sweep *)

Lemma extract_loop_spec (attrs : PyObject V) (acc : list (string * ser V)) :
  exists r, extract_loop attrs acc = Returns r /\
    (forall k, k ∉ attrs.*1 -> dict_get k r = dict_get k acc) /\
    (forall k, startswith_underscore k = true -> dict_get k r = dict_get k acc) /\
    (NoDup attrs.*1 -> forall k g, (k, g) ∈ attrs ->
       startswith_underscore k = false ->
       dict_get k r = match recorded g with Some s => Some s | None => dict_get k acc end).
Proof.
  revert acc. induction attrs as [|[k0 g0] attrs IH]; intros acc.
  - exists acc. split; [done|]. split; [done|]. split; [done|].
    intros _ k g Hin. by apply elem_of_nil in Hin.
  - cbn [extract_loop].
    destruct (startswith_underscore k0) eqn:Hpriv.
    + destruct (IH acc) as (r & Hr & Hout & Hund & Hin). exists r.
      split; [done|]. split; [|split; [done|]].
      * intros k Hk. apply Hout. intros Hk'. apply Hk. rewrite fmap_cons. by right.
      * intros Hnd k g Hkg Hpub. rewrite fmap_cons in Hnd. apply NoDup_cons in Hnd as [_ Hnd].
        apply elem_of_cons in Hkg as [[= -> ->]|Hkg]; [congruence|]. by apply Hin.
    + set (acc' := match recorded g0 with Some s => dict_set k0 s acc | None => acc end).
      assert (Hstep : try_except
          (r ← read_attribute g0;
           match r with
           | None => mret acc
           | Some s => mret (dict_set k0 s acc)
           end)
          (fun e => mret (dict_set k0 (error_marker e) acc)) = Returns acc').
      { unfold acc', recorded. destruct (read_attribute g0) as [[s|]|e]; reflexivity. }
      rewrite Hstep. cbn [mbind outcome_bind].
      destruct (IH acc') as (r & Hr & Hout & Hund & Hin). exists r.
      split; [done|].
      assert (Hacc' : forall k, k ≠ k0 -> dict_get k acc' = dict_get k acc).
      { intros k Hk. unfold acc'. destruct (recorded g0); [|done]. by apply dict_get_set_ne. }
      split; [|split].
      * intros k Hk. rewrite fmap_cons in Hk. apply not_elem_of_cons in Hk as [Hk0 Hk].
        rewrite Hout by done. by apply Hacc'.
      * intros k Hk. rewrite Hund by done. apply Hacc'. congruence.
      * intros Hnd k g Hkg Hpub. rewrite fmap_cons in Hnd. apply NoDup_cons in Hnd as [Hfresh Hnd].
        apply elem_of_cons in Hkg as [[= -> ->]|Hkg].
        -- rewrite Hout by done. unfold acc'.
           destruct (recorded g0); [apply dict_get_set_eq|done].
        -- rewrite (Hin Hnd k g Hkg Hpub).
           assert (k ≠ k0).
           { intros ->. apply Hfresh. apply list_elem_of_fmap. by exists (k0, g). }
           destruct (recorded g); [done|]. by apply Hacc'.
Qed.

Lemma extract_all_attributes_returns (obj : PyObject V) :
  _extract_all_attributes obj = Returns (reflected obj).
Proof.
  unfold reflected, _extract_all_attributes.
  destruct (extract_loop_spec obj []) as (r & -> & _). done.
Qed.

(** ** Running the coordinator monad *)

Lemma run_bind {A B} (m : M V A) (f : A -> M V B) c :
  (m ≫= f) c =
  match m c with
  | (Returns a, c') => f a c'
  | (Raises e, c') => (Raises e, c')
  end.
Proof. reflexivity. Qed.

Lemma run_bind_returns {A B} (m : M V A) (f : A -> M V B) c a c' :
  m c = (Returns a, c') -> (m ≫= f) c = f a c'.
Proof. intros Hm. by rewrite run_bind, Hm. Qed.

Lemma for_each_app {A} (l1 l2 : list A) (body : A -> M V unit) c c1 :
  for_each l1 body c = (Returns tt, c1) ->
  for_each (l1 ++ l2) body c = for_each l2 body c1.
Proof.
  revert c. induction l1 as [|x l1 IH]; intros c; simpl.
  - by intros [= ->].
  - rewrite !run_bind. destruct (body x c) as [[[]|e] c'].
    + apply IH.
    + done.
Qed.

(** ** Relations that computations preserve *)

#[local] Instance on_preorder {A} (R : relation A) (f : Coordinator V -> A) :
  PreOrder R -> PreOrder (on R f).
Proof.
  intros HR. split.
  - intros c. unfold on. reflexivity.
  - intros c1 c2 c3. unfold on. intros H12 H23. by transitivity (f c2).
Qed.

Section Preserves.
Context (R : relation (Coordinator V)) `{!PreOrder R}.

Lemma preserves_ret {A} (a : A) : preserves R (mret a).
Proof. intros c. reflexivity. Qed.

Lemma preserves_bind {A B} (m : M V A) (f : A -> M V B) :
  preserves R m -> (forall a, preserves R (f a)) -> preserves R (m ≫= f).
Proof.
  intros Hm Hf c. unfold exec. rewrite run_bind.
  specialize (Hm c). unfold exec in Hm.
  destruct (m c) as [[a|e] c']; simpl in *; [|done].
  transitivity c'; [done|apply Hf].
Qed.

Lemma preserves_lift {A} (o : outcome A) : preserves R (lift o).
Proof. intros c. reflexivity. Qed.

Lemma preserves_raise {A} (e : exn) : preserves R (raise (A:=A) e).
Proof. intros c. reflexivity. Qed.

Lemma preserves_read {A} (f : Coordinator V -> A) : preserves R (read f).
Proof. intros c. reflexivity. Qed.

Lemma preserves_device_at url : preserves R (device_at url).
Proof. intros c. unfold exec, device_at. destruct (_ !! _); reflexivity. Qed.

Lemma preserves_device_known url : preserves R (device_known url).
Proof. apply preserves_read. Qed.

Lemma preserves_update (f : Coordinator V -> Coordinator V) :
  (forall c, R c (f c)) -> preserves R (update f).
Proof. intros Hf c. apply Hf. Qed.

Lemma preserves_for_each {A} (l : list A) (body : A -> M V unit) :
  (forall x, x ∈ l -> preserves R (body x)) -> preserves R (for_each l body).
Proof.
  induction l as [|x l IH]; intros Hbody; simpl.
  - apply preserves_ret.
  - apply preserves_bind.
    + apply Hbody. by left.
    + intros _. apply IH. intros y Hy. apply Hbody. by right.
Qed.

Lemma preserves_try_catch {A} (body : M V A) (handler : exn -> M V A) :
  preserves R body -> (forall e, preserves R (handler e)) ->
  preserves R (try_catch body handler).
Proof.
  intros Hb Hh c. unfold exec, try_catch.
  specialize (Hb c). unfold exec in Hb.
  destruct (body c) as [[a|e] c']; simpl in *; [done|].
  transitivity c'; [done|apply Hh].
Qed.

End Preserves.

Create HintDb frame discriminated.

Lemma preserves_now (R : relation (Coordinator V)) :
  (forall c, R c (set_clock_reads S c)) -> preserves R now.
Proof. intros HR c. apply HR. Qed.

(** Decomposes a computation along its structure; what remains are the state
    updates, to be checked against the relation. *)
Ltac frame_step :=
  first [ solve [auto 1 with frame nocore] | lazymatch goal with
  | |- preserves _ (mret _) => apply preserves_ret; typeclasses eauto
  | |- preserves _ (lift _) => apply preserves_lift; typeclasses eauto
  | |- preserves _ (raise _) => apply preserves_raise; typeclasses eauto
  | |- preserves _ (read _) => apply preserves_read; typeclasses eauto
  | |- preserves _ (device_at _) => apply preserves_device_at; typeclasses eauto
  | |- preserves _ (device_known _) =>
      apply preserves_device_known; typeclasses eauto
  | |- preserves _ (mbind _ _) =>
      apply preserves_bind; [typeclasses eauto| |intros ?]
  | |- preserves _ (for_each _ _) =>
      apply preserves_for_each; [typeclasses eauto|intros ? ?]
  | |- preserves _ (try_catch _ _) =>
      apply preserves_try_catch; [typeclasses eauto| |intros ?]
  | |- preserves _ (update _) => apply preserves_update; intros ?
  | |- preserves _ (log _) => apply preserves_update; intros ?
  | |- preserves _ now => apply preserves_now; intros ?
  | |- preserves _ (if ?b then _ else _) => destruct b
  | |- preserves _ (match ?x with _ => _ end) => destruct x
  | |- preserves _ (apply_device_state _) => unfold apply_device_state
  | |- preserves _ (store_state _ _) => unfold store_state
  | |- preserves _ (_handle_state_change _) => unfold _handle_state_change
  | |- preserves _ (_handle_availability_change _ _) =>
      unfold _handle_availability_change
  | |- preserves _ (handle_specific _) => unfold handle_specific
  | |- preserves _ (_process_device _) => unfold _process_device
  | |- preserves _ (_process_setup _) => unfold _process_setup
  | |- preserves _ full_refresh_due => unfold full_refresh_due
  | |- preserves _ (_async_update_data _ _) => unfold _async_update_data
  end ].

Ltac frame := repeat frame_step.

Lemma mutate_device_frame url (f : DeviceData V -> DeviceData V) :
  preserves (on eq untouched_by_handlers) (mutate_device url f).
Proof. unfold mutate_device. frame. reflexivity. Qed.
#[local] Hint Resolve mutate_device_frame : frame.

Lemma handle_specific_frame (event : Event V) :
  preserves (on eq untouched_by_handlers) (handle_specific event).
Proof.
  frame; reflexivity.
Qed.
#[local] Hint Resolve handle_specific_frame : frame.

(** ** The event log *)

Lemma slice_last_short {A} n (l : list A) : length l <= n -> slice_last n l = l.
Proof. intros Hl. unfold slice_last. by replace (length l - n) with 0 by lia. Qed.

Lemma slice_last_length {A} n (l : list A) :
  length (slice_last n l) = length l `min` n.
Proof. unfold slice_last. rewrite length_drop. lia. Qed.

Lemma slice_last_app {A} n (l1 l2 : list A) :
  slice_last n (slice_last n l1 ++ l2) = slice_last n (l1 ++ l2).
Proof.
  unfold slice_last. rewrite !length_app, length_drop.
  set (k := length l1 - n).
  replace (length l1 + length l2 - n)
    with (k + (length l1 - k + length l2 - n)) by lia.
  rewrite <- drop_drop. by rewrite (drop_app_le l1) by lia.
Qed.

Lemma slice_last_app_long {A} n (l1 l2 : list A) :
  n <= length l2 -> slice_last n (l1 ++ l2) = slice_last n l2.
Proof.
  intros Hn. unfold slice_last. rewrite length_app.
  rewrite drop_app_ge by lia. f_equal. lia.
Qed.

Lemma process_event_run (event : Event V) c :
  let entry := log_entry_for event c in
  let c1 :=
    set_journal (fun j => j ++ [EventLine (S (_event_count c)) (ev_name event)])
      (set_data (set_events_log (fun l => slice_last 1000 (l ++ [entry])))
         (set_clock_reads S (set_event_count S c))) in
  _process_event event c =
  match json_dumps entry with
  | Returns _ =>
      handle_specific event (set_journal (fun j => j ++ [EventDetails entry]) c1)
  | Raises e => (Raises e, c1)
  end.
Proof.
  intros entry c1. unfold _process_event.
  rewrite run_bind. cbn [update].
  rewrite run_bind. cbn [now].
  rewrite run_bind. cbn [read].
  rewrite run_bind. unfold lift at 1.
  rewrite extract_all_attributes_returns.
  change {| timestamp := wall_clock (clock_reads (set_event_count S c));
            event_number := _event_count (set_clock_reads S (set_event_count S c));
            name := event_name_str (ev_name event);
            event_raw := reflected (ev_reflect event) |} with entry.
  rewrite run_bind. cbn [update].
  rewrite run_bind. cbn [read].
  rewrite run_bind.
  set (c0 := set_data (set_events_log (fun l => l ++ [entry]))
               (set_clock_reads S (set_event_count S c))).
  assert (Hcap :
    (if 1000 <? length (events_log (_data c0))
     then update (set_data (set_events_log (slice_last 1000)))
     else mret tt) c0
    = (Returns tt,
       set_data (set_events_log (fun l => slice_last 1000 (l ++ [entry])))
         (set_clock_reads S (set_event_count S c)))).
  { destruct (1000 <? length (events_log (_data c0))) eqn:Hlen.
    - reflexivity.
    - apply Nat.ltb_ge in Hlen. cbn in Hlen |- *.
      unfold set_data at 1, set_events_log at 1. cbn.
      by rewrite slice_last_short. }
  rewrite Hcap.
  rewrite run_bind. cbn [read].
  rewrite run_bind. unfold log at 1. cbn [update].
  rewrite run_bind. unfold lift at 1.
  fold c1. destruct (json_dumps entry) as [[]|e]; [|done].
  rewrite run_bind. unfold log at 1. cbn [update]. done.
Qed.

Lemma process_event_untouched (event : Event V) c :
  let c' := exec (_process_event event) c in
  events_log (_data c') = slice_last 1000 (events_log (_data c) ++ [log_entry_for event c]) /\
  _event_count c' = S (_event_count c) /\
  gateways (_data c') = gateways (_data c) /\
  last_full_refresh (_data c') = last_full_refresh (_data c) /\
  raw_api_responses (_data c') = raw_api_responses (_data c).
Proof.
  intros c'. subst c'. unfold exec. rewrite process_event_run.
  destruct (json_dumps _) as [[]|e]; [|done].
  match goal with |- context [handle_specific event ?c0] =>
    pose proof (handle_specific_frame event c0) as Hf end.
  unfold on, untouched_by_handlers, exec in Hf. cbn in Hf.
  injection Hf as <- <- <- <- <-. done.
Qed.

Lemma process_events_snoc (events : list (Event V)) event c :
  process_events (events ++ [event]) c =
  exec (_process_event event) (process_events events c).
Proof. unfold process_events. by rewrite foldl_app. Qed.

Lemma log_entries_length (events : list (Event V)) c :
  length (log_entries events c) = length events.
Proof. revert c. induction events as [|e events IH]; intros c; simpl; [done|]. by rewrite IH. Qed.

Lemma log_entries_snoc (events : list (Event V)) event c :
  log_entries (events ++ [event]) c =
  log_entries events c ++ [log_entry_for event (process_events events c)].
Proof.
  revert c. induction events as [|e events IH]; intros c; simpl; [done|].
  by rewrite IH.
Qed.

Lemma process_events_count (events : list (Event V)) c :
  _event_count (process_events events c) = _event_count c + length events.
Proof.
  induction events as [|e events IH] using rev_ind; simpl; [lia|].
  rewrite process_events_snoc, length_app. simpl.
  destruct (process_event_untouched e (process_events events c)) as (_ & -> & _).
  lia.
Qed.

Lemma process_events_log (events : list (Event V)) c :
  length (events_log (_data c)) <= 1000 ->
  events_log (_data (process_events events c)) =
  slice_last 1000 (events_log (_data c) ++ log_entries events c).
Proof.
  intros Hc. induction events as [|e events IH] using rev_ind.
  - simpl. rewrite app_nil_r. by rewrite slice_last_short.
  - rewrite process_events_snoc, log_entries_snoc.
    destruct (process_event_untouched e (process_events events c)) as (-> & _).
    rewrite IH, slice_last_app. by rewrite app_assoc.
Qed.

Lemma log_entries_lookup (events : list (Event V)) c i event :
  events !! i = Some event ->
  exists entry, log_entries events c !! i = Some entry /\
    name entry = event_name_str (ev_name event) /\
    event_raw entry = reflected (ev_reflect event) /\
    event_number entry = _event_count c + S i.
Proof.
  revert c i. induction events as [|e events IH]; intros c i Hi; [done|].
  destruct i as [|i]; simpl in *.
  - injection Hi as ->. eexists. split; [done|]. cbn. repeat split; lia.
  - destruct (IH (exec (_process_event e) c) i Hi) as (entry & He & Hn & Hr & Hnum).
    exists entry. repeat split; try done.
    destruct (process_event_untouched e c) as (_ & Hcount & _).
    rewrite Hnum, Hcount. lia.
Qed.

(** *** What setup normalisation and a refresh cycle do to the log *)

Lemma process_setup_log_and_count (setup : Setup V) :
  preserves (on eq log_and_count) (_process_setup setup).
Proof. frame; reflexivity. Qed.

#[local] Instance invariant_preorder (P : Coordinator V -> Prop) :
  PreOrder (invariant P).
Proof. split; unfold invariant; [by intros c|]. intros c1 c2 c3. tauto. Qed.

Lemma async_update_log_invariant (Q : list (LogEntry V) -> nat -> Prop)
    (fetch_events : outcome (list (Event V))) (get_setup : outcome (Setup V)) :
  (forall event c, Q (events_log (_data c)) (_event_count c) ->
     Q (slice_last 1000 (events_log (_data c) ++ [log_entry_for event c]))
       (S (_event_count c))) ->
  preserves (invariant (fun c => Q (events_log (_data c)) (_event_count c)))
    (_async_update_data fetch_events get_setup).
Proof.
  intros HQ. frame; try (intros HP; exact HP).
  intros c HP.
  destruct (process_event_untouched x c) as (-> & -> & _). by apply HQ.
Qed.

Lemma reachable_log_invariant (Q : list (LogEntry V) -> nat -> Prop) :
  Q [] 0 ->
  (forall event c, Q (events_log (_data c)) (_event_count c) ->
     Q (slice_last 1000 (events_log (_data c) ++ [log_entry_for event c]))
       (S (_event_count c))) ->
  forall c, reachable c -> Q (events_log (_data c)) (_event_count c).
Proof.
  intros H0' HQ c Hc. induction Hc as [setup|c f g Hc IH|c event Hc IH|c setup Hc IH].
  - pose proof (process_setup_log_and_count setup blank) as Hf.
    unfold on, log_and_count in Hf. unfold __init__.
    injection Hf as <- <-. done.
  - by apply (async_update_log_invariant Q f g HQ c).
  - destruct (process_event_untouched event c) as (-> & -> & _). by apply HQ.
  - pose proof (process_setup_log_and_count setup c) as Hf.
    unfold on, log_and_count in Hf. injection Hf as <- <-. done.
Qed.

Lemma reachable_log_bounded (c : Coordinator V) :
  reachable c -> length (events_log (_data c)) <= 1000.
Proof.
  intros Hc.
  apply (reachable_log_invariant (fun l _ => length l <= 1000)); [simpl; lia| |done].
  intros event c0 _. rewrite slice_last_length. lia.
Qed.

Lemma reachable_log_ordered (c : Coordinator V) : reachable c -> log_ordered c.
Proof.
  intros Hc. unfold log_ordered.
  apply (reachable_log_invariant (fun l n =>
    StronglySorted lt (event_number <$> l) /\ Forall (fun e => event_number e <= n) l));
    [split; constructor| |done].
  intros event c0 [Hs Hle]. unfold slice_last. split.
  - rewrite fmap_drop, fmap_app. simpl.
    match goal with |- StronglySorted _ (drop ?k ?l) =>
      apply (StronglySorted_app_1_r _ (take k l)); rewrite take_drop end.
    apply StronglySorted_app. split; [|split; [done|repeat constructor]].
    intros x1 x2 Hx1 Hx2. apply list_elem_of_singleton in Hx2 as ->.
    apply list_elem_of_fmap in Hx1 as (e & -> & He).
    rewrite Forall_forall in Hle. specialize (Hle e He). lia.
  - apply Forall_drop, Forall_app. split.
    + eapply Forall_impl; [exact Hle|]. simpl. intros; lia.
    + repeat constructor.
Qed.

Lemma async_update_count_grows
    (fetch_events : outcome (list (Event V))) (get_setup : outcome (Setup V)) :
  preserves (on le _event_count) (_async_update_data fetch_events get_setup).
Proof.
  frame; try (unfold on; simpl; lia).
  intros c. unfold on.
  destruct (process_event_untouched x c) as (_ & -> & _). lia.
Qed.

(** C1. For every sequence of events passed one at a time to
    [_process_event]: each call appends exactly one entry, the entry of its
    event, and keeps the last 1000 entries, and the entries appended are
    those of the events, in their order. In every state of the coordinator
    the log holds at most 1000 entries, before and after the sequence, and
    once more than 1000 events have been processed it is exactly the entries
    of the most recent 1000 events, in the order of the events. *)
Theorem events_log_keeps_last_1000 (c : Coordinator V) (events : list (Event V)) :
  let c' := process_events events c in
  (forall event,
     events_log (_data (exec (_process_event event) c)) =
     slice_last 1000 (events_log (_data c) ++ [log_entry_for event c])) /\
  length (log_entries events c) = length events /\
  (forall i event, events !! i = Some event ->
     exists entry, log_entries events c !! i = Some entry /\
       name entry = event_name_str (ev_name event) /\
       event_raw entry = reflected (ev_reflect event) /\
       event_number entry = _event_count c + S i) /\
  (reachable c ->
   length (events_log (_data c)) <= 1000 /\
   events_log (_data c') =
     slice_last 1000 (events_log (_data c) ++ log_entries events c) /\
   length (events_log (_data c')) <= 1000 /\
   (1000 < length events ->
      events_log (_data c') = slice_last 1000 (log_entries events c) /\
      length (events_log (_data c')) = 1000)).
Proof.
  intros c'.
  split; [intros event; apply process_event_untouched|].
  split; [apply log_entries_length|].
  split; [intros i event; apply log_entries_lookup|].
  intros Hc. pose proof (reachable_log_bounded c Hc) as Hlen.
  assert (Hlog := process_events_log events c Hlen). fold c' in Hlog.
  split; [done|]. split; [done|].
  split.
  - rewrite Hlog, slice_last_length. lia.
  - intros Hmany. rewrite Hlog.
    rewrite slice_last_app_long by (rewrite log_entries_length; lia).
    split; [done|]. rewrite slice_last_length, log_entries_length. lia.
Qed.

(** C10. Each call of [_process_event] adds exactly one to the event counter,
    and neither setup normalisation nor a refresh cycle ever lowers it, so
    after any sequence of events it has grown by their number; in every state
    of the coordinator the entry a new event appends carries a number above
    every number in the log, and the log is in strictly increasing event
    number, bounded by the counter, whatever the cap has evicted. *)
Theorem event_counter_orders_log (c : Coordinator V) :
  (forall event, _event_count (exec (_process_event event) c) = S (_event_count c)) /\
  (forall events,
     _event_count (process_events events c) = _event_count c + length events) /\
  (forall setup, _event_count (exec (_process_setup setup) c) = _event_count c) /\
  (forall fetch_events get_setup,
     _event_count c <= _event_count (exec (_async_update_data fetch_events get_setup) c)) /\
  (reachable c ->
   (forall event,
      Forall (fun e => event_number e < event_number (log_entry_for event c))
        (events_log (_data c))) /\
   StronglySorted lt (event_number <$> events_log (_data c)) /\
   Forall (fun e => event_number e <= _event_count c) (events_log (_data c))).
Proof.
  split; [intros event; apply process_event_untouched|].
  split; [intros events; apply process_events_count|].
  split.
  { intros setup. pose proof (process_setup_log_and_count setup c) as Hf.
    unfold on, log_and_count in Hf. by injection Hf as _ <-. }
  split; [intros f g; apply (async_update_count_grows f g c)|].
  intros Hc. destruct (reachable_log_ordered c Hc) as [Hs Hle].
  split; [|done].
  intros event. eapply Forall_impl; [exact Hle|]. simpl. intros; lia.
Qed.

(** ** Setup normalisation returns *)

Lemma process_device_run (device : Device V) :
  exists d, device_url d = dev_device_url device /\
    forall c, _process_device device c =
      (Returns (set_last_updated (wall_clock (clock_reads c)) d),
       set_clock_reads S c).
Proof.
  eexists (Build_DeviceData _ _ _ _ _ _ _ _ _ _ _ _ _ 0%Z).
  split; [|intros c; unfold _process_device; rewrite run_bind; unfold lift;
           rewrite extract_all_attributes_returns; reflexivity].
  reflexivity.
Qed.

Lemma gateway_loop_run (gws : list (PyObject V)) c :
  for_each gws (fun gateway =>
    gateway_data ← lift (_extract_all_attributes gateway);
    update (set_data (set_gateways (fun g => g ++ [gateway_data])));;
    log (ProcessedGateway gateway_data)) c =
  (Returns tt,
   set_journal (fun j => j ++ (ProcessedGateway <$> (reflected <$> gws)))
     (set_data (set_gateways (fun g => g ++ (reflected <$> gws))) c)).
Proof.
  revert c. induction gws as [|gw gws IH]; intros c.
  - destruct c as [[dv g l r lf] n k j]. cbn.
    unfold set_journal, set_data, set_gateways. cbn. by rewrite !app_nil_r.
  - cbn [for_each]. rewrite run_bind, run_bind. unfold lift at 1.
    rewrite extract_all_attributes_returns. rewrite run_bind. cbn [update].
    unfold log at 1. cbn [update]. rewrite IH.
    destruct c as [[dv g l r lf] n k j].
    unfold set_journal, set_data, set_gateways. cbn.
    by rewrite <- !app_assoc.
Qed.

(** ** Devices whose attributes can fail to read *)









(** ** State-change events *)

Lemma device_at_run url c (d : DeviceData V) :
  devices (_data c) !! url = Some d -> device_at url c = (Returns d, c).
Proof. intros Hd. unfold device_at. by rewrite Hd. Qed.

Lemma mutate_device_run url (f : DeviceData V -> DeviceData V) c d :
  devices (_data c) !! url = Some d ->
  mutate_device url f c = (Returns tt, set_data (set_devices <[url := f d]>) c).
Proof.
  intros Hd. unfold mutate_device.
  by rewrite (run_bind_returns _ _ _ _ _ (device_at_run url c d Hd)).
Qed.

Lemma last_named_cons n (st : State V) (writes : list (State V)) :
  last_named n (st :: writes) =
  match last_named n writes with
  | Some st' => Some st'
  | None => if decide (st_name st = n) then Some st else None
  end.
Proof.
  unfold last_named. rewrite filter_cons.
  destruct (decide (st_name st = n)); [|by destruct (last _)].
  rewrite last_cons. by destruct (last _).
Qed.

Lemma overwrite_lookup (stored : gmap string (StateEntry V)) writes n :
  overwrite stored writes !! n =
  match last_named n writes with
  | Some st => Some (state_entry st)
  | None => stored !! n
  end.
Proof.
  revert stored. induction writes as [|st writes IH]; intros stored; [done|].
  unfold overwrite in *. cbn [foldl]. rewrite IH, last_named_cons.
  destruct (last_named n writes); [done|].
  destruct (decide (st_name st = n)) as [<-|Hne].
  - apply lookup_insert_eq.
  - by apply lookup_insert_ne.
Qed.

(** ** Availability events *)

Lemma handle_availability_run (event : Event V) available c :
  _handle_availability_change event available c =
  match ev_device_url event with
  | Some url =>
      match devices (_data c) !! url with
      | Some d =>
          if String.eqb url "" then (Returns tt, c)
          else (Returns tt,
                set_journal (fun j => j ++ [AvailabilityLine (label d) available])
                  (set_data (set_devices <[url := set_available available d]>) c))
      | None => (Returns tt, c)
      end
  | None => (Returns tt, c)
  end.
Proof.
  unfold _handle_availability_change.
  destruct (ev_device_url event) as [url|]; [|done].
  rewrite run_bind. unfold device_known. cbn [read].
  destruct (devices (_data c) !! url) as [d|] eqn:Hd.
  - rewrite bool_decide_eq_true_2 by eauto.
    destruct (String.eqb url ""); [done|]. cbn [negb andb].
    rewrite (run_bind_returns _ _ _ _ _ (mutate_device_run url _ c d Hd)).
    erewrite run_bind_returns; [|apply device_at_run; apply lookup_insert_eq].
    reflexivity.
  - rewrite bool_decide_eq_false_2 by (by intros [? ?]).
    by rewrite andb_false_r.
Qed.

(** ** What an event does to the device mapping *)

#[local] Instance evolved_preorder : PreOrder (evolved (V := V)).
Proof.
  split.
  - intros d. exists (available d), [], (last_updated d). by destruct d.
  - intros d1 d2 d3 (b1 & w1 & t1 & ->) (b2 & w2 & t2 & ->).
    exists b2, (w1 ++ w2), t2.
    unfold set_available, set_last_updated, set_states, overwrite. cbn.
    by rewrite foldl_app.
Qed.

#[local] Instance all_evolved_preorder : PreOrder (all_evolved (V := V)).
Proof.
  split.
  - intros m url. destruct (m !! url); constructor. reflexivity.
  - intros m1 m2 m3 H12 H23 url. specialize (H12 url). specialize (H23 url).
    destruct H12 as [d1 d2 H12|]; inversion H23; subst; constructor.
    by transitivity d2.
Qed.

Lemma mutate_device_evolves url (f : DeviceData V -> DeviceData V) :
  (forall d, evolved d (f d)) ->
  preserves (on all_evolved (fun c => devices (_data c))) (mutate_device url f).
Proof.
  intros Hf c. unfold on, exec, mutate_device. rewrite run_bind. unfold device_at.
  destruct (devices (_data c) !! url) as [d|] eqn:Hd; [|reflexivity].
  cbn. intros url'. destruct (decide (url = url')) as [<-|Hne].
  - rewrite lookup_insert_eq, Hd. constructor. apply Hf.
  - rewrite lookup_insert_ne by done. reflexivity.
Qed.

Lemma set_states_evolves (st : State V) (d : DeviceData V) :
  evolved d (set_states <[st_name st := state_entry st]> d).
Proof. exists (available d), [st], (last_updated d). by destruct d. Qed.

Lemma set_last_updated_evolves t (d : DeviceData V) : evolved d (set_last_updated t d).
Proof. exists (available d), [], t. by destruct d. Qed.

Lemma set_available_evolves b (d : DeviceData V) : evolved d (set_available b d).
Proof. exists b, [], (last_updated d). by destruct d. Qed.

Lemma handle_specific_evolves (event : Event V) :
  preserves (on all_evolved (fun c => devices (_data c))) (handle_specific event).
Proof.
  frame;
    first [ apply mutate_device_evolves; intros ?;
            first [apply set_states_evolves | apply set_last_updated_evolves
                  | apply set_available_evolves]
          | unfold on; cbn; reflexivity ].
Qed.

Lemma handle_state_change_keeps_available (event : Event V) :
  preserves (on eq (fun c => available <$> devices (_data c)))
    (_handle_state_change event).
Proof.
  assert (Hmutate : forall u (f : DeviceData V -> DeviceData V),
             (forall d, available (f d) = available d) ->
             preserves (on eq (fun c => available <$> devices (_data c)))
               (mutate_device u f)).
  { intros u f Hf c. unfold on, exec, mutate_device. rewrite run_bind.
    unfold device_at. destruct (devices (_data c) !! u) as [d|] eqn:Hd; [|done].
    cbn. rewrite fmap_insert. symmetry. apply insert_id.
    by rewrite lookup_fmap, Hd, Hf. }
  frame; first [apply Hmutate; by intros [] | unfold on; cbn; reflexivity].
Qed.

Lemma process_event_evolves (event : Event V) :
  preserves (on all_evolved (fun c => devices (_data c))) (_process_event event).
Proof.
  intros c. unfold exec. rewrite process_event_run.
  destruct (json_dumps _) as [[]|e]; [|unfold on; cbn; reflexivity].
  match goal with |- context [handle_specific event ?c0] =>
    apply (handle_specific_evolves event c0) end.
Qed.

Lemma process_event_effect (event : Event V) c url :
  match devices (_data c) !! url with
  | None => devices (_data (exec (_process_event event) c)) !! url = None
  | Some d => exists b writes t,
      devices (_data (exec (_process_event event) c)) !! url =
      Some (set_available b (set_last_updated t
              (set_states (fun m => overwrite m writes) d)))
  end.
Proof.
  pose proof (process_event_evolves event c url) as Hev.
  destruct Hev as [d d' (b & writes & t & ->)|]; [|done]. by exists b, writes, t.
Qed.

Lemma process_event_devices (event : Event V) c :
  forall url,
    match devices (_data c) !! url with
    | None => devices (_data (exec (_process_event event) c)) !! url = None
    | Some d => exists d',
        devices (_data (exec (_process_event event) c)) !! url = Some d' /\
        device_url d' = device_url d
    end.
Proof.
  intros url. pose proof (process_event_effect event c url) as Hev.
  destruct (devices (_data c) !! url) as [d|]; [|done].
  destruct Hev as (b & writes & t & ->). eexists. split; [done|]. by destruct d.
Qed.

(** ** State-changed events as the vendor library delivers them *)

Lemma handle_state_change_raises (event : Event V) c e :
  first_element_raises event e -> _handle_state_change event c = (Raises e, c).
Proof.
  intros (device_state & rest & Hpayload & Hurl).
  unfold _handle_state_change. rewrite Hpayload. cbn [for_each].
  rewrite run_bind. unfold apply_device_state. by rewrite run_bind, Hurl.
Qed.

Lemma event_state_payload (event : Event V) (state : State V) rest :
  ev_device_states event = Some (EventState state :: rest) ->
  first_element_raises event (AttributeError "EventState" "device_url").
Proof. intros Hpayload. by exists (EventState state), rest. Qed.

(** The state [_process_event] leaves when the dump of the log entry
    raises. *)
Lemma process_state_change_run (event : Event V) c e :
  ev_name event = DEVICE_STATE_CHANGED ->
  first_element_raises event e ->
  let entry := log_entry_for event c in
  let c1 :=
    set_journal (fun j => j ++ [EventLine (S (_event_count c)) (ev_name event)])
      (set_data (set_events_log (fun l => slice_last 1000 (l ++ [entry])))
         (set_clock_reads S (set_event_count S c))) in
  _process_event event c =
  match json_dumps entry with
  | Returns _ => (Raises e, set_journal (fun j => j ++ [EventDetails entry]) c1)
  | Raises e' => (Raises e', c1)
  end.
Proof.
  intros Hname Hraises entry c1. rewrite process_event_run. fold entry c1.
  destruct (json_dumps entry) as [[]|e']; [|done].
  unfold handle_specific. rewrite Hname. by apply handle_state_change_raises.
Qed.

(** ** When the log entry of an event can be dumped *)

Lemma mapM_returns {A B} (f : A -> outcome B) (l : list A) :
  (exists l', mapM f l = Returns l') <-> Forall (fun x => exists y, f x = Returns y) l.
Proof.
  induction l as [|x l IH]; cbn.
  - split; [constructor|by eexists].
  - split.
    + intros [l' Hl']. destruct (f x) as [y|e] eqn:Hx; [|done]. cbn in Hl'.
      destruct (mapM f l) as [k|e] eqn:Hl; [|done].
      constructor; [by eexists|]. apply IH. by eexists.
    + intros Hall. apply Forall_cons in Hall as [[y Hy] Hall].
      apply IH in Hall as [k Hk]. rewrite Hy. cbn. rewrite Hk. by eexists.
Qed.

Lemma check_keys_returns (entries : list (dkey V * V)) :
  check_keys entries = Returns tt <->
  Forall (fun e : dkey V * V =>
            match e.1 with KPlain _ => True | KOther _ => False end) entries.
Proof.
  unfold check_keys.
  match goal with |- context [mapM ?f entries] =>
    pose proof (mapM_returns f entries) as Hm; destruct (mapM f entries) as [k|e] end.
  - split; [intros _|done]. destruct Hm as [Hm _].
    eapply Forall_impl; [apply Hm; by eexists|].
    intros [[v|cls] w] [y Hy]; cbn in *; done.
  - split; [done|]. intros Hall. destruct Hm as [_ Hm].
    destruct Hm as [k Hk]; [|done].
    eapply Forall_impl; [exact Hall|].
    intros [[v|cls] w] Hkey; cbn in *; [by eexists|done].
Qed.

Lemma json_dumps_returns (entry : LogEntry V) :
  json_dumps entry = Returns tt <-> dumpable (event_raw entry).
Proof.
  unfold json_dumps, dumpable.
  match goal with |- context [mapM ?f (event_raw entry)] =>
    pose proof (mapM_returns f (event_raw entry)) as Hm;
    destruct (mapM f (event_raw entry)) as [k|e] end.
  - split; [intros _|done]. destruct Hm as [Hm _].
    eapply Forall_impl; [apply Hm; by eexists|].
    intros [n [v|l|entries]] [[] Hy]; cbn in *; try done.
    by apply check_keys_returns.
  - split; [done|]. intros Hall. destruct Hm as [_ Hm].
    destruct Hm as [k Hk]; [|done].
    eapply Forall_impl; [exact Hall|].
    intros [n [v|l|entries]] Hkey; cbn in *; try by eexists.
    exists tt. by apply check_keys_returns.
Qed.

(** ** State-changed events: the claims *)

(** C2. When reading [device_url] of the first element of the payload
    raises, handling a state-changed event raises the same, before any
    identifier is looked up and whatever the device mapping holds, and
    leaves the coordinator as it was; so it is for every payload that begins
    with one of the vendor's [EventState] objects, with [AttributeError].
    [_process_event] then raises on the event, also when its device is
    unknown, and the device mapping is left unchanged. An availability event
    with an unknown identifier is handled without raising and changes
    nothing, and no event adds or removes an identifier. *)
Theorem state_change_raises_for_unknown_device (event : Event V) (c : Coordinator V) :
  (forall e, first_element_raises event e ->
     _handle_state_change event c = (Raises e, c) /\
     (ev_name event = DEVICE_STATE_CHANGED ->
      (exists e', result (_process_event event) c = Raises e') /\
      (dumpable (reflected (ev_reflect event)) ->
       result (_process_event event) c = Raises e) /\
      devices (_data (exec (_process_event event) c)) = devices (_data c))) /\
  (forall state rest,
     ev_device_states event = Some (EventState state :: rest) ->
     first_element_raises event (AttributeError "EventState" "device_url")) /\
  (forall url available,
     ev_device_url event = Some url -> devices (_data c) !! url = None ->
     _handle_availability_change event available c = (Returns tt, c)) /\
  dom (devices (_data (exec (_process_event event) c))) = dom (devices (_data c)).
Proof.
  split; [|split; [|split]].
  - intros e Hraises. split; [by apply handle_state_change_raises|].
    intros Hname. unfold result, exec.
    rewrite (process_state_change_run event c e Hname Hraises).
    destruct (json_dumps (log_entry_for event c)) as [[]|e'] eqn:Hjson.
    + split; [by eexists|]. split; [done|done].
    + split; [by eexists|]. split; [|done].
      intros Hdump. apply (json_dumps_returns (log_entry_for event c)) in Hdump.
      congruence.
  - intros state rest. apply event_state_payload.
  - intros url available Hurl Hd. by rewrite handle_availability_run, Hurl, Hd.
  - apply set_eq. intros url. rewrite !elem_of_dom.
    pose proof (process_event_devices event c url) as Hdev.
    destruct (devices (_data c) !! url) as [d|].
    + destruct Hdev as (d' & -> & _). split; eauto.
    + by rewrite Hdev.
Qed.

(** C7. Processing a state-changed event whose payload begins with an
    element that has no [device_url], as every payload of the vendor library
    that holds a state does, raises and stores nothing: the device mapping
    is left as it was, so no state entry is overwritten and no
    [last_updated] is set; the clock is read once, for the log entry; and
    nothing is logged but the event line and, when the entry can be dumped,
    its details, so no state-change line. *)
Theorem state_change_stores_nothing (event : Event V) (c : Coordinator V) (e : exn) :
  ev_name event = DEVICE_STATE_CHANGED ->
  first_element_raises event e ->
  let c' := exec (_process_event event) c in
  (exists e', result (_process_event event) c = Raises e') /\
  devices (_data c') = devices (_data c) /\
  clock_reads c' = S (clock_reads c) /\
  (exists details,
     journal c' =
       journal c ++ EventLine (S (_event_count c)) (ev_name event) :: details /\
     (details = [] \/ details = [EventDetails (log_entry_for event c)])) /\
  (forall url d, devices (_data c) !! url = Some d ->
     exists d', devices (_data c') !! url = Some d' /\
       states d' = states d /\ last_updated d' = last_updated d).
Proof.
  intros Hname Hraises c'. subst c'. unfold result, exec.
  rewrite (process_state_change_run event c e Hname Hraises).
  destruct (json_dumps (log_entry_for event c)) as [[]|e'].
  - cbn. split; [by eexists|]. split; [done|]. split; [done|]. split.
    + exists [EventDetails (log_entry_for event c)].
      split; [by rewrite <- app_assoc|by right].
    + intros url d Hd. by exists d.
  - cbn. split; [by eexists|]. split; [done|]. split; [done|]. split.
    + exists []. split; [done|by left].
    + intros url d Hd. by exists d.
Qed.

(** C3. Two state-changed events whose payloads begin with an element that
    has no [device_url], as every payload of the vendor library that holds a
    state does, both make the handler raise and leave the coordinator as it
    was: after both are processed the device mapping is the one before the
    first, so the stored value is not set to the second event's and
    [last_updated] is not set to the time of either. Delivered in one
    refresh cycle, the first makes the cycle fail and the second is not
    processed at all. *)
Theorem second_state_change_is_lost (e1 e2 : Event V) (c : Coordinator V)
    (x1 x2 : exn) :
  ev_name e1 = DEVICE_STATE_CHANGED ->
  ev_name e2 = DEVICE_STATE_CHANGED ->
  first_element_raises e1 x1 ->
  first_element_raises e2 x2 ->
  _handle_state_change e1 c = (Raises x1, c) /\
  _handle_state_change e2 c = (Raises x2, c) /\
  devices (_data (exec (_process_event e2) (exec (_process_event e1) c))) =
    devices (_data c) /\
  (forall get_setup, exists x,
     result (_process_event e1) c = Raises x /\
     _async_update_data (Returns [e1; e2]) get_setup c =
       (Raises (UpdateFailed ("Error communicating with API: " +:+ exn_str x) x),
        set_journal (fun j => j ++ [FetchErrorLine x]) (exec (_process_event e1) c))).
Proof.
  intros Hn1 Hn2 Hr1 Hr2.
  split; [by apply handle_state_change_raises|].
  split; [by apply handle_state_change_raises|].
  assert (Hkept : forall (event : Event V) (c0 : Coordinator V) x,
             ev_name event = DEVICE_STATE_CHANGED -> first_element_raises event x ->
             devices (_data (exec (_process_event event) c0)) = devices (_data c0)).
  { intros event c0 x Hn Hr. unfold exec.
    rewrite (process_state_change_run event c0 x Hn Hr).
    by destruct (json_dumps _) as [[]|e']. }
  split; [by rewrite (Hkept e2 _ x2), (Hkept e1 _ x1)|].
  intros get_setup.
  assert (Hfirst : exists x c1, _process_event e1 c = (Raises x, c1)).
  { rewrite (process_state_change_run e1 c x1 Hn1 Hr1).
    destruct (json_dumps _) as [[]|e']; by eexists _, _. }
  destruct Hfirst as (x & c1 & Hfirst). exists x.
  unfold result, exec. rewrite Hfirst. split; [done|].
  unfold _async_update_data, try_catch.
  rewrite run_bind. unfold lift at 1. cbn [for_each].
  by rewrite run_bind, run_bind, Hfirst.
Qed.

(** ** Setup normalisation: what it stores *)

Lemma process_device_result (device : Device V) c0 d :
  result (_process_device device) c0 = Returns d ->
  device_url d = dev_device_url device /\
  last_updated d = wall_clock (clock_reads c0) /\
  forall c, _process_device device c =
    (Returns (set_last_updated (wall_clock (clock_reads c)) d), set_clock_reads S c).
Proof.
  destruct (process_device_run device) as (d0 & Hurl & Hrun).
  unfold result. rewrite (Hrun c0). cbn. intros [= <-].
  split; [done|]. split; [done|]. intros c. rewrite (Hrun c). by destruct d0.
Qed.

Lemma process_device_same_but_time (device : Device V) ca cb da db :
  result (_process_device device) ca = Returns da ->
  result (_process_device device) cb = Returns db ->
  same_but_time da db.
Proof.
  intros Ha Hb. destruct (process_device_result device ca da Ha) as (_ & _ & Hrun).
  unfold result in Hb. rewrite (Hrun cb) in Hb. cbn in Hb. injection Hb as <-.
  unfold same_but_time. by destruct da.
Qed.

Lemma last_filter_cons {A} (P : A -> Prop) `{!forall x, Decision (P x)} x (l : list A) :
  last (filter P (x :: l)) =
  match last (filter P l) with
  | Some y => Some y
  | None => if decide (P x) then Some x else None
  end.
Proof.
  rewrite filter_cons. destruct (decide (P x)); [|by destruct (last _)].
  rewrite last_cons. by destruct (last _).
Qed.

Lemma device_loop_run (devs : list (Device V)) c :
  exists c', for_each devs (fun device =>
      device_data ← _process_device device;
      update (set_data (set_devices <[dev_device_url device := device_data]>))) c
    = (Returns tt, c') /\
    untouched_by_handlers c' = untouched_by_handlers c /\
    journal c' = journal c /\
    clock_reads c' = clock_reads c + length devs /\
    forall url,
      match last (filter (fun dev => dev_device_url dev = url) devs) with
      | None => devices (_data c') !! url = devices (_data c) !! url
      | Some dev => exists d' c0,
          devices (_data c') !! url = Some d' /\
          result (_process_device dev) c0 = Returns d' /\
          clock_reads c <= clock_reads c0 < clock_reads c'
      end.
Proof.
  revert c. induction devs as [|dev devs IH]; intros c.
  - exists c. cbn. repeat split; first [done|lia].
  - cbn [for_each]. rewrite run_bind, run_bind.
    destruct (process_device_run dev) as (d0 & Hurl & Hrun). rewrite (Hrun c).
    cbn [update].
    match goal with |- context [for_each devs _ ?c0] => set (c1 := c0) end.
    destruct (IH c1) as (c' & Hloop & Hun & Hj & Hclk & Hdev).
    exists c'. split; [done|]. split; [by rewrite Hun|]. split; [by rewrite Hj|].
    assert (Hc1 : clock_reads c1 = S (clock_reads c)) by done.
    split; [cbn; lia|].
    intros url. specialize (Hdev url). rewrite last_filter_cons.
    destruct (last (filter _ devs)) as [dev'|].
    + destruct Hdev as (d' & c0 & Hd' & Hres & Hr). exists d', c0.
      split; [done|]. split; [done|]. lia.
    + rewrite Hdev. unfold c1 at 1. cbn.
      destruct (decide (dev_device_url dev = url)) as [<-|Hne].
      * rewrite lookup_insert_eq. eexists _, c. split; [done|].
        split; [unfold result; by rewrite (Hrun c)|]. lia.
      * by rewrite lookup_insert_ne.
Qed.

Lemma process_setup_run (setup : Setup V) c :
  exists c', _process_setup setup c = (Returns tt, c') /\
    gateways (_data c') = gateways (_data c) ++ (reflected <$> setup_gateways setup) /\
    last_full_refresh (_data c') =
      Some (wall_clock (clock_reads c + length (setup_devices setup))) /\
    clock_reads c' = S (clock_reads c + length (setup_devices setup)) /\
    forall url,
      match last (filter (fun dev => dev_device_url dev = url) (setup_devices setup)) with
      | None => devices (_data c') !! url = devices (_data c) !! url
      | Some dev => exists d' c0,
          devices (_data c') !! url = Some d' /\
          result (_process_device dev) c0 = Returns d' /\
          clock_reads c <= clock_reads c0 < clock_reads c'
      end.
Proof.
  unfold _process_setup. rewrite run_bind, gateway_loop_run.
  match goal with |- exists _, _ ?c0 = _ /\ _ =>
    destruct (device_loop_run (setup_devices setup) c0)
      as (c2 & Hloop & Hun & Hj & Hclk & Hdev) end.
  rewrite run_bind, Hloop. rewrite run_bind. cbn [now update].
  eexists. split; [done|]. cbn.
  unfold untouched_by_handlers in Hun. cbn in Hun. cbn in Hclk.
  injection Hun as _ _ Hg _ _.
  split; [done|]. split; [by rewrite Hclk|]. split; [by rewrite Hclk|].
  intros url. specialize (Hdev url). cbn in Hdev.
  destruct (last _) as [dev|]; [|done].
  destruct Hdev as (d' & c0 & Hd' & Hres & Hr). exists d', c0.
  split; [done|]. split; [done|]. lia.
Qed.

Lemma last_filter_url (devs : list (Device V)) url dev :
  last (filter (fun dev => dev_device_url dev = url) devs) = Some dev ->
  dev ∈ devs /\ dev_device_url dev = url.
Proof.
  intros Hlast. apply last_Some_elem_of in Hlast.
  by apply list_elem_of_filter in Hlast as [? ?].
Qed.

Lemma last_filter_url_None (devs : list (Device V)) dev :
  dev ∈ devs ->
  last (filter (fun dev' => dev_device_url dev' = dev_device_url dev) devs) <> None.
Proof.
  intros Hin Hnone. apply last_None in Hnone.
  assert (Hf : dev ∈ filter (fun dev' => dev_device_url dev' = dev_device_url dev) devs)
    by (by apply list_elem_of_filter).
  rewrite Hnone in Hf. by apply elem_of_nil in Hf.
Qed.

(** ** Every entry sits under its identifier *)

Lemma process_event_keyed (event : Event V) :
  preserves (invariant (fun c => keyed (devices (_data c)))) (_process_event event).
Proof.
  intros c Hk url d' Hd'. pose proof (process_event_devices event c url) as Hdev.
  destruct (devices (_data c) !! url) as [d|] eqn:Hd; [|congruence].
  destruct Hdev as (d'' & Hd'' & Hurl).
  assert (d'' = d') as -> by congruence. rewrite Hurl. by apply Hk.
Qed.

Lemma process_setup_keyed (setup : Setup V) :
  preserves (invariant (fun c => keyed (devices (_data c)))) (_process_setup setup).
Proof.
  intros c Hk url d' Hd'.
  destruct (process_setup_run setup c) as (c' & Hrun & _ & _ & _ & Hdev).
  unfold exec in Hd'. rewrite Hrun in Hd'. cbn in Hd'.
  specialize (Hdev url).
  destruct (last _) as [dev|] eqn:Hlast.
  - destruct Hdev as (d'' & c0 & Hd'' & Hres & _).
    assert (d'' = d') as -> by congruence.
    apply process_device_result in Hres as (-> & _).
    by apply last_filter_url in Hlast as [_ ?].
  - rewrite Hdev in Hd'. by apply Hk.
Qed.

#[local] Hint Resolve process_event_keyed process_setup_keyed : frame.

Lemma async_update_keyed
    (fetch_events : outcome (list (Event V))) (get_setup : outcome (Setup V)) :
  preserves (invariant (fun c => keyed (devices (_data c))))
    (_async_update_data fetch_events get_setup).
Proof. frame; intros Hk; exact Hk. Qed.

Lemma reachable_keyed (c : Coordinator V) : reachable c -> keyed (devices (_data c)).
Proof.
  intros Hc. induction Hc as [setup|c f g Hc IH|c event Hc IH|c setup Hc IH].
  - apply (process_setup_keyed setup blank). intros url d Hd. done.
  - by apply (async_update_keyed f g c).
  - by apply (process_event_keyed event c).
  - by apply (process_setup_keyed setup c).
Qed.

(** ** Running setup normalisation twice *)

(** C5, amended. Running setup normalisation twice on the same setup leaves,
    after the second run, the same identifiers as after the first, and under
    each the same record in every field but [last_updated], which for the
    devices of the setup is a clock reading of the second run; every device of
    the setup has its entry under its identifier, and in every state of the
    coordinator each entry carries the identifier it is stored under, so no
    two entries share one. *)
Theorem resync_twice_same_but_time (setup : Setup V) (c : Coordinator V) :
  let c1 := exec (_process_setup setup) c in
  let c2 := exec (_process_setup setup) c1 in
  result (_process_setup setup) c = Returns tt /\
  result (_process_setup setup) c1 = Returns tt /\
  dom (devices (_data c2)) = dom (devices (_data c1)) /\
  (forall url,
     option_Forall2 same_but_time
       (devices (_data c1) !! url) (devices (_data c2) !! url)) /\
  (forall dev, dev ∈ setup_devices setup ->
     exists d1 d2 k,
       devices (_data c1) !! dev_device_url dev = Some d1 /\
       devices (_data c2) !! dev_device_url dev = Some d2 /\
       device_url d1 = dev_device_url dev /\
       clock_reads c1 <= k < clock_reads c2 /\
       last_updated d2 = wall_clock k) /\
  (reachable c -> keyed (devices (_data c1)) /\ keyed (devices (_data c2))).
Proof.
  intros c1 c2. subst c1 c2. unfold result, exec.
  destruct (process_setup_run setup c) as (c1 & Hrun1 & _ & _ & _ & Hdev1).
  rewrite Hrun1. cbn [fst snd].
  destruct (process_setup_run setup c1) as (c2 & Hrun2 & _ & _ & _ & Hdev2).
  rewrite Hrun2. cbn [fst snd].
  assert (Hk12 : reachable c ->
            keyed (devices (_data c1)) /\ keyed (devices (_data c2))).
  { intros Hc.
    assert (Hk1 : keyed (devices (_data c1))).
    { pose proof (process_setup_keyed setup c (reachable_keyed c Hc)) as Hk.
      unfold exec in Hk. by rewrite Hrun1 in Hk. }
    split; [done|].
    pose proof (process_setup_keyed setup c1 Hk1) as Hk.
    unfold exec in Hk. by rewrite Hrun2 in Hk. }
  assert (Hsame : forall url,
     option_Forall2 same_but_time
       (devices (_data c1) !! url) (devices (_data c2) !! url)).
  { intros url. specialize (Hdev1 url). specialize (Hdev2 url).
    destruct (last _) as [dev|].
    - destruct Hdev1 as (d1 & ca & -> & Ha & _).
      destruct Hdev2 as (d2 & cb & -> & Hb & _).
      constructor. by eapply process_device_same_but_time.
    - rewrite Hdev2. destruct (devices (_data c1) !! url); by constructor. }
  split; [done|]. split; [done|]. split; [|split; [done|split; [|done]]].
  - apply set_eq. intros url. rewrite !elem_of_dom.
    destruct (Hsame url) as [d1 d2 _|]; split; intros [? ?]; by eauto.
  - intros dev Hin. specialize (Hdev1 (dev_device_url dev)).
    specialize (Hdev2 (dev_device_url dev)).
    destruct (last _) as [dev'|] eqn:Hlast;
      [|by apply last_filter_url_None in Hlast].
    destruct Hdev1 as (d1 & ca & Hd1 & Ha & _).
    destruct Hdev2 as (d2 & cb & Hd2 & Hb & Hr).
    exists d1, d2, (clock_reads cb).
    split; [done|]. split; [done|].
    split; [|split; [done|by apply process_device_result in Hb as (_ & ? & _)]].
    apply process_device_result in Ha as (-> & _).
    by apply last_filter_url in Hlast as [_ ?].
Qed.

(** ** The gateway list *)

Lemma process_setup_gateways (setup : Setup V) c :
  gateways (_data (exec (_process_setup setup) c)) =
  gateways (_data c) ++ (reflected <$> setup_gateways setup).
Proof.
  destruct (process_setup_run setup c) as (c' & Hrun & Hg & _).
  unfold exec. by rewrite Hrun.
Qed.

(** C4. Setup normalisation appends the reflected record of every gateway of
    the setup to the gateway list and removes nothing: a coordinator built
    from a setup and refreshed once from the same setup holds every gateway
    record twice. *)
Theorem second_setup_run_duplicates_gateways (setup : Setup V) :
  let c1 := __init__ setup in
  let c2 := exec (_process_setup setup) c1 in
  gateways (_data c1) = reflected <$> setup_gateways setup /\
  gateways (_data c2) =
    (reflected <$> setup_gateways setup) ++ (reflected <$> setup_gateways setup) /\
  length (gateways (_data c2)) = 2 * length (setup_gateways setup).
Proof.
  intros c1 c2. subst c1 c2. unfold __init__.
  rewrite !process_setup_gateways. cbn [gateways _data blank app].
  split; [done|]. split; [done|].
  rewrite length_app, !length_fmap. lia.
Qed.

(** ** When a refresh cycle runs the full refresh *)

Lemma full_refresh_due_run (c : Coordinator V) :
  full_refresh_due c =
  match last_full_refresh (_data c) with
  | None => (Returns true, c)
  | Some l =>
      (Returns (300 <? timedelta_seconds (wall_clock (clock_reads c) - l))%Z,
       set_clock_reads S c)
  end.
Proof.
  unfold full_refresh_due. rewrite run_bind. cbn [read].
  by destruct (last_full_refresh (_data c)).
Qed.

Lemma timedelta_seconds_wraps (days r : Z) :
  (0 <= r < 86400000000)%Z ->
  timedelta_seconds (86400000000 * days + r) = (r `div` 1000000)%Z.
Proof.
  intros Hr. unfold timedelta_seconds. f_equal.
  symmetry. apply (Z.mod_unique _ _ days); lia.
Qed.

(** Within a day of the last full refresh the test succeeds from 301 whole
    seconds on. *)
Lemma full_refresh_due_within_a_day (delta : Z) :
  (0 <= delta < 86400000000)%Z ->
  (300 <? timedelta_seconds delta)%Z = true <-> (301000000 <= delta)%Z.
Proof.
  intros Hd. replace delta with (86400000000 * 0 + delta)%Z at 1 by lia.
  rewrite timedelta_seconds_wraps by done. rewrite Z.ltb_lt.
  split; intros Hlt.
  - apply Z.nlt_ge. intros Hsmall.
    assert (delta `div` 1000000 < 301)%Z by (apply Z.div_lt_upper_bound; lia). lia.
  - assert (301 <= delta `div` 1000000)%Z by (apply Z.div_le_lower_bound; lia). lia.
Qed.

(** C6. The refresh cycle tests the seconds field of the elapsed time, not
    the elapsed time: when the last full refresh lies between 300 and 301
    seconds back, or a whole number of days plus less than 301 seconds back,
    more than 300 seconds have elapsed and the cycle does not run the full
    refresh; it returns the snapshot as it is. *)
Theorem full_refresh_skipped_when_overdue (c : Coordinator V) (last : Z)
    (get_setup : outcome (Setup V)) :
  last_full_refresh (_data c) = Some last ->
  let elapsed := (wall_clock (clock_reads c) - last)%Z in
  (300000000 < elapsed < 301000000 \/
   exists days, 0 < days /\
     86400000000 * days <= elapsed < 86400000000 * days + 301000000)%Z ->
  (300000000 < elapsed)%Z /\
  result full_refresh_due c = Returns false /\
  _async_update_data (Returns []) get_setup c =
    (Returns (_data c), set_clock_reads S c).
Proof.
  intros Hlast elapsed Hel.
  assert (Hsec : (300 <? timedelta_seconds elapsed)%Z = false).
  { apply Z.ltb_ge. destruct Hel as [Hel|(days & Hdays & Hel)].
    - replace elapsed with (86400000000 * 0 + elapsed)%Z by lia.
      rewrite timedelta_seconds_wraps by lia.
      assert (elapsed `div` 1000000 < 301)%Z by (apply Z.div_lt_upper_bound; lia).
      lia.
    - replace elapsed with
        (86400000000 * days + (elapsed - 86400000000 * days))%Z by lia.
      rewrite timedelta_seconds_wraps by lia.
      assert ((elapsed - 86400000000 * days) `div` 1000000 < 301)%Z
        by (apply Z.div_lt_upper_bound; lia).
      lia. }
  assert (Hdue : full_refresh_due c = (Returns false, set_clock_reads S c)).
  { rewrite full_refresh_due_run, Hlast. fold elapsed. by rewrite Hsec. }
  split; [destruct Hel as [Hel|(days & Hdays & Hel)]; lia|].
  split; [unfold result; by rewrite Hdue|].
  unfold _async_update_data, try_catch.
  rewrite run_bind. unfold lift at 1. cbn [for_each].
  rewrite run_bind. cbn [mret M_ret].
  rewrite run_bind, Hdue. by rewrite run_bind.
Qed.

(** ** A failing refresh cycle *)

Lemma process_event_dom (event : Event V) :
  preserves (on (⊆) (fun c => dom (devices (_data c)))) (_process_event event).
Proof.
  intros c. unfold on. intros url. rewrite !elem_of_dom. intros [d Hd].
  pose proof (process_event_devices event c url) as Hdev. rewrite Hd in Hdev.
  destruct Hdev as (d' & -> & _). eauto.
Qed.

Lemma process_setup_dom (setup : Setup V) :
  preserves (on (⊆) (fun c => dom (devices (_data c)))) (_process_setup setup).
Proof.
  intros c. unfold on. intros url. rewrite !elem_of_dom. intros [d Hd].
  destruct (process_setup_run setup c) as (c' & Hrun & _ & _ & _ & Hdev).
  unfold exec. rewrite Hrun. cbn. specialize (Hdev url).
  destruct (last _) as [dev|].
  - destruct Hdev as (d' & c0 & -> & _). eauto.
  - rewrite Hdev. eauto.
Qed.

Lemma process_event_gateways (event : Event V) :
  preserves (on prefix (fun c => gateways (_data c))) (_process_event event).
Proof.
  intros c. unfold on.
  by destruct (process_event_untouched event c) as (_ & _ & -> & _).
Qed.

Lemma process_setup_gateways_prefix (setup : Setup V) :
  preserves (on prefix (fun c => gateways (_data c))) (_process_setup setup).
Proof. intros c. unfold on. rewrite process_setup_gateways. by apply prefix_app_r. Qed.

#[local] Hint Resolve process_event_dom process_setup_dom
  process_event_gateways process_setup_gateways_prefix : frame.

Lemma async_update_dom
    (fetch_events : outcome (list (Event V))) (get_setup : outcome (Setup V)) :
  preserves (on (⊆) (fun c => dom (devices (_data c))))
    (_async_update_data fetch_events get_setup).
Proof. frame; unfold on; cbn; reflexivity. Qed.

Lemma async_update_gateways
    (fetch_events : outcome (list (Event V))) (get_setup : outcome (Setup V)) :
  preserves (on prefix (fun c => gateways (_data c)))
    (_async_update_data fetch_events get_setup).
Proof. frame; unfold on; cbn; reflexivity. Qed.

(** C8. Whatever a refresh cycle raises is [UpdateFailed], built from the
    exception caught, whichever call raised it. When fetching the events
    raises, the coordinator is left as it was but for the logged error; when
    processing an event or fetching the setup raises, it is left as it was at
    that point. In every case the device mapping keeps every identifier it had
    and the gateway list every record it had. *)
Theorem update_failure_keeps_snapshot (fetch_events : outcome (list (Event V)))
    (get_setup : outcome (Setup V)) (c : Coordinator V) :
  let failed (e : exn) : outcome (ExplorerData V) :=
    Raises (UpdateFailed ("Error communicating with API: " +:+ exn_str e) e) in
  let c' := exec (_async_update_data fetch_events get_setup) c in
  (forall e', result (_async_update_data fetch_events get_setup) c = Raises e' ->
     exists e, Raises e' = failed e) /\
  (forall e, fetch_events = Raises e ->
     _async_update_data fetch_events get_setup c =
     (failed e, set_journal (fun j => j ++ [FetchErrorLine e]) c)) /\
  (forall done event rest c1 e c2,
     fetch_events = Returns (done ++ event :: rest) ->
     for_each done _process_event c = (Returns tt, c1) ->
     _process_event event c1 = (Raises e, c2) ->
     _async_update_data fetch_events get_setup c =
     (failed e, set_journal (fun j => j ++ [FetchErrorLine e]) c2)) /\
  (forall events c1 c2 e,
     fetch_events = Returns events ->
     for_each events _process_event c = (Returns tt, c1) ->
     full_refresh_due c1 = (Returns true, c2) ->
     get_setup = Raises e ->
     _async_update_data fetch_events get_setup c =
     (failed e,
      set_journal (fun j => j ++ [FetchErrorLine e])
        (set_journal (fun j => j ++ [FullRefreshLine]) c2))) /\
  dom (devices (_data c)) ⊆ dom (devices (_data c')) /\
  gateways (_data c) `prefix_of` gateways (_data c').
Proof.
  intros failed c'. split; [|split; [|split; [|split; [|split]]]].
  - unfold result, _async_update_data, try_catch. intros e'.
    match goal with |- context [match ?body c with _ => _ end] =>
      destruct (body c) as [[a|e] c0] end; [done|].
    cbn. intros [= <-]. by exists e.
  - intros e ->. reflexivity.
  - intros done event rest c1 e c2 -> Hdone Hevent.
    unfold _async_update_data, try_catch.
    rewrite run_bind. unfold lift at 1.
    rewrite run_bind, (for_each_app done (event :: rest) _ c c1 Hdone).
    cbn [for_each]. rewrite run_bind, Hevent. reflexivity.
  - intros events c1 c2 e -> Hevents Hdue ->.
    unfold _async_update_data, try_catch.
    rewrite run_bind. unfold lift at 1.
    rewrite run_bind, Hevents, run_bind, Hdue.
    rewrite run_bind, run_bind. unfold log at 1. cbn [update].
    rewrite run_bind. unfold lift at 1. reflexivity.
  - apply (async_update_dom fetch_events get_setup c).
  - apply (async_update_gateways fetch_events get_setup c).
Qed.

End Properties.

(** * The properties at concrete inputs *)

Section Examples.
Import Sample.

Lemma start_reachable : reachable start.
Proof. apply reach_init. Defined.

Lemma after_two_events_reachable : reachable after_two_events.
Proof. do 2 apply reach_event. apply reach_init. Defined.

Lemma start_knows_boiler : is_Some (devices (_data start) !! "dev-1").
Proof. vm_compute. eexists. reflexivity. Defined.

(** The scenario of the boiler: normalised at 45 degrees, then reported at 46
    by a state-changed event of the vendor library. Processing the event
    raises, the stored temperature stays 45, and the event is logged. *)
Example boiler_scenario :
  let c := exec (_process_event (temperature_event "dev-1" 46)) start in
  value <$> (states <$> devices (_data start) !! "dev-1") ≫= (.!! "core:TemperatureState")
    = Some (PInt 45) /\
  result (_process_event (temperature_event "dev-1" 46)) start =
    Raises (Error "'EventState' object has no attribute 'device_url'") /\
  value <$> (states <$> devices (_data c) !! "dev-1") ≫= (.!! "core:TemperatureState")
    = Some (PInt 45) /\
  length (events_log (_data c)) = 1.
Proof. vm_compute. repeat split; reflexivity. Qed.

(** The scenario of availability: a known device goes unavailable, an unknown
    one is dropped. *)
Example availability_scenario :
  available <$>
    devices (_data (exec (_process_event (unavailable_event "dev-1")) start)) !! "dev-1"
    = Some false /\
  devices (_data (exec (_process_event (unavailable_event "dev-9")) start))
    = devices (_data start).
Proof. split; vm_compute; reflexivity. Qed.

(** More than 1000 events leave the entries of the last 1000. *)
Lemma events_log_keeps_last_1000_witness :
  let events := replicate 1001 (temperature_event "dev-1" 46) in
  reachable start /\
  1000 < length events /\
  events_log (_data (process_events events start)) =
    slice_last 1000 (log_entries events start) /\
  length (events_log (_data (process_events events start))) = 1000.
Proof.
  intros events.
  assert (Hmany : 1000 < length events).
  { unfold events. rewrite length_replicate. lia. }
  destruct (events_log_keeps_last_1000 start events) as (_ & _ & _ & Hreach).
  destruct (Hreach start_reachable) as (_ & _ & _ & Hlast).
  destruct (Hlast Hmany) as [Heq Hlen].
  split; [exact start_reachable|]. split; [exact Hmany|]. split; [exact Heq|exact Hlen].
Defined.

(** After two events the log is in increasing event number and a third event
    makes the counter 3. *)
Lemma event_counter_orders_log_witness :
  reachable after_two_events /\
  StronglySorted lt (event_number <$> events_log (_data after_two_events)) /\
  _event_count (exec (_process_event (unavailable_event "dev-1")) after_two_events)
    = S (_event_count after_two_events).
Proof.
  destruct (event_counter_orders_log after_two_events)
    as (Hone & _ & _ & _ & Hreach).
  destruct (Hreach after_two_events_reachable) as (_ & Hsorted & _).
  split; [exact after_two_events_reachable|]. split; [exact Hsorted|apply Hone].
Defined.



(** A state-changed event of the vendor library for the unknown device dev-9
    makes the handler and [_process_event] raise [AttributeError]; the device
    mapping is left as it was. An unavailable event for dev-9 is ignored. *)
Lemma state_change_raises_for_unknown_device_witness :
  let event := temperature_event "dev-9" 50 in
  let e := AttributeError "EventState" "device_url" in
  devices (_data start) !! "dev-9" = None /\
  first_element_raises event e /\
  ev_name event = DEVICE_STATE_CHANGED /\
  dumpable (reflected (ev_reflect event)) /\
  _handle_state_change event start = (Raises e, start) /\
  result (_process_event event) start = Raises e /\
  devices (_data (exec (_process_event event) start)) = devices (_data start) /\
  ev_device_url (unavailable_event "dev-9") = Some "dev-9" /\
  _handle_availability_change (unavailable_event "dev-9") false start =
    (Returns tt, start).
Proof.
  intros event e.
  assert (Hunknown : devices (_data start) !! "dev-9" = None)
    by (vm_compute; reflexivity).
  assert (Hdump : dumpable (reflected (ev_reflect event))).
  { vm_compute. repeat constructor. }
  destruct (state_change_raises_for_unknown_device event start)
    as (Hstate & Hvendor & _ & _).
  assert (Hraises : first_element_raises event e)
    by exact (Hvendor (temperature 50) [] eq_refl).
  destruct (Hstate e Hraises) as [Hhandler Hprocess].
  destruct (Hprocess eq_refl) as (_ & Hresult & Hdevices).
  destruct (state_change_raises_for_unknown_device (unavailable_event "dev-9") start)
    as (_ & _ & Havailable & _).
  split; [exact Hunknown|]. split; [exact Hraises|]. split; [reflexivity|].
  split; [exact Hdump|]. split; [exact Hhandler|]. split; [exact (Hresult Hdump)|].
  split; [exact Hdevices|]. split; [reflexivity|].
  exact (Havailable "dev-9" false eq_refl Hunknown).
Defined.

(** The boiler reported at 46 and then at 47: the stored temperature stays
    the 45 of the setup and [last_updated] its time; in one refresh cycle
    the first event fails the cycle and the second is never counted. *)
Lemma second_state_change_is_lost_witness :
  let e1 := temperature_event "dev-1" 46 in
  let e2 := temperature_event "dev-1" 47 in
  let x := AttributeError "EventState" "device_url" in
  let c2 := exec (_process_event e2) (exec (_process_event e1) start) in
  ev_name e1 = DEVICE_STATE_CHANGED /\
  ev_name e2 = DEVICE_STATE_CHANGED /\
  first_element_raises e1 x /\
  first_element_raises e2 x /\
  devices (_data c2) = devices (_data start) /\
  value <$> (states <$> devices (_data c2) !! "dev-1") ≫= (.!! "core:TemperatureState")
    = Some (PInt 45) /\
  last_updated <$> devices (_data c2) !! "dev-1" = Some (wall_clock 0) /\
  exists x',
    _async_update_data (Returns [e1; e2]) (Returns setup) start =
      (Raises (UpdateFailed ("Error communicating with API: " +:+ exn_str x') x'),
       set_journal (fun j => j ++ [FetchErrorLine x']) (exec (_process_event e1) start)) /\
    _event_count (exec (_async_update_data (Returns [e1; e2]) (Returns setup)) start) = 1.
Proof.
  intros e1 e2 x c2.
  assert (H1 : first_element_raises e1 x) by (by exists (EventState (temperature 46)), []).
  assert (H2 : first_element_raises e2 x) by (by exists (EventState (temperature 47)), []).
  destruct (second_state_change_is_lost e1 e2 start x x eq_refl eq_refl H1 H2)
    as (_ & _ & Hdevices & Hcycle).
  destruct (Hcycle (Returns setup)) as (x' & _ & Hrun).
  split; [reflexivity|]. split; [reflexivity|]. split; [exact H1|]. split; [exact H2|].
  split; [exact Hdevices|].
  split; [unfold c2; rewrite Hdevices; vm_compute; reflexivity|].
  split; [unfold c2; rewrite Hdevices; vm_compute; reflexivity|].
  exists x'. split; [exact Hrun|].
  unfold exec. rewrite Hrun. vm_compute. reflexivity.
Defined.

(** The boiler reported at 46, a value other than the stored 45: nothing is
    stored, the clock is read once, and only the event line and the details
    are logged. *)
Lemma state_change_stores_nothing_witness :
  let event := temperature_event "dev-1" 46 in
  let c' := exec (_process_event event) start in
  ev_name event = DEVICE_STATE_CHANGED /\
  first_element_raises event (AttributeError "EventState" "device_url") /\
  is_Some (devices (_data start) !! "dev-1") /\
  devices (_data c') = devices (_data start) /\
  clock_reads c' = S (clock_reads start) /\
  journal c' =
    journal start ++ [EventLine 1 DEVICE_STATE_CHANGED;
                      EventDetails (log_entry_for event start)].
Proof.
  intros event c'.
  assert (Hraises : first_element_raises event (AttributeError "EventState" "device_url"))
    by (by exists (EventState (temperature 46)), []).
  destruct (state_change_stores_nothing event start _ eq_refl Hraises)
    as (_ & Hdevices & Hclock & _ & _).
  split; [reflexivity|]. split; [exact Hraises|]. split; [exact start_knows_boiler|].
  split; [exact Hdevices|]. split; [exact Hclock|].
  vm_compute. reflexivity.
Defined.

(** The setup normalised a second time keeps the identifiers and their
    place. *)
Lemma resync_twice_same_but_time_witness :
  let c1 := exec (_process_setup setup) start in
  let c2 := exec (_process_setup setup) c1 in
  reachable start /\
  dom (devices (_data c2)) = dom (devices (_data c1)) /\
  (forall url,
     option_Forall2 same_but_time
       (devices (_data c1) !! url) (devices (_data c2) !! url)) /\
  keyed (devices (_data c2)).
Proof.
  intros c1 c2.
  destruct (resync_twice_same_but_time setup start)
    as (_ & _ & Hdom & Hsame & _ & Hkeyed).
  split; [exact start_reachable|]. split; [exact Hdom|].
  split; [exact Hsame|exact (proj2 (Hkeyed start_reachable))].
Defined.

(** C5 as stated fails: the second run of the same setup stamps the boiler
    anew, so the device mapping is not equal to the one after the first
    run. *)
Lemma second_run_changes_last_updated :
  let c1 := __init__ setup in
  let c2 := exec (_process_setup setup) c1 in
  last_updated <$> devices (_data c1) !! "dev-1" = Some 0%Z /\
  last_updated <$> devices (_data c2) !! "dev-1" = Some 500000%Z /\
  devices (_data c2) <> devices (_data c1).
Proof.
  intros c1 c2. split; [vm_compute; reflexivity|]. split; [vm_compute; reflexivity|].
  intros Heq.
  apply (f_equal (fun m => last_updated <$> m !! "dev-1")) in Heq.
  vm_compute in Heq. discriminate Heq.
Qed.

(** Half a second past the 300 seconds, and a day and a hundred seconds past
    the last full refresh, the cycle skips the full refresh. *)
Lemma full_refresh_skipped_when_overdue_witness :
  let c := refreshed_at_zero 1202 in
  let c' := refreshed_at_zero 1 in
  (last_full_refresh (_data c) = Some 0%Z /\
   (300000000 < wall_clock (clock_reads c) - 0 < 301000000)%Z /\
   result full_refresh_due c = Returns false /\
   _async_update_data (Returns []) (Returns setup) c =
     (Returns (_data c), set_clock_reads S c)) /\
  (last_full_refresh (_data c') = Some 0%Z /\
   (wall_clock (Runtime := resumed_next_day) (clock_reads c') - 0 = 86500000000)%Z /\
   result (full_refresh_due (host := resumed_next_day)) c' = Returns false).
Proof.
  intros c c'.
  assert (Hhalf : (300000000 < wall_clock (clock_reads c) - 0 < 301000000)%Z)
    by (vm_compute; split; reflexivity).
  destruct (full_refresh_skipped_when_overdue c 0%Z (Returns setup) eq_refl
              (or_introl Hhalf)) as (_ & Hdue & Hcycle).
  assert (Hday : exists days, (0 < days /\
     86400000000 * days
       <= wall_clock (Runtime := resumed_next_day) (clock_reads c') - 0
       < 86400000000 * days + 301000000)%Z).
  { exists 1%Z. vm_compute. repeat split; discriminate. }
  destruct (full_refresh_skipped_when_overdue (host := resumed_next_day)
              c' 0%Z (Returns setup) eq_refl (or_intror Hday)) as (_ & Hdue' & _).
  split.
  - split; [reflexivity|]. split; [exact Hhalf|]. split; [exact Hdue|exact Hcycle].
  - split; [reflexivity|]. split; [vm_compute; reflexivity|exact Hdue'].
Defined.

(** A fetch that times out and an event that cannot be dumped both surface as
    [UpdateFailed], and the snapshot stays. *)
Lemma update_failure_keeps_snapshot_witness :
  let timeout := Error "timed out" in
  let bad_key := Error "keys must be str, int, float, bool or None, not tuple" in
  let c2 := exec (_process_event tuple_keyed_event) start in
  _async_update_data (Raises timeout) (Returns setup) start =
    (Raises (UpdateFailed "Error communicating with API: timed out" timeout),
     set_journal (fun j => j ++ [FetchErrorLine timeout]) start) /\
  for_each [] _process_event start = (Returns tt, start) /\
  _process_event tuple_keyed_event start = (Raises bad_key, c2) /\
  _async_update_data (Returns [tuple_keyed_event]) (Returns setup) start =
    (Raises (UpdateFailed
       "Error communicating with API: keys must be str, int, float, bool or None, not tuple"
       bad_key),
     set_journal (fun j => j ++ [FetchErrorLine bad_key]) c2) /\
  devices (_data c2) = devices (_data start) /\
  gateways (_data c2) = gateways (_data start).
Proof.
  intros timeout bad_key c2.
  assert (Hevent : _process_event tuple_keyed_event start = (Raises bad_key, c2))
    by (vm_compute; reflexivity).
  destruct (update_failure_keeps_snapshot (Raises timeout) (Returns setup) start)
    as (_ & Hfetch & _).
  destruct (update_failure_keeps_snapshot (Returns [tuple_keyed_event])
              (Returns setup) start) as (_ & _ & Hprocess & _).
  split; [exact (Hfetch timeout eq_refl)|]. split; [reflexivity|].
  split; [exact Hevent|].
  split; [exact (Hprocess [] tuple_keyed_event [] start bad_key c2
                   eq_refl eq_refl Hevent)|].
  split; vm_compute; reflexivity.
Defined.

End Examples.

(** * Further properties of the coordinator *)

Section Coordinator_more.
Context {V : Type} {value_ops : PyValue V} {host : Runtime}.

(** ** What an event can do to a device record *)

Lemma overwrite_keeps_names (stored : gmap string (StateEntry V)) writes n :
  is_Some (stored !! n) -> is_Some (overwrite stored writes !! n).
Proof.
  intros Hn. rewrite overwrite_lookup. by destruct (last_named n writes).
Qed.

(** ** Availability events *)

(** X1. An availability event for a known device with a non-empty identifier
    sets [available] to the flag and changes nothing else: neither another
    field of the record ([last_updated] included), nor another device, nor
    the clock; it logs one availability line. An event whose identifier is
    the empty string is dropped, even when a device is stored under it. *)
Theorem availability_change_sets_only_flag (event : Event V) (flag : bool)
    (c : Coordinator V) (url : string) (d : DeviceData V) :
  ev_device_url event = Some url ->
  devices (_data c) !! url = Some d ->
  (url <> "" ->
   _handle_availability_change event flag c =
   (Returns tt,
    set_journal (fun j => j ++ [AvailabilityLine (label d) flag])
      (set_data (set_devices <[url := set_available flag d]>) c))) /\
  (url = "" -> _handle_availability_change event flag c = (Returns tt, c)).
Proof.
  intros Hurl Hd. rewrite handle_availability_run, Hurl, Hd. split.
  - intros Hne. destruct (String.eqb_spec url ""); [done|reflexivity].
  - intros ->. reflexivity.
Qed.

(** ** Events and the records of the devices *)

(** X2. Processing any event keeps, for every device of the snapshot, the
    fields that setup normalisation wrote (identifier, label, widget, class,
    controllable name, protocol, type, attributes, commands, state
    definitions, raw data) and every state name the record had; an unknown
    identifier stays unknown, whatever the event is. *)
Theorem event_keeps_description_and_state_names (event : Event V)
    (c : Coordinator V) (url : string) :
  match devices (_data c) !! url with
  | None => devices (_data (exec (_process_event event) c)) !! url = None
  | Some d => exists d',
      devices (_data (exec (_process_event event) c)) !! url = Some d' /\
      description d' = description d /\
      (forall n, is_Some (states d !! n) -> is_Some (states d' !! n))
  end.
Proof.
  pose proof (process_event_effect event c url) as Hdev.
  destruct (devices (_data c) !! url) as [d|]; [|done].
  destruct Hdev as (b & writes & t & ->). eexists. split; [done|].
  split; [done|]. intros n Hn. cbn. by apply overwrite_keeps_names.
Qed.

(** X3. A device-created, device-updated or other event changes the snapshot
    in its log only: the device mapping, the gateway list and the time of the
    last full refresh are as before, so a device-created event adds no
    device. *)
Theorem informational_event_changes_log_only (event : Event V) (c : Coordinator V) :
  ev_name event <> DEVICE_STATE_CHANGED ->
  ev_name event <> DEVICE_AVAILABLE ->
  ev_name event <> DEVICE_UNAVAILABLE ->
  _data (exec (_process_event event) c) =
  set_events_log
    (fun l => slice_last 1000 (l ++ [log_entry_for event c])) (_data c).
Proof.
  intros Hs Ha Hu. unfold exec. rewrite process_event_run.
  destruct (json_dumps _) as [[]|e]; [|done].
  unfold handle_specific. by destruct (ev_name event).
Qed.

(** ** Events that cannot be dumped *)

(** X4. The log entry of an event can be dumped exactly when every dict among
    its reflected attributes has primitive keys. When it cannot,
    [_process_event] raises after the entry is appended and the counter
    advanced, and before the event is applied: the device mapping is left as
    it was and nothing but the event line is logged. *)
Theorem undumpable_event_is_logged_not_applied (event : Event V) (c : Coordinator V) :
  (json_dumps (log_entry_for event c) = Returns tt <->
   dumpable (reflected (ev_reflect event))) /\
  (~ dumpable (reflected (ev_reflect event)) ->
   let c' := exec (_process_event event) c in
   (exists e, result (_process_event event) c = Raises e) /\
   events_log (_data c') =
     slice_last 1000 (events_log (_data c) ++ [log_entry_for event c]) /\
   _event_count c' = S (_event_count c) /\
   devices (_data c') = devices (_data c) /\
   journal c' = journal c ++ [EventLine (S (_event_count c)) (ev_name event)]).
Proof.
  split; [apply json_dumps_returns|].
  intros Hbad c'. subst c'. unfold result, exec. rewrite process_event_run.
  destruct (json_dumps (log_entry_for event c)) as [[]|e] eqn:Hjson.
  - destruct Hbad. by apply (json_dumps_returns (log_entry_for event c)).
  - cbn. split; [by eexists|]. done.
Qed.

(** ** Setup normalisation: what it replaces and what it keeps *)

Lemma process_device_fields (device : Device V) c0 d :
  result (_process_device device) c0 = Returns d ->
  label d = dev_label device /\
  available d = dev_available device /\
  states d = overwrite ∅ (dev_states device) /\
  attributes d =
    foldl (fun m attr => <[st_name attr := attribute_entry attr]> m) ∅
      (dev_attributes device) /\
  raw_data d = reflected (dev_reflect device) /\
  controllable_name d = default "" (dev_controllable_name device).
Proof.
  unfold result, _process_device. rewrite run_bind. unfold lift.
  rewrite extract_all_attributes_returns. cbn. intros [= <-]. done.
Qed.

(** X5. Setup normalisation leaves the record of every device the setup does
    not list exactly as it was, so a device that left the installation stays
    in the snapshot. A device the setup lists gets a new record built from
    the setup alone: its label and availability, its raw data, and exactly
    the states the setup gives, the last of a name winning, so a state that
    only events had written is gone; its [last_updated] is a clock reading of
    the run. *)
Theorem setup_run_replaces_listed_devices (setup : Setup V) (c : Coordinator V) :
  let c' := exec (_process_setup setup) c in
  (forall url,
     (forall dev, dev ∈ setup_devices setup -> dev_device_url dev <> url) ->
     devices (_data c') !! url = devices (_data c) !! url) /\
  (forall url dev,
     last (filter (fun dev => dev_device_url dev = url) (setup_devices setup))
       = Some dev ->
     exists d', devices (_data c') !! url = Some d' /\
       label d' = dev_label dev /\
       available d' = dev_available dev /\
       raw_data d' = reflected (dev_reflect dev) /\
       (forall n, states d' !! n = state_entry <$> last_named n (dev_states dev)) /\
       exists k, clock_reads c <= k < clock_reads c' /\
         last_updated d' = wall_clock k).
Proof.
  intros c'. subst c'. unfold exec.
  destruct (process_setup_run setup c) as (c' & -> & _ & _ & _ & Hdev). cbn [snd].
  split.
  - intros url Hun. specialize (Hdev url).
    destruct (last _) as [dev|] eqn:Hlast; [|done].
    apply last_filter_url in Hlast as [Hin Hurl]. by destruct (Hun dev Hin).
  - intros url dev Hlast. specialize (Hdev url). rewrite Hlast in Hdev.
    destruct Hdev as (d' & c0 & Hd' & Hres & Hr). exists d'. split; [done|].
    destruct (process_device_fields dev c0 d' Hres) as (Hl & Ha & Hs & _ & Hraw & _).
    split; [done|]. split; [done|]. split; [done|]. split.
    + intros n. rewrite Hs, overwrite_lookup.
      by destruct (last_named n (dev_states dev)).
    + exists (clock_reads c0). split; [done|].
      by apply process_device_result in Hres as (_ & ? & _).
Qed.

(** ** Invariants of the reachable states *)

#[local] Existing Instance on_preorder.
#[local] Existing Instance invariant_preorder.

Create HintDb walk discriminated.

(** Decomposes a computation along its structure, as far as the hints do not
    settle it. *)
Ltac walk_step :=
  first [ solve [auto 1 with walk nocore] | lazymatch goal with
  | |- preserves _ (mret _) => apply preserves_ret; typeclasses eauto
  | |- preserves _ (lift _) => apply preserves_lift; typeclasses eauto
  | |- preserves _ (raise _) => apply preserves_raise; typeclasses eauto
  | |- preserves _ (read _) => apply preserves_read; typeclasses eauto
  | |- preserves _ (device_at _) => apply preserves_device_at; typeclasses eauto
  | |- preserves _ (device_known _) =>
      apply preserves_device_known; typeclasses eauto
  | |- preserves _ (mbind _ _) =>
      apply preserves_bind; [typeclasses eauto| |intros ?]
  | |- preserves _ (for_each _ _) =>
      apply preserves_for_each; [typeclasses eauto|intros ? ?]
  | |- preserves _ (try_catch _ _) =>
      apply preserves_try_catch; [typeclasses eauto| |intros ?]
  | |- preserves _ (update _) => apply preserves_update; intros ?
  | |- preserves _ (log _) => apply preserves_update; intros ?
  | |- preserves _ now => apply preserves_now; intros ?
  | |- preserves _ (if ?b then _ else _) => destruct b
  | |- preserves _ (match ?x with _ => _ end) => destruct x
  | |- preserves _ (mutate_device _ _) => unfold mutate_device
  | |- preserves _ (apply_device_state _) => unfold apply_device_state
  | |- preserves _ (store_state _ _) => unfold store_state
  | |- preserves _ (_handle_state_change _) => unfold _handle_state_change
  | |- preserves _ (_handle_availability_change _ _) =>
      unfold _handle_availability_change
  | |- preserves _ (handle_specific _) => unfold handle_specific
  | |- preserves _ (_process_event _) => unfold _process_event
  | |- preserves _ full_refresh_due => unfold full_refresh_due
  | |- preserves _ (_async_update_data _ _) => unfold _async_update_data
  end ].

Ltac walk := repeat walk_step.

Lemma process_event_clock (event : Event V) :
  preserves (on le clock_reads) (_process_event event).
Proof. walk; unfold on; cbn; lia. Qed.

Lemma process_event_refreshed (event : Event V) :
  preserves (invariant refreshed_in_the_past) (_process_event event).
Proof.
  intros c (k & Hk & Hlast). exists k.
  pose proof (process_event_clock event c) as Hclk. unfold on in Hclk.
  destruct (process_event_untouched event c) as (_ & _ & _ & -> & _).
  split; [lia|done].
Qed.

Lemma process_setup_refreshed (setup : Setup V) c :
  refreshed_in_the_past (exec (_process_setup setup) c).
Proof.
  destruct (process_setup_run setup c) as (c' & Hrun & _ & Hlast & Hclk & _).
  unfold exec. rewrite Hrun. cbn.
  exists (clock_reads c + length (setup_devices setup)). split; [lia|done].
Qed.

Lemma process_setup_refreshed_inv (setup : Setup V) :
  preserves (invariant refreshed_in_the_past) (_process_setup setup).
Proof. intros c _. apply process_setup_refreshed. Qed.

#[local] Hint Resolve process_event_refreshed process_setup_refreshed_inv : walk.

Lemma async_update_refreshed
    (fetch_events : outcome (list (Event V))) (get_setup : outcome (Setup V)) :
  preserves (invariant refreshed_in_the_past)
    (_async_update_data fetch_events get_setup).
Proof.
  walk; try (intros HP; exact HP).
  intros (k & Hk & Hlast). exists k. split; [cbn; lia|done].
Qed.

Lemma reachable_refreshed (c : Coordinator V) :
  reachable c -> refreshed_in_the_past c.
Proof.
  intros Hc. induction Hc as [setup|c f g Hc IH|c event Hc IH|c setup Hc IH].
  - apply process_setup_refreshed.
  - by apply (async_update_refreshed f g c).
  - by apply (process_event_refreshed event c).
  - apply process_setup_refreshed.
Qed.

(** X6. In every state of the coordinator the time of the last full refresh
    is set, and it is a reading the clock gave earlier; so the test of the
    refresh cycle always reads the clock, once, and its branch for a
    coordinator never refreshed is not taken. *)
Theorem last_full_refresh_is_a_past_reading (c : Coordinator V) :
  reachable c ->
  (exists k, k < clock_reads c /\
     last_full_refresh (_data c) = Some (wall_clock k)) /\
  clock_reads (exec full_refresh_due c) = S (clock_reads c).
Proof.
  intros Hc.
  pose proof (reachable_refreshed c Hc) as Hpast.
  split; [exact Hpast|].
  destruct Hpast as (k & _ & Hlast).
  unfold exec. by rewrite full_refresh_due_run, Hlast.
Qed.

(** X7. With the last full refresh at [last], the test of the refresh cycle
    succeeds exactly when the elapsed microseconds, reduced modulo one day,
    are at least 301 seconds; the clock is read once. *)
Theorem full_refresh_due_iff (c : Coordinator V) (last : Z) :
  last_full_refresh (_data c) = Some last ->
  exists due,
    full_refresh_due c = (Returns due, set_clock_reads S c) /\
    (due = true <->
     (301000000 <= (wall_clock (clock_reads c) - last) `mod` 86400000000)%Z).
Proof.
  intros Hlast. rewrite full_refresh_due_run, Hlast. eexists. split; [done|].
  set (elapsed := (wall_clock (clock_reads c) - last)%Z).
  assert (Hm : (0 <= elapsed `mod` 86400000000 < 86400000000)%Z)
    by (apply Z.mod_pos_bound; lia).
  rewrite <- (full_refresh_due_within_a_day _ Hm).
  unfold timedelta_seconds. by rewrite Z.mod_mod by lia.
Qed.

(** ** The sweep as a list *)

Lemma dict_set_fresh {A} (k : string) (v : A) (d : list (string * A)) :
  k ∉ d.*1 -> dict_set k v d = d ++ [(k, v)].
Proof.
  induction d as [|[k' v'] d IH]; intros Hk; cbn; [done|].
  rewrite fmap_cons in Hk. apply not_elem_of_cons in Hk as [Hne Hk].
  rewrite decide_False by done. by rewrite IH.
Qed.

Lemma swept_names (attrs : PyObject V) : (swept attrs).*1 ⊆ attrs.*1.
Proof.
  induction attrs as [|[k g] attrs IH]; [done|].
  unfold swept in *. cbn.
  destruct (startswith_underscore k); cbn;
    [intros x Hx; right; by apply IH|].
  destruct (recorded g); cbn; [|intros x Hx; right; by apply IH].
  intros x Hx. apply elem_of_cons in Hx as [->|Hx]; [by left|right; by apply IH].
Qed.

Lemma extract_loop_swept (attrs : PyObject V) (acc : list (string * ser V)) :
  NoDup (acc.*1 ++ attrs.*1) ->
  extract_loop attrs acc = Returns (acc ++ swept attrs).
Proof.
  revert acc. induction attrs as [|[k g] attrs IH]; intros acc Hnd.
  - cbn. by rewrite app_nil_r.
  - cbn [extract_loop]. unfold swept. cbn [omap list_omap fst snd]. fold (swept attrs).
    rewrite fmap_cons in Hnd. cbn [fst] in Hnd.
    assert (Hnd' : NoDup (acc.*1 ++ attrs.*1)).
    { apply NoDup_app in Hnd as (Ha & Hdisj & Hb). apply NoDup_cons in Hb as [_ Hb].
      apply NoDup_app. split; [done|]. split; [|done].
      intros x Hx Hx'. apply (Hdisj x Hx). by right. }
    assert (Hk : k ∉ acc.*1).
    { apply NoDup_app in Hnd as (_ & Hdisj & _). intros Hin.
      apply (Hdisj k Hin). by left. }
    assert (Hk' : k ∉ attrs.*1).
    { apply NoDup_app in Hnd as (_ & _ & Hb). by apply NoDup_cons in Hb as [? _]. }
    destruct (startswith_underscore k); [by apply IH|].
    unfold recorded.
    destruct (read_attribute g) as [[s|]|e]; cbn.
    + rewrite dict_set_fresh by done. rewrite IH.
      * by rewrite <- app_assoc.
      * rewrite fmap_app. cbn. rewrite <- app_assoc. cbn.
        apply NoDup_app in Hnd' as (Ha & Hdisj & Hb).
        apply NoDup_app. split; [done|]. split.
        -- intros x Hx Hx'. apply elem_of_cons in Hx' as [->|Hx']; [done|].
           by apply (Hdisj x).
        -- by apply NoDup_cons.
    + by apply IH.
    + rewrite dict_set_fresh by done. rewrite IH.
      * by rewrite <- app_assoc.
      * rewrite fmap_app. cbn. rewrite <- app_assoc. cbn.
        apply NoDup_app in Hnd' as (Ha & Hdisj & Hb).
        apply NoDup_app. split; [done|]. split.
        -- intros x Hx Hx'. apply elem_of_cons in Hx' as [->|Hx']; [done|].
           by apply (Hdisj x).
        -- by apply NoDup_cons.
Qed.

(** X8. For an object whose [dir] names are distinct, the mapping the sweep
    returns is the list, in [dir] order, of its public attributes that are
    not callable, each with its serialised value or its error marker; so it
    has no private name, no name outside [dir], and no name twice. *)
Theorem sweep_lists_public_attributes (obj : PyObject V) :
  NoDup obj.*1 ->
  reflected obj = swept obj /\
  NoDup (reflected obj).*1 /\
  (forall k, k ∈ (reflected obj).*1 ->
     k ∈ obj.*1 /\ startswith_underscore k = false).
Proof.
  intros Hnd.
  assert (Heq : reflected obj = swept obj).
  { unfold reflected, _extract_all_attributes.
    by rewrite (extract_loop_swept obj []) by done. }
  rewrite Heq. split; [done|]. split.
  - clear Heq. induction obj as [|[k g] obj IH]; [constructor|].
    rewrite fmap_cons in Hnd. apply NoDup_cons in Hnd as [Hk Hnd].
    unfold swept. cbn [omap list_omap fst snd]. fold (swept obj).
    destruct (startswith_underscore k); [by apply IH|].
    destruct (recorded g); cbn; [|by apply IH].
    apply NoDup_cons. split; [|by apply IH].
    intros Hin. apply Hk. by apply (swept_names obj).
  - intros k Hk. split; [by apply (swept_names obj)|].
    clear Heq Hnd. induction obj as [|[k' g] obj IH]; [by apply elem_of_nil in Hk|].
    unfold swept in Hk. cbn [omap list_omap fst snd] in Hk. fold (swept obj) in Hk.
    destruct (startswith_underscore k') eqn:Hpriv; [by apply IH|].
    destruct (recorded g); cbn in Hk; [|by apply IH].
    apply elem_of_cons in Hk as [->|Hk]; [done|by apply IH].
Qed.

(** ** Type tags *)

Lemma overwrite_tagged (stored : gmap string (StateEntry V)) writes :
  map_Forall (fun _ e => type e = type_name (value e)) stored ->
  map_Forall (fun _ e => type e = type_name (value e)) (overwrite stored writes).
Proof.
  intros Hs n e. rewrite overwrite_lookup.
  destruct (last_named n writes) as [st|]; [by intros [= <-]|apply Hs].
Qed.

Lemma process_device_tagged (device : Device V) c0 d :
  result (_process_device device) c0 = Returns d -> well_tagged d.
Proof.
  intros Hres.
  destruct (process_device_fields device c0 d Hres) as (_ & _ & Hs & Ha & _).
  unfold well_tagged. rewrite Hs, Ha.
  split; [apply overwrite_tagged; by intros ? ? ?|].
  generalize (dev_attributes device). intros attrs.
  assert (Hgen : forall m : gmap string (AttributeEntry V),
    map_Forall (fun _ a => attribute_type a = type_name (attribute_value a)) m ->
    map_Forall (fun _ a => attribute_type a = type_name (attribute_value a))
      (foldl (fun m attr => <[st_name attr := attribute_entry attr]> m) m attrs)).
  { induction attrs as [|a attrs IH]; intros m Hm; [done|].
    cbn. apply IH. by apply map_Forall_insert_2. }
  apply Hgen. by intros ? ? ?.
Qed.

Lemma process_event_tagged (event : Event V) :
  preserves (invariant (fun c => map_Forall (fun _ => well_tagged) (devices (_data c))))
    (_process_event event).
Proof.
  intros c Hc url d' Hd'. pose proof (process_event_effect event c url) as Hdev.
  destruct (devices (_data c) !! url) as [d|] eqn:Hd; [|congruence].
  destruct Hdev as (b & writes & t & Heq). rewrite Heq in Hd'. injection Hd' as <-.
  destruct (Hc url d Hd) as [Hs Ha]. split; [|done].
  by apply overwrite_tagged.
Qed.

Lemma process_setup_tagged (setup : Setup V) :
  preserves (invariant (fun c => map_Forall (fun _ => well_tagged) (devices (_data c))))
    (_process_setup setup).
Proof.
  intros c Hc url d' Hd'.
  destruct (process_setup_run setup c) as (c' & Hrun & _ & _ & _ & Hdev).
  unfold exec in Hd'. rewrite Hrun in Hd'. cbn in Hd'. specialize (Hdev url).
  destruct (last _) as [dev|].
  - destruct Hdev as (d'' & c0 & Hd'' & Hres & _).
    assert (d'' = d') as -> by congruence. by eapply process_device_tagged.
  - rewrite Hdev in Hd'. by apply (Hc url).
Qed.

#[local] Hint Resolve process_event_tagged process_setup_tagged : walk.

Lemma async_update_tagged
    (fetch_events : outcome (list (Event V))) (get_setup : outcome (Setup V)) :
  preserves (invariant (fun c => map_Forall (fun _ => well_tagged) (devices (_data c))))
    (_async_update_data fetch_events get_setup).
Proof. walk; intros HP; exact HP. Qed.

(** X9. In every state of the coordinator, every stored state and every
    stored attribute of every device carries the type name of the value
    stored with it. *)
Theorem stored_type_is_type_of_value (c : Coordinator V) (url : string)
    (d : DeviceData V) :
  reachable c ->
  devices (_data c) !! url = Some d ->
  (forall n e, states d !! n = Some e -> type e = type_name (value e)) /\
  (forall n a, attributes d !! n = Some a ->
     attribute_type a = type_name (attribute_value a)).
Proof.
  intros Hc Hd.
  assert (Hall : map_Forall (fun _ => well_tagged) (devices (_data c))).
  { clear Hd. induction Hc as [setup|c f g Hc IH|c event Hc IH|c setup Hc IH].
    - apply (process_setup_tagged setup blank). by intros ? ? ?.
    - by apply (async_update_tagged f g c).
    - by apply (process_event_tagged event c).
    - by apply (process_setup_tagged setup c). }
  destruct (Hall url d Hd) as [Hs Ha]. split; [apply Hs|apply Ha].
Qed.

End Coordinator_more.

(** * Properties of the read surface *)

Section Surface_properties.
Context {V : Type} {value_ops : PyValue V} {host : Runtime}.
Variable isoformat : Z -> string.

Lemma slice_last_slice_last {A} n m (l : list A) :
  n <= m -> slice_last n (slice_last m l) = slice_last n l.
Proof.
  intros Hnm. unfold slice_last. rewrite length_drop, drop_drop. f_equal. lia.
Qed.

Lemma last_events_slice (c : Coordinator V) :
  last_events (get_full_data_dump isoformat c) = slice_last 10 (events_log (_data c)).
Proof. cbn. by destruct (events_log (_data c)). Qed.

Lemma recent_entries_after (n : nat) (events : list (Event V)) (c : Coordinator V) :
  n <= 1000 -> reachable c -> n <= length events ->
  slice_last n (events_log (_data (process_events events c))) =
  slice_last n (log_entries events c).
Proof.
  intros Hn Hc Hlen.
  rewrite process_events_log by (by apply reachable_log_bounded).
  rewrite slice_last_slice_last by done.
  apply slice_last_app_long. by rewrite log_entries_length.
Qed.

(** X10. The full dump has one device entry per identifier of the snapshot
    and its last events are the last ten entries of the log, in order. In
    every state of the coordinator it reports at most 1000 events, each
    device entry carries the identifier it is filed under, and the time of
    the last full refresh is present; after ten or more further events its
    last events are the entries of the last ten of them. *)
Theorem full_dump_shows_snapshot (c : Coordinator V) :
  let dump := get_full_data_dump isoformat c in
  dom (dump_devices dump) = dom (devices (_data c)) /\
  last_events dump = slice_last 10 (events_log (_data c)) /\
  length (last_events dump) = events_log_count dump `min` 10 /\
  (reachable c ->
   events_log_count dump <= 1000 /\
   (forall url dd, dump_devices dump !! url = Some dd -> dumped_device_url dd = url) /\
   is_Some (dump_last_full_refresh dump) /\
   (forall events, 10 <= length events ->
      last_events (get_full_data_dump isoformat (process_events events c)) =
      slice_last 10 (log_entries events c))).
Proof.
  intros dump. split; [apply dom_fmap_L|]. split; [apply last_events_slice|].
  split; [unfold dump; rewrite last_events_slice, slice_last_length; done|].
  intros Hc. split; [by apply reachable_log_bounded|]. split; [|split].
  - intros url dd Hdd. cbn in Hdd. rewrite lookup_fmap in Hdd.
    destruct (devices (_data c) !! url) as [d|] eqn:Hd; [|done].
    injection Hdd as <-. cbn. by apply (reachable_keyed c Hc).
  - destruct (reachable_refreshed c Hc) as (k & _ & Hlast).
    cbn. rewrite Hlast. by eexists.
  - intros events Hlen. rewrite last_events_slice.
    apply recent_entries_after; [lia|done|done].
Qed.

(** ** Sensors *)

Lemma handle_state_change_from_vendor (event : Event V) c :
  from_vendor event -> exec (_handle_state_change event) c = c.
Proof.
  intros [[|state states] Hpayload].
  - unfold exec, _handle_state_change. by rewrite Hpayload.
  - unfold exec. erewrite handle_state_change_raises; [done|].
    by eapply event_state_payload.
Qed.

Lemma handle_availability_keeps_states (event : Event V) flag :
  preserves (on eq (fun c => states <$> devices (_data c)))
    (_handle_availability_change event flag).
Proof.
  intros c. unfold on, exec. rewrite handle_availability_run.
  destruct (ev_device_url event) as [u|]; [|done].
  destruct (devices (_data c) !! u) as [d|] eqn:Hd; [|done].
  destruct (String.eqb u ""); [done|]. cbn.
  rewrite fmap_insert. symmetry. apply insert_id. by rewrite lookup_fmap, Hd.
Qed.

Lemma process_setup_lookup (setup : Setup V) c url :
  match last (filter (fun dev => dev_device_url dev = url) (setup_devices setup)) with
  | None =>
      devices (_data (exec (_process_setup setup) c)) !! url = devices (_data c) !! url
  | Some dev => exists d',
      devices (_data (exec (_process_setup setup) c)) !! url = Some d' /\
      available d' = dev_available dev /\
      states d' = overwrite ∅ (dev_states dev)
  end.
Proof.
  destruct (process_setup_run setup c) as (c' & Hrun & _ & _ & _ & Hdev).
  unfold exec. rewrite Hrun. cbn [snd]. specialize (Hdev url).
  destruct (last _) as [dev|]; [|done].
  destruct Hdev as (d' & c0 & Hd' & Hres & _). exists d'. split; [done|].
  by destruct (process_device_fields dev c0 d' Hres) as (_ & ? & ? & _).
Qed.

Lemma unlisted_last (setup : Setup V) url :
  (forall dev, dev ∈ setup_devices setup -> dev_device_url dev <> url) ->
  last (filter (fun dev => dev_device_url dev = url) (setup_devices setup)) = None.
Proof.
  intros Hun. destruct (last _) as [dev|] eqn:Hlast; [|done].
  apply last_filter_url in Hlast as [Hin Hurl]. by destruct (Hun dev Hin).
Qed.

(** X11. No event the vendor library delivers changes what a state sensor
    reads: an event that is not state-changed, or whose payload is a list of
    the vendor's [EventState] objects, leaves the reading of every sensor as
    it was. Setup normalisation sets the reading of a sensor of a listed
    device to the value the setup gives for the state, the last of that
    name, and to [None] when it gives none; it leaves the reading for a
    device that is not listed. A sensor of an unknown device reads [None]. *)
Theorem state_sensor_reads_setup_value (c : Coordinator V) (url n : string) :
  (forall event,
     ev_name event <> DEVICE_STATE_CHANGED \/ from_vendor event ->
     state_sensor_native_value (exec (_process_event event) c) url n =
     state_sensor_native_value c url n) /\
  (forall setup dev,
     last (filter (fun dev => dev_device_url dev = url) (setup_devices setup))
       = Some dev ->
     state_sensor_native_value (exec (_process_setup setup) c) url n =
     match last_named n (dev_states dev) with
     | Some state => st_value state
     | None => py_none
     end) /\
  (forall setup,
     (forall dev, dev ∈ setup_devices setup -> dev_device_url dev <> url) ->
     state_sensor_native_value (exec (_process_setup setup) c) url n =
     state_sensor_native_value c url n) /\
  (devices (_data c) !! url = None -> state_sensor_native_value c url n = py_none).
Proof.
  assert (Hread : forall c1 c2 : Coordinator V,
             states <$> devices (_data c1) = states <$> devices (_data c2) ->
             state_sensor_native_value c1 url n = state_sensor_native_value c2 url n).
  { intros c1 c2 Heq. apply (f_equal (.!! url)) in Heq. rewrite !lookup_fmap in Heq.
    unfold state_sensor_native_value, get_device_data.
    destruct (devices (_data c1) !! url) as [d1|],
      (devices (_data c2) !! url) as [d2|]; cbn in Heq; try done.
    by injection Heq as ->. }
  split; [|split; [|split]].
  - intros event Hevent. apply Hread. unfold exec. rewrite process_event_run.
    destruct (json_dumps _) as [[]|e]; [|done].
    match goal with |- context [handle_specific event ?c0] => set (c1 := c0) end.
    change (states <$> devices (_data c)) with (states <$> devices (_data c1)).
    unfold handle_specific. destruct (ev_name event) eqn:Hname.
    + destruct Hevent as [Hother|Hvendor]; [done|].
      change ((_handle_state_change event c1).2)
        with (exec (_handle_state_change event) c1).
      by rewrite handle_state_change_from_vendor.
    + symmetry. apply (handle_availability_keeps_states event true c1).
    + symmetry. apply (handle_availability_keeps_states event false c1).
    + done.
    + done.
    + done.
  - intros setup dev Hlast. pose proof (process_setup_lookup setup c url) as Hdev.
    rewrite Hlast in Hdev. destruct Hdev as (d' & Hd' & _ & Hstates).
    unfold state_sensor_native_value, get_device_data. rewrite Hd', Hstates.
    rewrite overwrite_lookup, lookup_empty.
    by destruct (last_named n (dev_states dev)).
  - intros setup Hun. pose proof (process_setup_lookup setup c url) as Hdev.
    rewrite (unlisted_last setup url Hun) in Hdev.
    unfold state_sensor_native_value, get_device_data. by rewrite Hdev.
  - intros Hd. unfold state_sensor_native_value, get_device_data. by rewrite Hd.
Qed.

(** X12. Through events, the availability sensor of a device changes only by
    a device-available or device-unavailable event that carries the device's
    identifier, this being not the empty string, and whose log entry can be
    dumped: once such an event is processed the sensor of a known device
    reads on, respectively off. Every other event, a state-changed one
    included, leaves the reading as it was. Setup normalisation sets the
    reading for a listed device to the availability the setup gives, and
    leaves it for a device that is not listed. For an unknown device the
    sensor reads off, before and after any event. *)
Theorem availability_sensor_follows_events (event : Event V) (c : Coordinator V)
    (url : string) :
  let c' := exec (_process_event event) c in
  (ev_device_url event = Some url -> url <> "" ->
   is_Some (devices (_data c) !! url) ->
   dumpable (reflected (ev_reflect event)) ->
   (ev_name event = DEVICE_AVAILABLE ->
    result (_process_event event) c = Returns tt /\
    availability_sensor_is_on c' url = true) /\
   (ev_name event = DEVICE_UNAVAILABLE ->
    result (_process_event event) c = Returns tt /\
    availability_sensor_is_on c' url = false)) /\
  ((ev_name event <> DEVICE_AVAILABLE /\ ev_name event <> DEVICE_UNAVAILABLE) \/
   ev_device_url event <> Some url \/ url = "" \/
   ~ dumpable (reflected (ev_reflect event)) ->
   availability_sensor_is_on c' url = availability_sensor_is_on c url) /\
  (forall setup dev,
     last (filter (fun dev => dev_device_url dev = url) (setup_devices setup))
       = Some dev ->
     availability_sensor_is_on (exec (_process_setup setup) c) url =
     dev_available dev) /\
  (forall setup,
     (forall dev, dev ∈ setup_devices setup -> dev_device_url dev <> url) ->
     availability_sensor_is_on (exec (_process_setup setup) c) url =
     availability_sensor_is_on c url) /\
  (devices (_data c) !! url = None ->
   availability_sensor_is_on c url = false /\
   availability_sensor_is_on c' url = false).
Proof.
  intros c'. subst c'.
  assert (Hread : forall c1 c2 : Coordinator V,
             available <$> devices (_data c1) !! url =
               available <$> devices (_data c2) !! url ->
             availability_sensor_is_on c1 url = availability_sensor_is_on c2 url).
  { intros c1 c2 Heq. unfold availability_sensor_is_on, get_device_data.
    destruct (devices (_data c1) !! url) as [d1|],
      (devices (_data c2) !! url) as [d2|]; cbn in Heq; try done.
    by injection Heq as ->. }
  assert (Hset : forall flag,
             ev_device_url event = Some url -> url <> "" ->
             is_Some (devices (_data c) !! url) ->
             dumpable (reflected (ev_reflect event)) ->
             handle_specific event = _handle_availability_change event flag ->
             result (_process_event event) c = Returns tt /\
             availability_sensor_is_on (exec (_process_event event) c) url = flag).
  { intros flag Hurl Hne [d Hd] Hdump Hkind. unfold result, exec.
    rewrite process_event_run.
    apply (json_dumps_returns (log_entry_for event c)) in Hdump. rewrite Hdump.
    rewrite Hkind, handle_availability_run, Hurl.
    match goal with |- context [devices (_data ?c0) !! url] =>
      change (devices (_data c0) !! url) with (devices (_data c) !! url) end.
    rewrite Hd. destruct (String.eqb_spec url ""); [done|]. cbn [fst snd].
    split; [done|].
    unfold availability_sensor_is_on, get_device_data. cbn.
    by rewrite lookup_insert_eq. }
  assert (Hkeep : forall (c1 : Coordinator V) flag,
             ev_device_url event <> Some url \/ url = "" ->
             available <$> devices (_data (_handle_availability_change event flag c1).2)
               !! url = available <$> devices (_data c1) !! url).
  { intros c1 flag Hnot. rewrite handle_availability_run.
    destruct (ev_device_url event) as [u|] eqn:Hu; [|done].
    destruct (devices (_data c1) !! u) as [du|] eqn:Hdu; [|done].
    destruct (String.eqb_spec u "") as [->|Hne]; [done|]. cbn.
    rewrite lookup_insert_ne; [done|].
    intros ->. destruct Hnot as [Hnot|Hnot]; [by destruct Hnot|done]. }
  split; [|split; [|split; [|split]]].
  - intros Hurl Hne Hknown Hdump. split; intros Hname.
    + apply Hset; try done. unfold handle_specific. by rewrite Hname.
    + apply Hset; try done. unfold handle_specific. by rewrite Hname.
  - intros Hother. apply Hread. unfold exec. rewrite process_event_run.
    destruct (json_dumps (log_entry_for event c)) as [[]|e] eqn:Hjson; [|done].
    assert (Hdump : dumpable (reflected (ev_reflect event)))
      by (by apply (json_dumps_returns (log_entry_for event c))).
    match goal with |- context [handle_specific event ?c0] => set (c1 := c0) end.
    change (devices (_data c) !! url) with (devices (_data c1) !! url).
    unfold handle_specific. destruct (ev_name event) eqn:Hname.
    + pose proof (handle_state_change_keeps_available event c1) as Hsame.
      unfold on, exec in Hsame. apply (f_equal (.!! url)) in Hsame.
      rewrite !lookup_fmap in Hsame. by rewrite Hsame.
    + apply Hkeep.
      destruct Hother as [[Ha _]|[Hu|[Hu|Hd]]]; [done|by left|by right|done].
    + apply Hkeep.
      destruct Hother as [[_ Ha]|[Hu|[Hu|Hd]]]; [done|by left|by right|done].
    + done.
    + done.
    + done.
  - intros setup dev Hlast. pose proof (process_setup_lookup setup c url) as Hdev.
    rewrite Hlast in Hdev. destruct Hdev as (d' & Hd' & Havailable & _).
    unfold availability_sensor_is_on, get_device_data. by rewrite Hd'.
  - intros setup Hun. pose proof (process_setup_lookup setup c url) as Hdev.
    rewrite (unlisted_last setup url Hun) in Hdev.
    unfold availability_sensor_is_on, get_device_data. by rewrite Hdev.
  - intros Hd. unfold availability_sensor_is_on, get_device_data.
    pose proof (process_event_devices event c url) as Hdev. rewrite Hd in Hdev.
    by rewrite Hd, Hdev.
Qed.

(** X13. In every state of the coordinator the events sensor reads at most
    1000; after a further sequence of events it reads the earlier count plus
    their number, capped at 1000, and its recent events are the last twenty
    entries of the log, those of the last twenty events once twenty have been
    processed. For a coordinator just built it reads the number of events up
    to 1000, while the event counter holds their full number. *)
Theorem events_sensor_saturates (c : Coordinator V) (events : list (Event V)) :
  reachable c ->
  events_sensor_native_value c <= 1000 /\
  events_sensor_native_value (process_events events c) =
    (events_sensor_native_value c + length events) `min` 1000 /\
  events_sensor_recent_events (process_events events c) =
    slice_last 20 (events_log (_data (process_events events c))) /\
  (20 <= length events ->
   events_sensor_recent_events (process_events events c) =
     slice_last 20 (log_entries events c)) /\
  (forall setup,
     events_sensor_native_value (process_events events (__init__ setup)) =
       length events `min` 1000 /\
     _event_count (process_events events (__init__ setup)) = length events).
Proof.
  intros Hc. pose proof (reachable_log_bounded c Hc) as Hlen.
  assert (Hrecent : forall c0 : Coordinator V,
    events_sensor_recent_events c0 = slice_last 20 (events_log (_data c0))).
  { intros c0. unfold events_sensor_recent_events, get_events_log.
    by destruct (events_log (_data c0)). }
  assert (Hcount : forall c0 : Coordinator V, reachable c0 ->
    events_sensor_native_value (process_events events c0) =
    (events_sensor_native_value c0 + length events) `min` 1000).
  { intros c0 Hc0. unfold events_sensor_native_value, get_events_log.
    rewrite process_events_log by (by apply reachable_log_bounded).
    by rewrite slice_last_length, length_app, log_entries_length. }
  split; [done|]. split; [by apply Hcount|]. split; [apply Hrecent|].
  split.
  - intros Hmany. rewrite Hrecent. apply recent_entries_after; [lia|done|done].
  - intros setup. split.
    + rewrite Hcount by apply reach_init.
      replace (events_sensor_native_value (__init__ setup)) with 0; [done|].
      pose proof (process_setup_log_and_count setup blank) as Hf.
      unfold on, log_and_count in Hf. unfold __init__, events_sensor_native_value,
        get_events_log. by injection Hf as <- _.
    + rewrite process_events_count.
      pose proof (process_setup_log_and_count setup blank) as Hf.
      unfold on, log_and_count in Hf. unfold __init__. by injection Hf as _ <-.
Qed.

(** ** Unique identifiers *)

Lemma replace_char_get (old new : ascii) (s : string) (i : nat) :
  String.get i (replace_char old new s) =
  (fun a => if decide (a = old) then new else a) <$> String.get i s.
Proof.
  revert i. induction s as [|a s IH]; intros i; [done|].
  destruct i as [|i]; cbn; [done|apply IH].
Qed.

Lemma replace_char_length (old new : ascii) (s : string) :
  String.length (replace_char old new s) = String.length s.
Proof. induction s as [|a s IH]; cbn; [done|by rewrite IH]. Qed.

(** X14. The sanitised device identifier has the length of the identifier and
    is the identifier with each slash, colon and hash replaced by an
    underscore and every other character kept in place; so it contains none
    of the three, an identifier without them is unchanged, and sanitising
    twice is sanitising once. *)
Theorem safe_url_replaces_separators (device_url : string) :
  String.length (safe_url device_url) = String.length device_url /\
  (forall i,
     String.get i (safe_url device_url) =
     (fun a : ascii =>
        if decide (a = "/"%char \/ a = ":"%char \/ a = "#"%char)
        then "_"%char else a) <$> String.get i device_url) /\
  (forall i a, String.get i (safe_url device_url) = Some a ->
     a <> "/"%char /\ a <> ":"%char /\ a <> "#"%char) /\
  ((forall i a, String.get i device_url = Some a ->
      a <> "/"%char /\ a <> ":"%char /\ a <> "#"%char) ->
   safe_url device_url = device_url) /\
  safe_url (safe_url device_url) = safe_url device_url.
Proof.
  assert (Hget : forall s i,
     String.get i (safe_url s) =
     (fun a : ascii =>
        if decide (a = "/"%char \/ a = ":"%char \/ a = "#"%char)
        then "_"%char else a) <$> String.get i s).
  { intros s i. unfold safe_url. rewrite !replace_char_get.
    destruct (String.get i s) as [a|]; [|done]. cbn. f_equal.
    repeat case_decide; subst; first [done | tauto | intuition congruence]. }
  assert (Hfree : forall s i a, String.get i (safe_url s) = Some a ->
     a <> "/"%char /\ a <> ":"%char /\ a <> "#"%char).
  { intros s i a. rewrite Hget. destruct (String.get i s) as [b|]; [|done].
    cbn. intros [= <-]. case_decide; [done|tauto]. }
  assert (Hfix : forall s,
     (forall i a, String.get i s = Some a ->
        a <> "/"%char /\ a <> ":"%char /\ a <> "#"%char) ->
     safe_url s = s).
  { intros s Hs. apply String.get_correct. intros i. rewrite Hget.
    destruct (String.get i s) as [b|] eqn:Hb; [|done]. cbn.
    destruct (Hs i b Hb) as (? & ? & ?). case_decide; [tauto|done]. }
  split; [unfold safe_url; by rewrite !replace_char_length|].
  split; [apply Hget|]. split; [apply Hfree|]. split; [apply Hfix|].
  apply Hfix, Hfree.
Qed.

(** ** The entities of the sensor platform *)

Lemma device_entities_elem (url : string) (d : DeviceData V) (x : SensorEntity) :
  x ∈ (AtlanticStateSensor url <$> (map_to_list (states d)).*1)
        ++ [AtlanticRawDataSensor url] <->
  (exists n, x = AtlanticStateSensor url n /\ is_Some (states d !! n)) \/
  x = AtlanticRawDataSensor url.
Proof.
  rewrite elem_of_app, list_elem_of_fmap, list_elem_of_singleton.
  split; (intros [Hs|Hr]; [left|by right]).
  - destruct Hs as (n & -> & Hn). exists n. split; [done|].
    apply list_elem_of_fmap in Hn as ([n' e] & -> & Hne).
    apply elem_of_map_to_list in Hne. by eexists.
  - destruct Hs as (n & -> & [e He]). exists n. split; [done|].
    apply list_elem_of_fmap. exists (n, e). split; [done|].
    by apply elem_of_map_to_list.
Qed.

(** X15. The sensor platform creates one state sensor for every state of
    every device of the snapshot, one raw data sensor for every device, one
    events sensor and one full dump sensor, and nothing else: no entity is
    created twice, none for a device or a state the snapshot lacks, and their
    number is the number of states plus the number of devices plus two. *)
Theorem sensor_entities_cover_snapshot (c : Coordinator V) :
  let entities := sensor_async_setup_entry c in
  (forall url n,
     AtlanticStateSensor url n ∈ entities <->
     exists d, devices (_data c) !! url = Some d /\ is_Some (states d !! n)) /\
  (forall url,
     AtlanticRawDataSensor url ∈ entities <-> is_Some (devices (_data c) !! url)) /\
  AtlanticEventsSensor ∈ entities /\
  AtlanticFullDumpSensor ∈ entities /\
  NoDup entities /\
  length entities =
    sum_list_with (fun kd : string * DeviceData V => size (states kd.2))
      (map_to_list (devices (_data c)))
    + size (devices (_data c)) + 2.
Proof.
  intros entities. unfold entities, sensor_async_setup_entry, get_all_devices.
  set (per_device := fun '(device_url, device_data) =>
     (AtlanticStateSensor device_url <$> (map_to_list (states device_data)).*1)
     ++ [AtlanticRawDataSensor device_url]).
  assert (Hin : forall x, x ∈ map_to_list (devices (_data c)) ≫= per_device <->
    exists url d, devices (_data c) !! url = Some d /\
      ((exists n, x = AtlanticStateSensor url n /\ is_Some (states d !! n)) \/
       x = AtlanticRawDataSensor url)).
  { intros x. rewrite list_elem_of_bind. split.
    - intros ([url d] & Hx & Hd). apply elem_of_map_to_list in Hd.
      exists url, d. split; [done|]. by apply device_entities_elem.
    - intros (url & d & Hd & Hx). exists (url, d).
      split; [by apply device_entities_elem|by apply elem_of_map_to_list]. }
  split; [|split; [|split; [|split; [|split]]]].
  - intros url n. rewrite elem_of_app, Hin. split.
    + intros [(u & d & Hd & [(n' & [= -> ->] & Hn)|?])|Hx]; [by eauto|done|].
      apply elem_of_cons in Hx as [?|Hx]; [done|].
      by apply list_elem_of_singleton in Hx.
    + intros (d & Hd & Hn). left. exists url, d. split; [done|]. left. by exists n.
  - intros url. rewrite elem_of_app, Hin. split.
    + intros [(u & d & Hd & [(n' & ? & Hn)|[= ->]])|Hx]; [done|by eauto|].
      apply elem_of_cons in Hx as [?|Hx]; [done|].
      by apply list_elem_of_singleton in Hx.
    + intros [d Hd]. left. exists url, d. split; [done|]. by right.
  - apply elem_of_app. right. by left.
  - apply elem_of_app. right. right. by left.
  - apply NoDup_app. split; [|split].
    + apply NoDup_bind; [| |apply NoDup_map_to_list].
      * intros [u1 d1] [u2 d2] x H1 H2 Hx1 Hx2.
        apply elem_of_map_to_list in H1, H2.
        apply device_entities_elem in Hx1, Hx2.
        assert (u1 = u2) as ->.
        { destruct Hx1 as [(n1 & -> & _)| ->], Hx2 as [(n2 & [= ] & _)|[= ]];
            congruence. }
        congruence.
      * intros [u d] Hd. apply NoDup_app. split; [|split].
        -- apply NoDup_fmap_2_strong; [|apply NoDup_fst_map_to_list].
           by intros n1 n2 _ _ [= ].
        -- intros x Hx Hx'. apply list_elem_of_singleton in Hx' as ->.
           by apply list_elem_of_fmap in Hx as (n & [= ] & _).
        -- apply NoDup_singleton.
    + intros x Hx Hx'. apply Hin in Hx as (u & d & _ & [(n & -> & _)| ->]);
        apply elem_of_cons in Hx' as [?|Hx']; try done;
        by apply list_elem_of_singleton in Hx'.
    + apply NoDup_cons. split; [|apply NoDup_singleton].
      by intros ?%list_elem_of_singleton.
  - rewrite length_app. cbn [length]. f_equal.
    rewrite <- (length_map_to_list (devices (_data c))).
    generalize (map_to_list (devices (_data c))). intros l.
    induction l as [|[u d] l IH]; [done|].
    change ((u, d) :: l) with ([(u, d)] ++ l).
    rewrite bind_app, length_app, IH, bind_singleton. cbn [per_device].
    rewrite length_app, !length_fmap, length_map_to_list. cbn. lia.
Qed.

(** ** Diagnostics *)

(** X16. The diagnostics document holds the last 100 entries of the log, in
    order, and all of them when there are at most 100; its summary counts the
    log entries, the device entries and the gateway records it holds, and it
    has one device entry per identifier of the snapshot. In every state of
    the coordinator it counts at most 1000 events, and after 100 or more
    further events its events are the entries of the last 100 of them. *)
Theorem diagnostics_summarise_snapshot {E} (entry : E) (c : Coordinator V) :
  let document := async_get_config_entry_diagnostics isoformat entry c in
  diag_events document = slice_last 100 (events_log (_data c)) /\
  length (diag_events document) =
    total_events (data_summary document) `min` 100 /\
  total_events (data_summary document) = length (events_log (_data c)) /\
  device_count (data_summary document) = size (diag_devices document) /\
  gateway_count (data_summary document) = length (diag_gateways document) /\
  dom (diag_devices document) = dom (devices (_data c)) /\
  (reachable c ->
   total_events (data_summary document) <= 1000 /\
   forall events, 100 <= length events ->
     diag_events
       (async_get_config_entry_diagnostics isoformat entry (process_events events c))
     = slice_last 100 (log_entries events c)).
Proof.
  intros document.
  assert (Hevents : forall c0 : Coordinator V,
    diag_events (async_get_config_entry_diagnostics isoformat entry c0) =
    slice_last 100 (events_log (_data c0))).
  { intros c0. unfold async_get_config_entry_diagnostics, get_events_log.
    cbn [diag_events].
    destruct (100 <? length (events_log (_data c0))) eqn:Hlen; [done|].
    apply Nat.ltb_ge in Hlen. by rewrite slice_last_short. }
  split; [apply Hevents|].
  split; [unfold document; rewrite Hevents, slice_last_length; done|].
  split; [done|].
  split; [cbn; by rewrite !map_size_fmap|]. split; [done|].
  split; [cbn; by rewrite !dom_fmap_L|].
  intros Hc. split; [by apply reachable_log_bounded|].
  intros events Hlen. rewrite Hevents.
  apply recent_entries_after; [lia|done|done].
Qed.

End Surface_properties.

(** * The place hierarchy and the script's reflection *)

Section Script_properties.
Context {V : Type} {value_ops : PyValue V}.

Lemma indent_length (n : nat) : String.length (str_repeat "  " n) = 2 * n.
Proof.
  induction n as [|n IH]; [done|].
  change (S (S (String.length (str_repeat "  " n))) = 2 * S n). lia.
Qed.

(** Induction on a place and the places below it. *)
Lemma Place_walk_ind (P : Place -> Prop)
    (step : forall label oid type sub_places,
        Forall P sub_places -> P (MkPlace label oid type sub_places)) :
  forall place, P place.
Proof.
  fix ind 1. intros [label oid type sub_places]. apply step.
  induction sub_places as [|x l IH]; constructor; [apply ind|apply IH].
Qed.

(** X17. [_log_place] logs the places of the hierarchy in depth-first order,
    each place before its sub-places and these in their order, one line for
    each place: the line carries the label, OID and type of the place and
    is indented by two spaces for each level between the place and the
    start, added to the starting indent. So there are as many lines as
    places, and no line is indented deeper than the hierarchy has levels. *)
Theorem log_place_lists_every_place_once (place : Place) (indent : nat) :
  _log_place place indent =
    (fun entry : nat * Place => place_line (indent + entry.1) entry.2)
      <$> preorder place /\
  length (_log_place place indent) = place_count place /\
  Forall (fun entry : nat * Place => entry.1 < place_levels place) (preorder place) /\
  (forall level,
     String.length (line_prefix (place_line (indent + level) place))
     = 2 * (indent + level)).
Proof.
  assert (Hlines : forall place indent,
    _log_place place indent =
      (fun entry : nat * Place => place_line (indent + entry.1) entry.2)
        <$> preorder place).
  { clear. intros place.
    induction place as [label oid type sub_places IH] using Place_walk_ind.
    intros indent. cbn [_log_place preorder fmap list_fmap place_line fst snd].
    rewrite Nat.add_0_r. f_equal.
    induction IH as [|sub_place l' Hsub _ IHl]; [done|].
    rewrite fmap_app, <- list_fmap_compose, (Hsub (S indent)), IHl. f_equal.
    apply list_fmap_ext. intros i [level p] _. cbn. by rewrite Nat.add_succ_r. }
  assert (Hcount : forall place, length (preorder place) = place_count place).
  { clear. intros place.
    induction place as [label oid type sub_places IH] using Place_walk_ind.
    cbn [preorder place_count length]. f_equal.
    induction IH as [|sub_place l' Hsub _ IHl]; [done|].
    by rewrite length_app, length_fmap, Hsub, IHl. }
  assert (Hlevels : forall place,
    Forall (fun entry : nat * Place => entry.1 < place_levels place) (preorder place)).
  { clear. intros place.
    induction place as [label oid type sub_places IH] using Place_walk_ind.
    cbn [preorder place_levels]. constructor; [cbn; lia|].
    induction IH as [|sub_place l' Hsub _ IHl]; [constructor|].
    apply Forall_app. split.
    - apply Forall_fmap. eapply Forall_impl; [exact Hsub|].
      intros [level p] Hlevel. cbn in *. lia.
    - eapply Forall_impl; [exact IHl|]. intros [level p] Hlevel. cbn in *. lia. }
  split; [apply Hlines|]. split; [by rewrite Hlines, length_fmap|].
  split; [apply Hlevels|].
  intros level. destruct place. cbn. apply indent_length.
Qed.

Lemma dict_set_nonempty {A} (k : string) (v : A) (d : list (string * A)) :
  dict_set k v d <> [].
Proof. destruct d as [|[k' v'] d]; cbn; [done|]. by case_decide. Qed.

(** Induction on an object and the objects reachable from it. *)
Lemma pyobj_walk_ind (P : pyobj V -> Prop)
    (prim : forall v, P (OPrim v))
    (seq : forall s items, Forall P items -> P (OSeq s items))
    (dict : forall s entries,
        Forall (fun kv => P kv.2) entries -> P (ODict s entries))
    (object : forall s attrs,
        Forall (fun a => match a.2 with GValue value => P value | _ => True end)
               attrs ->
        P (OObject s attrs)) :
  forall obj, P obj.
Proof.
  fix ind 1. intros [v|s items|s entries|s attrs].
  - apply prim.
  - apply seq. induction items as [|x l IH]; constructor; [apply ind|apply IH].
  - apply dict. induction entries as [|[k x] l IH]; constructor; [apply ind|apply IH].
  - apply object. induction attrs as [|[k [e| |x]] l IH]; constructor;
      first [apply IH | exact I | apply ind].
Qed.

(** X18. Whatever the script's [extract_all_attributes] returns nests at
    most [max_depth + 1 - depth] containers, however deep the object nests;
    called beyond [max_depth] it returns no container at all. *)
Theorem script_report_is_depth_bounded
    (obj : pyobj V) (depth max_depth : nat) (r : report V) :
  extract_all_attributes obj depth max_depth = Returns r ->
  nesting r <= S max_depth - depth.
Proof.
  revert depth r.
  induction obj as [v|s items IH|s entries IH|s attrs IH] using pyobj_walk_ind;
    intros depth r; cbn [extract_all_attributes];
    (destruct (max_depth <? depth) eqn:Hdepth;
     [intros Hr; match type of Hr with
                 | _ <$> ?o = _ => destruct o; [|done]
                 end; injection Hr as <-; cbn; lia
     |apply Nat.ltb_ge in Hdepth]).
  - intros [= <-]. cbn. lia.
  - set (comprehension := (fix comprehension (l : list (pyobj V)) := _)).
    destruct (comprehension items) as [rs|] eqn:Hrs; [|done].
    intros [= <-]. cbn [nesting].
    set (deepest := (fix deepest (l : list (report V)) : nat := _)).
    enough (deepest rs <= S max_depth - S depth) by lia.
    clear Hdepth. revert rs Hrs. induction IH as [|item l' Hitem _ IHl];
      intros rs; cbn.
    + intros [= <-]. cbn. lia.
    + destruct (extract_all_attributes item (S depth) max_depth) as [r1|] eqn:Hr1;
        [|done]. cbn.
      destruct (comprehension l') as [rs'|] eqn:Hrs'; [|done]. cbn.
      intros [= <-]. cbn. specialize (Hitem _ _ Hr1). specialize (IHl _ eq_refl).
      lia.
  - set (comprehension := (fix comprehension (l : list (dkey V * pyobj V)) := _)).
    destruct (comprehension entries) as [rs|] eqn:Hrs; [|done].
    intros [= <-]. cbn [nesting].
    set (deepest := (fix deepest (l : list (dkey V * report V)) : nat := _)).
    enough (deepest rs <= S max_depth - S depth) by lia.
    clear Hdepth. revert rs Hrs. induction IH as [|[k v] l' Hitem _ IHl];
      intros rs; cbn.
    + intros [= <-]. cbn. lia.
    + destruct (extract_all_attributes v (S depth) max_depth) as [r1|] eqn:Hr1;
        [|done]. cbn.
      destruct (comprehension l') as [rs'|] eqn:Hrs'; [|done]. cbn.
      intros [= <-]. cbn. specialize (Hitem _ _ Hr1). specialize (IHl _ eq_refl).
      lia.
  - set (loop := (fix loop (l : list (string * getattr_result V))
                      (result : list (string * report V)) := _)).
    pose (deepest := fix deepest (l : list (string * report V)) : nat :=
            match l with
            | [] => 0
            | x :: l' => nesting x.2 `max` deepest l'
            end).
    assert (forall k (x : report V) d,
               nesting x <= S max_depth - S depth ->
               deepest d <= S max_depth - S depth ->
               deepest (dict_set k x d) <= S max_depth - S depth) as Hset.
    { intros k x d Hx. induction d as [|[k' x'] d IHd]; cbn.
      - lia.
      - case_decide; cbn; lia. }
    assert (forall result result',
               deepest result <= S max_depth - S depth ->
               loop attrs result = Returns result' ->
               deepest result' <= S max_depth - S depth) as Hloop.
    { clear Hdepth. induction IH as [|[attr_name getattr] l' Hattr _ IHl];
        intros result result' Hresult; cbn.
      - by intros [= <-].
      - destruct (startswith_underscore attr_name); [by apply IHl|].
        destruct getattr as [e| |value]; cbn.
        + apply IHl, Hset; [cbn; lia|done].
        + by apply IHl.
        + destruct (extract_all_attributes value (S depth) max_depth) as [r1|]
            eqn:Hr1; cbn.
          * apply IHl, Hset; [|done]. by eapply (Hattr (S depth)).
          * apply IHl, Hset; [cbn; lia|done]. }
    destruct (loop attrs []) as [result|] eqn:Hresult; [|done]. cbn.
    apply Hloop in Hresult; [|cbn; lia].
    destruct result as [|a result].
    + destruct s; [|done]. intros [= <-]. cbn. lia.
    + intros [= <-]. change (S (deepest (a :: result)) <= S max_depth - depth). lia.
Qed.

(** X19. For an object other than a primitive, list, tuple or dict, walked
    within [max_depth] and with distinct [dir] names, the script reports the
    public attributes that are not callable, in [dir] order, each with the
    report of its value, or with the error marker when [getattr] or the walk
    of the value raised; when there is none it reports [str] of the object.
    So it raises only what [str] of that very object raises, and only
    beyond [max_depth] or when every public attribute is callable. *)
Theorem script_object_report_fails_only_on_own_str
    (str_result : outcome string) (attrs : list (string * getattr_result V))
    (depth max_depth : nat) :
  (depth <= max_depth -> NoDup attrs.*1 ->
   extract_all_attributes (OObject str_result attrs) depth max_depth =
   match script_swept depth max_depth attrs with
   | [] => (fun s => RVal (py_str s)) <$> str_result
   | attributes => Returns (RObject attributes)
   end) /\
  (forall e,
     extract_all_attributes (OObject str_result attrs) depth max_depth = Raises e ->
     str_result = Raises e /\
     (max_depth < depth \/
      Forall (fun a => startswith_underscore a.1 = true \/ a.2 = GCallable) attrs)).
Proof.
  split.
  - intros Hdepth Hnd. cbn [extract_all_attributes].
    apply Nat.ltb_ge in Hdepth. rewrite Hdepth.
    set (loop := (fix loop (l : list (string * getattr_result V))
                      (result : list (string * report V)) := _)).
    assert (Hloop : forall l acc,
               NoDup (acc.*1 ++ l.*1) ->
               loop l acc = Returns (acc ++ script_swept depth max_depth l)).
    { clear Hnd. induction l as [|[k g] l IH]; intros acc Hnd.
      - cbn. by rewrite app_nil_r.
      - cbn [loop]. unfold script_swept. cbn [omap list_omap fst snd].
        fold (script_swept depth max_depth l).
        rewrite fmap_cons in Hnd. cbn [fst] in Hnd.
        assert (Hnd' : NoDup (acc.*1 ++ l.*1)).
        { apply NoDup_app in Hnd as (Ha & Hdisj & Hb).
          apply NoDup_cons in Hb as [_ Hb].
          apply NoDup_app. split; [done|]. split; [|done].
          intros x Hx Hx'. apply (Hdisj x Hx). by right. }
        assert (Hk : k ∉ acc.*1).
        { apply NoDup_app in Hnd as (_ & Hdisj & _). intros Hin.
          apply (Hdisj k Hin). by left. }
        assert (Hk' : k ∉ l.*1).
        { apply NoDup_app in Hnd as (_ & _ & Hb).
          by apply NoDup_cons in Hb as [? _]. }
        assert (Hstored : forall r,
                   loop l (dict_set k r acc) =
                   Returns (acc ++ (k, r) :: script_swept depth max_depth l)).
        { intros r. rewrite dict_set_fresh by done. rewrite IH.
          - by rewrite <- app_assoc.
          - rewrite fmap_app. cbn. rewrite <- app_assoc. cbn.
            apply NoDup_app in Hnd' as (Ha & Hdisj & Hb).
            apply NoDup_app. split; [done|]. split.
            + intros x Hx Hx'. apply elem_of_cons in Hx' as [->|Hx']; [done|].
              by apply (Hdisj x).
            + by apply NoDup_cons. }
        destruct (startswith_underscore k); [by apply IH|].
        destruct g as [e0| |value]; cbn.
        + apply Hstored.
        + by apply IH.
        + destruct (extract_all_attributes value (S depth) max_depth) as [r1|e1];
            cbn; apply Hstored. }
    rewrite (Hloop attrs []) by done. cbn.
    by destruct (script_swept depth max_depth attrs).
  - intros e. cbn [extract_all_attributes].
    destruct (max_depth <? depth) eqn:Hdepth.
    { apply Nat.ltb_lt in Hdepth. cbn. destruct str_result; [done|].
      intros [= <-]. split; [done|by left]. }
    set (loop := (fix loop (l : list (string * getattr_result V))
                      (result : list (string * report V)) := _)).
    assert (forall result,
               exists result', loop attrs result = Returns result' /\
                 (result' = [] ->
                  result = [] /\
                  Forall (fun a => startswith_underscore a.1 = true \/ a.2 = GCallable)
                         attrs)) as Hloop.
    { induction attrs as [|[attr_name getattr] l' IHl]; intros result; cbn.
      - exists result. split; [done|]. by intros ->.
      - destruct (startswith_underscore attr_name) eqn:Hprivate.
        + destruct (IHl result) as (result' & -> & Hempty).
          exists result'. split; [done|]. intros E.
          destruct (Hempty E) as [-> Hall]. split; [done|].
          constructor; [by left|done].
        + assert (forall x,
                     exists result',
                       loop l' (dict_set attr_name x result) = Returns result' /\
                       result' <> []) as Hstored.
          { intros x.
            destruct (IHl (dict_set attr_name x result)) as (result' & -> & Hempty).
            exists result'. split; [done|]. intros E.
            destruct (Hempty E) as [Hnil _]. by apply dict_set_nonempty in Hnil. }
          destruct getattr as [e0| |value]; cbn.
          * destruct (Hstored (RVal (py_str ("<error: " +:+ exn_str e0 +:+ ">"))))
              as (result' & -> & Hne). by exists result'.
          * destruct (IHl result) as (result' & -> & Hempty).
            exists result'. split; [done|]. intros E.
            destruct (Hempty E) as [-> Hall]. split; [done|].
            constructor; [by right|done].
          * destruct (extract_all_attributes value (S depth) max_depth) as [r1|e1];
              cbn.
            -- destruct (Hstored r1) as (result' & -> & Hne). by exists result'.
            -- destruct (Hstored (RVal (py_str ("<error: " +:+ exn_str e1 +:+ ">"))))
                 as (result' & -> & Hne). by exists result'. }
    destruct (Hloop []) as (result & -> & Hempty). cbn.
    destruct result as [|a result]; [|done].
    destruct (Hempty eq_refl) as [_ Hall].
    destruct str_result; [done|]. intros [= <-]. split; [done|by right].
Qed.

End Script_properties.

(** * The further properties on the sample data *)

Section More_examples.
Import Sample.

(** The boiler goes unavailable: its record changes in that flag only. *)
Lemma availability_change_sets_only_flag_witness :
  exists d,
    ev_device_url (unavailable_event "dev-1") = Some "dev-1" /\
    devices (_data start) !! "dev-1" = Some d /\
    "dev-1" <> "" /\
    _handle_availability_change (unavailable_event "dev-1") false start =
    (Returns tt,
     set_journal (fun j => j ++ [AvailabilityLine (label d) false])
       (set_data (set_devices <["dev-1" := set_available false d]>) start)).
Proof.
  destruct start_knows_boiler as [d Hd]. exists d.
  assert (Hne : "dev-1" <> "") by discriminate.
  destruct (availability_change_sets_only_flag
              (unavailable_event "dev-1") false start "dev-1" d eq_refl Hd)
    as [Hset _].
  split; [reflexivity|]. split; [exact Hd|]. split; [exact Hne|exact (Hset Hne)].
Defined.

(** A device-created event for dev-2 adds no device. *)
Lemma informational_event_changes_log_only_witness :
  ev_name created_event <> DEVICE_STATE_CHANGED /\
  ev_name created_event <> DEVICE_AVAILABLE /\
  ev_name created_event <> DEVICE_UNAVAILABLE /\
  _data (exec (_process_event created_event) start) =
  set_events_log
    (fun l => slice_last 1000 (l ++ [log_entry_for created_event start])) (_data start).
Proof.
  assert (H1 : ev_name created_event <> DEVICE_STATE_CHANGED) by discriminate.
  assert (H2 : ev_name created_event <> DEVICE_AVAILABLE) by discriminate.
  assert (H3 : ev_name created_event <> DEVICE_UNAVAILABLE) by discriminate.
  split; [exact H1|]. split; [exact H2|]. split; [exact H3|].
  exact (informational_event_changes_log_only created_event start H1 H2 H3).
Defined.

(** The event with a dict keyed by a tuple is logged, and processing it
    raises. *)
Lemma undumpable_event_is_logged_not_applied_witness :
  ~ dumpable (reflected (ev_reflect tuple_keyed_event)) /\
  (exists e, result (_process_event tuple_keyed_event) start = Raises e) /\
  _event_count (exec (_process_event tuple_keyed_event) start) = S (_event_count start) /\
  devices (_data (exec (_process_event tuple_keyed_event) start)) = devices (_data start).
Proof.
  assert (Hkeys : ~ dumpable (reflected (ev_reflect tuple_keyed_event))).
  { intros Hd. apply Forall_cons_1 in Hd as [Hd _].
    apply Forall_cons_1 in Hd as [Hd _]. exact Hd. }
  destruct (undumpable_event_is_logged_not_applied tuple_keyed_event start)
    as [_ Hraises].
  destruct (Hraises Hkeys) as (Hexn & _ & Hcount & Hdevices & _).
  split; [exact Hkeys|]. split; [exact Hexn|]. split; [exact Hcount|exact Hdevices].
Defined.

(** A setup that lists nothing keeps the boiler; the setup that lists the
    boiler resets its temperature to the setup's 45 degrees. *)
Lemma setup_run_replaces_listed_devices_witness :
  let c := exec (_process_event (temperature_event "dev-1" 46)) start in
  (forall dev, dev ∈ setup_devices empty_setup -> dev_device_url dev <> "dev-1") /\
  devices (_data (exec (_process_setup empty_setup) c)) !! "dev-1" =
    devices (_data c) !! "dev-1" /\
  last (filter (fun dev => dev_device_url dev = "dev-1") (setup_devices setup))
    = Some boiler /\
  exists d', devices (_data (exec (_process_setup setup) c)) !! "dev-1" = Some d' /\
    label d' = "Boiler" /\
    value <$> states d' !! "core:TemperatureState" = Some (PInt 45).
Proof.
  intros c.
  assert (Hnone : forall dev,
             dev ∈ setup_devices empty_setup -> dev_device_url dev <> "dev-1").
  { intros dev Hin. cbn in Hin. by apply elem_of_nil in Hin. }
  assert (Hlast : last (filter (fun dev => dev_device_url dev = "dev-1")
                          (setup_devices setup)) = Some boiler)
    by (vm_compute; reflexivity).
  destruct (setup_run_replaces_listed_devices empty_setup c) as [Hkept _].
  destruct (setup_run_replaces_listed_devices setup c) as [_ Hnew].
  destruct (Hnew "dev-1" boiler Hlast) as (d' & Hd' & Hlabel & _ & _ & Hstates & _).
  split; [exact Hnone|]. split; [exact (Hkept "dev-1" Hnone)|]. split; [exact Hlast|].
  exists d'. split; [exact Hd'|]. split; [exact Hlabel|].
  rewrite (Hstates "core:TemperatureState"). vm_compute. reflexivity.
Defined.

(** The coordinator just built was refreshed at a reading it took. *)
Lemma last_full_refresh_is_a_past_reading_witness :
  reachable start /\
  (exists k, k < clock_reads start /\
     last_full_refresh (_data start) = Some (wall_clock k)) /\
  clock_reads (exec full_refresh_due start) = S (clock_reads start).
Proof.
  split; [exact start_reachable|].
  exact (last_full_refresh_is_a_past_reading start start_reachable).
Defined.

(** 301 seconds after the last full refresh the test succeeds. *)
Lemma full_refresh_due_iff_witness :
  let c := refreshed_at_zero 1204 in
  last_full_refresh (_data c) = Some 0%Z /\
  exists due,
    full_refresh_due c = (Returns due, set_clock_reads S c) /\ due = true.
Proof.
  intros c.
  destruct (full_refresh_due_iff c 0%Z eq_refl) as (due & Hrun & Hiff).
  split; [reflexivity|]. exists due. split; [exact Hrun|].
  apply Hiff. vm_compute. discriminate.
Defined.

(** The names of the sample gateway's sweep. *)
Lemma sweep_lists_public_attributes_witness :
  NoDup gateway.*1 /\
  reflected gateway = swept gateway /\
  NoDup (reflected gateway).*1 /\
  (reflected gateway).*1 =
    ["alive"; "connectivity"; "gateway_id"; "id"; "partners"; "sub_type"].
Proof.
  assert (Hnd : NoDup gateway.*1).
  { apply (bool_decide_unpack (NoDup gateway.*1)). vm_compute. exact I. }
  destruct (sweep_lists_public_attributes gateway Hnd) as (Hswept & Hnames & _).
  split; [exact Hnd|]. split; [exact Hswept|]. split; [exact Hnames|].
  vm_compute. reflexivity.
Defined.

(** After two events the boiler's temperature entry is tagged as an int. *)
Lemma stored_type_is_type_of_value_witness :
  exists d e,
    reachable after_two_events /\
    devices (_data after_two_events) !! "dev-1" = Some d /\
    states d !! "core:TemperatureState" = Some e /\
    type e = type_name (value e) /\
    type e = "int".
Proof.
  assert (Hd : exists d, devices (_data after_two_events) !! "dev-1" = Some d)
    by (vm_compute; eexists; reflexivity).
  destruct Hd as [d Hd].
  assert (He : exists e,
             states d !! "core:TemperatureState" = Some e /\ type e = "int").
  { pose proof Hd as Hd'. vm_compute in Hd'. injection Hd' as <-.
    vm_compute. eexists. split; reflexivity. }
  destruct He as (e & He & Hint).
  exists d, e.
  destruct (stored_type_is_type_of_value after_two_events "dev-1" d
              after_two_events_reachable Hd) as [Hstates _].
  split; [exact after_two_events_reachable|]. split; [exact Hd|].
  split; [exact He|]. split; [exact (Hstates _ _ He)|exact Hint].
Defined.

(** The dump of the coordinator just built, and after ten events. *)
Lemma full_dump_shows_snapshot_witness :
  let events := replicate 10 (temperature_event "dev-1" 46) in
  reachable start /\
  10 <= length events /\
  events_log_count (get_full_data_dump pretty start) <= 1000 /\
  is_Some (dump_last_full_refresh (get_full_data_dump pretty start)) /\
  last_events (get_full_data_dump pretty (process_events events start)) =
    slice_last 10 (log_entries events start).
Proof.
  intros events.
  assert (Hten : 10 <= length events).
  { unfold events. rewrite length_replicate. lia. }
  destruct (full_dump_shows_snapshot pretty start) as (_ & _ & _ & Hreach).
  destruct (Hreach start_reachable) as (Hcount & _ & Hrefresh & Hlast).
  split; [exact start_reachable|]. split; [exact Hten|]. split; [exact Hcount|].
  split; [exact Hrefresh|exact (Hlast events Hten)].
Defined.

(** The temperature sensor of the boiler still reads 45 after the vendor's
    event that reports 46; the setup sets it to its 45; a setup that lists
    nothing leaves it; and a sensor of dev-9 reads None. *)
Lemma state_sensor_reads_setup_value_witness :
  let event := temperature_event "dev-1" 46 in
  (ev_name event <> DEVICE_STATE_CHANGED \/ from_vendor event) /\
  state_sensor_native_value (exec (_process_event event) start)
    "dev-1" "core:TemperatureState" = PInt 45 /\
  last (filter (fun dev => dev_device_url dev = "dev-1") (setup_devices setup))
    = Some boiler /\
  state_sensor_native_value (exec (_process_setup setup) start)
    "dev-1" "core:TemperatureState" = PInt 45 /\
  (forall dev, dev ∈ setup_devices empty_setup -> dev_device_url dev <> "dev-1") /\
  state_sensor_native_value (exec (_process_setup empty_setup) start)
    "dev-1" "core:TemperatureState" = PInt 45 /\
  devices (_data start) !! "dev-9" = None /\
  state_sensor_native_value start "dev-9" "core:TemperatureState" = PNone.
Proof.
  intros event.
  assert (Hvendor : ev_name event <> DEVICE_STATE_CHANGED \/ from_vendor event)
    by (right; by exists [temperature 46]).
  assert (Hlast : last (filter (fun dev => dev_device_url dev = "dev-1")
                          (setup_devices setup)) = Some boiler)
    by (vm_compute; reflexivity).
  assert (Hnone : forall dev,
             dev ∈ setup_devices empty_setup -> dev_device_url dev <> "dev-1").
  { intros dev Hin. cbn in Hin. by apply elem_of_nil in Hin. }
  assert (Hunknown : devices (_data start) !! "dev-9" = None)
    by (vm_compute; reflexivity).
  assert (Hnow : state_sensor_native_value start "dev-1" "core:TemperatureState"
                 = PInt 45) by (vm_compute; reflexivity).
  destruct (state_sensor_reads_setup_value start "dev-1" "core:TemperatureState")
    as (Hevent & Hsetup & Hunlisted & _).
  destruct (state_sensor_reads_setup_value start "dev-9" "core:TemperatureState")
    as (_ & _ & _ & Hnone9).
  split; [exact Hvendor|].
  split; [rewrite (Hevent event Hvendor); exact Hnow|].
  split; [exact Hlast|].
  split; [rewrite (Hsetup setup boiler Hlast); vm_compute; reflexivity|].
  split; [exact Hnone|].
  split; [rewrite (Hunlisted empty_setup Hnone); exact Hnow|].
  split; [exact Hunknown|exact (Hnone9 Hunknown)].
Defined.

(** The availability sensor of the boiler reads off once the boiler's
    unavailable event is processed, is not affected by the one of dev-9 nor
    by a state-changed event, and reads on again after the setup is
    normalised. *)
Lemma availability_sensor_follows_events_witness :
  let gone := unavailable_event "dev-1" in
  let c1 := exec (_process_event gone) start in
  ev_device_url gone = Some "dev-1" /\
  "dev-1" <> "" /\
  is_Some (devices (_data start) !! "dev-1") /\
  dumpable (reflected (ev_reflect gone)) /\
  ev_name gone = DEVICE_UNAVAILABLE /\
  result (_process_event gone) start = Returns tt /\
  availability_sensor_is_on c1 "dev-1" = false /\
  ev_device_url (unavailable_event "dev-9") <> Some "dev-1" /\
  availability_sensor_is_on (exec (_process_event (unavailable_event "dev-9")) start)
    "dev-1" = true /\
  ev_name (temperature_event "dev-1" 46) <> DEVICE_AVAILABLE /\
  ev_name (temperature_event "dev-1" 46) <> DEVICE_UNAVAILABLE /\
  availability_sensor_is_on (exec (_process_event (temperature_event "dev-1" 46)) c1)
    "dev-1" = false /\
  last (filter (fun dev => dev_device_url dev = "dev-1") (setup_devices setup))
    = Some boiler /\
  availability_sensor_is_on (exec (_process_setup setup) c1) "dev-1" = true /\
  devices (_data start) !! "dev-9" = None /\
  availability_sensor_is_on (exec (_process_event (unavailable_event "dev-9")) start)
    "dev-9" = false.
Proof.
  intros gone c1.
  assert (Hne : "dev-1" <> "") by discriminate.
  assert (Hdump : dumpable (reflected (ev_reflect gone))).
  { vm_compute. repeat constructor. }
  assert (Hother : ev_device_url (unavailable_event "dev-9") <> Some "dev-1")
    by discriminate.
  assert (Hkind1 : ev_name (temperature_event "dev-1" 46) <> DEVICE_AVAILABLE)
    by discriminate.
  assert (Hkind2 : ev_name (temperature_event "dev-1" 46) <> DEVICE_UNAVAILABLE)
    by discriminate.
  assert (Hlast : last (filter (fun dev => dev_device_url dev = "dev-1")
                          (setup_devices setup)) = Some boiler)
    by (vm_compute; reflexivity).
  assert (Hunknown : devices (_data start) !! "dev-9" = None)
    by (vm_compute; reflexivity).
  assert (Hon : availability_sensor_is_on start "dev-1" = true)
    by (vm_compute; reflexivity).
  destruct (availability_sensor_follows_events gone start "dev-1")
    as (Hset & _ & _ & _ & _).
  destruct (Hset eq_refl Hne start_knows_boiler Hdump) as [_ Hoff].
  destruct (Hoff eq_refl) as [Hreturns Hreads].
  destruct (availability_sensor_follows_events (unavailable_event "dev-9") start "dev-1")
    as (_ & Hkeep & _ & _ & _).
  destruct (availability_sensor_follows_events (temperature_event "dev-1" 46) c1 "dev-1")
    as (_ & Hkeep' & Hsetup & _ & _).
  destruct (availability_sensor_follows_events (unavailable_event "dev-9") start "dev-9")
    as (_ & _ & _ & _ & Hunknown').
  split; [reflexivity|]. split; [exact Hne|]. split; [exact start_knows_boiler|].
  split; [exact Hdump|]. split; [reflexivity|]. split; [exact Hreturns|].
  split; [exact Hreads|]. split; [exact Hother|].
  split; [rewrite (Hkeep (or_intror (or_introl Hother))); exact Hon|].
  split; [exact Hkind1|]. split; [exact Hkind2|].
  split; [rewrite (Hkeep' (or_introl (conj Hkind1 Hkind2))); exact Hreads|].
  split; [exact Hlast|].
  split; [rewrite (Hsetup setup boiler Hlast); reflexivity|].
  split; [exact Hunknown|exact (proj2 (Hunknown' Hunknown))].
Defined.

(** After twenty events the events sensor reads 20 and shows their
    entries. *)
Lemma events_sensor_saturates_witness :
  let events := replicate 20 (temperature_event "dev-1" 46) in
  reachable start /\
  20 <= length events /\
  events_sensor_native_value start <= 1000 /\
  events_sensor_native_value (process_events events start) =
    (events_sensor_native_value start + length events) `min` 1000 /\
  events_sensor_recent_events (process_events events start) =
    slice_last 20 (log_entries events start).
Proof.
  intros events.
  assert (Htwenty : 20 <= length events).
  { unfold events. rewrite length_replicate. lia. }
  destruct (events_sensor_saturates start events start_reachable)
    as (Hcap & Hcount & _ & Hrecent & _).
  split; [exact start_reachable|]. split; [exact Htwenty|]. split; [exact Hcap|].
  split; [exact Hcount|exact (Hrecent Htwenty)].
Defined.

(** An identifier without separators is its own sanitised form; the
    separators of a vendor identifier become underscores. *)
Lemma safe_url_replaces_separators_witness :
  (forall i a, String.get i "dev-1" = Some a ->
     a <> "/"%char /\ a <> ":"%char /\ a <> "#"%char) /\
  safe_url "dev-1" = "dev-1" /\
  safe_url "io://1234-5678/42#1" = "io___1234-5678_42_1" /\
  safe_url (safe_url "io://1234-5678/42#1") = safe_url "io://1234-5678/42#1".
Proof.
  assert (Hplain : forall i a, String.get i "dev-1" = Some a ->
     a <> "/"%char /\ a <> ":"%char /\ a <> "#"%char).
  { intros i a. do 5 (destruct i as [|i]; [intros [= <-]; repeat split; discriminate|]).
    cbn. discriminate. }
  destruct (safe_url_replaces_separators "dev-1") as (_ & _ & _ & Hsame & _).
  destruct (safe_url_replaces_separators "io://1234-5678/42#1") as (_ & _ & _ & _ & Htwice).
  split; [exact Hplain|]. split; [exact (Hsame Hplain)|].
  split; [vm_compute; reflexivity|exact Htwice].
Defined.

(** The diagnostics of the coordinator just built, and after 100 events. *)
Lemma diagnostics_summarise_snapshot_witness :
  let events := replicate 100 (temperature_event "dev-1" 46) in
  reachable start /\
  100 <= length events /\
  total_events (data_summary (async_get_config_entry_diagnostics pretty tt start))
    <= 1000 /\
  diag_events (async_get_config_entry_diagnostics pretty tt (process_events events start))
    = slice_last 100 (log_entries events start).
Proof.
  intros events.
  assert (Hmany : 100 <= length events).
  { unfold events. rewrite length_replicate. lia. }
  destruct (diagnostics_summarise_snapshot pretty tt start)
    as (_ & _ & _ & _ & _ & _ & Hreach).
  destruct (Hreach start_reachable) as [Hcount Hlast].
  split; [exact start_reachable|]. split; [exact Hmany|]. split; [exact Hcount|].
  exact (Hlast events Hmany).
Defined.

(** The four places of the sample house are logged once each, the bathroom
    under four spaces. *)
Example house_lines :
  _log_place house 0 =
    [ {| line_prefix := ""; line_label := "House";
         line_oid := "oid-0"; line_type := "HOUSE" |};
      {| line_prefix := "  "; line_label := "Ground floor";
         line_oid := "oid-1"; line_type := "FLOOR" |};
      {| line_prefix := "  "; line_label := "First floor";
         line_oid := "oid-2"; line_type := "FLOOR" |};
      {| line_prefix := "    "; line_label := "Bathroom";
         line_oid := "oid-3"; line_type := "ROOM" |} ] /\
  place_count house = 4 /\ place_levels house = 3.
Proof. vm_compute. repeat split; reflexivity. Qed.

(** Eight nested lists walked with the default depth of 5 give six nested
    lists around the text of the seventh. *)
Lemma script_report_is_depth_bounded_witness :
  let r := Nat.iter 6 (fun r => RList [r]) (RVal (PStr "[[7]]")) in
  extract_all_attributes (nested_list 8) 0 5 = Returns r /\
  nesting r <= S 5 - 0 /\
  nesting r = 6.
Proof.
  intros r.
  assert (Hr : extract_all_attributes (nested_list 8) 0 5 = Returns r)
    by (vm_compute; reflexivity).
  split; [exact Hr|].
  split; [exact (script_report_is_depth_bounded (nested_list 8) 0 5 r Hr)|].
  vm_compute. reflexivity.
Defined.

(** The report of a client lists its failing property with the marker and
    its server name; the report of the closed handle raises what its [str]
    raises. *)
Lemma script_object_report_fails_only_on_own_str_witness :
  0 <= 5 /\
  NoDup client_attrs.*1 /\
  extract_all_attributes (OObject (Returns "Client()") client_attrs) 0 5 =
    Returns (RObject [ ("gateway", RVal (PStr "<error: not connected>"));
                       ("server", RVal (PStr "atlantic_cozytouch")) ]) /\
  extract_all_attributes closed_handle 0 5 = Raises (Error "handle is closed") /\
  Forall (fun a => startswith_underscore a.1 = true \/ a.2 = GCallable)
    [ ("_session", GValue (OPrim PNone)); ("close", GCallable (V := pv)) ].
Proof.
  assert (Hdepth : 0 <= 5) by lia.
  assert (Hnd : NoDup client_attrs.*1).
  { apply (bool_decide_unpack (NoDup client_attrs.*1)). vm_compute. exact I. }
  assert (Hr : extract_all_attributes closed_handle 0 5 = Raises (Error "handle is closed"))
    by (vm_compute; reflexivity).
  destruct (script_object_report_fails_only_on_own_str
              (Returns "Client()") client_attrs 0 5) as [Hreport _].
  destruct (script_object_report_fails_only_on_own_str
              (Raises (Error "handle is closed"))
              [ ("_session", GValue (OPrim PNone)); ("close", GCallable (V := pv)) ]
              0 5) as [_ Hraises].
  destruct (Hraises _ Hr) as [_ [Hbeyond|Hall]]; [exfalso; lia|].
  split; [exact Hdepth|]. split; [exact Hnd|].
  split; [rewrite (Hreport Hdepth Hnd); vm_compute; reflexivity|].
  split; [exact Hr|exact Hall].
Defined.

(** The temperature event keeps the boiler's description and its state
    name. *)
Lemma event_keeps_description_and_state_names_witness :
  exists d d',
    devices (_data start) !! "dev-1" = Some d /\
    devices (_data (exec (_process_event (temperature_event "dev-1" 46)) start)) !! "dev-1"
      = Some d' /\
    description d' = description d /\
    is_Some (states d' !! "core:TemperatureState").
Proof.
  assert (Hd : exists d, devices (_data start) !! "dev-1" = Some d /\
                         is_Some (states d !! "core:TemperatureState"))
    by (vm_compute; eexists; split; [reflexivity|eexists; reflexivity]).
  destruct Hd as (d & Hd & Hstate).
  pose proof (event_keeps_description_and_state_names
                (temperature_event "dev-1" 46) start "dev-1") as Hkeep.
  rewrite Hd in Hkeep. destruct Hkeep as (d' & Hd' & Hdescription & Hnames).
  exists d, d'. split; [exact Hd|]. split; [exact Hd'|].
  split; [exact Hdescription|exact (Hnames _ Hstate)].
Defined.

(** The coordinator just built gets the boiler's temperature sensor and raw
    data sensor and the two global sensors. *)
Lemma sensor_entities_cover_snapshot_witness :
  (exists d, devices (_data start) !! "dev-1" = Some d /\
             is_Some (states d !! "core:TemperatureState")) /\
  AtlanticStateSensor "dev-1" "core:TemperatureState" ∈ sensor_async_setup_entry start /\
  AtlanticRawDataSensor "dev-1" ∈ sensor_async_setup_entry start /\
  NoDup (sensor_async_setup_entry start) /\
  length (sensor_async_setup_entry start) = 4.
Proof.
  assert (Hd : exists d, devices (_data start) !! "dev-1" = Some d /\
                         is_Some (states d !! "core:TemperatureState"))
    by (vm_compute; eexists; split; [reflexivity|eexists; reflexivity]).
  destruct (sensor_entities_cover_snapshot start)
    as (Hstate & Hraw & _ & _ & Hnodup & Hlength).
  split; [exact Hd|]. split; [exact (proj2 (Hstate _ _) Hd)|].
  split; [exact (proj2 (Hraw _) start_knows_boiler)|]. split; [exact Hnodup|].
  rewrite Hlength. vm_compute. reflexivity.
Defined.

End More_examples.
